(** * MonCurse_Tools: the tile codecs of [bin_to_tiled.py] and [tiled_to_bin.py]

    A shallow embedding of the two converters between the game's binary
    level format and the Tiled (TMX) GID grids, and the properties of the
    atlas registry, the forward codec (binary cell to GID) and the reverse
    codec (GID to binary cell).

    Python [int] is [Z]; Python [float] is the kernel's binary64 [float];
    [dict] is [gmap]; [list] is [list]; an uncaught exception ends the run
    and is the [Raise] branch of [res]. *)

From Stdlib Require Import ZArith List String Ascii Floats Lia.
From Stdlib Require Strings.Byte.
From stdpp Require Import gmap strings list fin_maps sorting.
Import ListNotations.

Local Open Scope string_scope.
Local Open Scope Z_scope.

(** ** Exceptions and the error monad *)

Inductive exn : Set :=
| ZeroDivisionError
| OverflowError
| ValueError
| StructError.

Inductive res (A : Type) : Type :=
| Ok (a : A)
| Raise (e : exn).
Arguments Ok {A} a.
Arguments Raise {A} e.

#[global] Instance res_ret : MRet res := @Ok.
#[global] Instance res_bind : MBind res := fun A B k m =>
  match m with
  | Ok a => k a
  | Raise e => Raise e
  end.

(** ** Python numbers *)

Module PyNum.

(** [float(z)] as the interpreter applies it to an [int] operand of a
    mixed operation: the nearest binary64 (ties to even), or
    [OverflowError] when that is out of range. *)
Definition float_of_Z (z : Z) : res float :=
  match binary_normalize prec emax z 0 false with
  | S754_infinity _ => Raise OverflowError
  | sf => Ok (SF2Prim sf)
  end.

(** [round(f)] with one argument: an [int], ties to even; [ValueError] on
    a NaN and [OverflowError] on an infinity. *)
Definition round_half_even (m : positive) (e : Z) : Z :=
  if 0 <=? e then Z.pos m * 2 ^ e
  else
    let d := 2 ^ (- e) in
    let q := Z.pos m / d in
    let r := Z.pos m mod d in
    match 2 * r ?= d with
    | Lt => q
    | Gt => q + 1
    | Eq => if Z.even q then q else q + 1
    end.

Definition round (f : float) : res Z :=
  match Prim2SF f with
  | S754_nan => Raise ValueError
  | S754_infinity _ => Raise OverflowError
  | S754_zero _ => Ok 0
  | S754_finite s m e =>
      let n := round_half_even m e in
      Ok (if s then - n else n)
  end.

(** Comparison of an [int] with a [float]: exact, never raising; every
    comparison with a NaN is false. *)
Definition Z_compare_float (z : Z) (f : float) : option comparison :=
  match Prim2SF f with
  | S754_nan => None
  | S754_infinity s => Some (if s then Gt else Lt)
  | S754_zero _ => Some (z ?= 0)
  | S754_finite s m e =>
      let v := if s then Z.neg m else Z.pos m in
      Some (if 0 <=? e then z ?= v * 2 ^ e else z * 2 ^ (- e) ?= v)
  end.

Definition int_ge_float (z : Z) (f : float) : bool :=
  match Z_compare_float z f with
  | Some Gt | Some Eq => true
  | _ => false
  end.

Definition int_lt_float (z : Z) (f : float) : bool :=
  match Z_compare_float z f with
  | Some Lt => true
  | _ => false
  end.

(** [a / b] on floats: [ZeroDivisionError] on a zero divisor of either
    sign, the IEEE quotient otherwise. *)
Definition float_div (a b : float) : res float :=
  if PrimFloat.eqb b 0%float then Raise ZeroDivisionError
  else Ok (PrimFloat.div a b).

(** A value that is an [int] or a [float] at run time. *)
Inductive num : Set :=
| PInt (z : Z)
| PFloat (f : float).

Definition to_float (n : num) : res float :=
  match n with
  | PInt z => float_of_Z z
  | PFloat f => Ok f
  end.

(** [i * n] for an [int] [i]. *)
Definition int_mul (i : Z) (n : num) : res num :=
  match n with
  | PInt z => Ok (PInt (i * z))
  | PFloat f => fi ← float_of_Z i ; Ok (PFloat (PrimFloat.mul fi f))
  end.

(** [a + b]. *)
Definition add (a b : num) : res num :=
  match a, b with
  | PInt x, PInt y => Ok (PInt (x + y))
  | _, _ =>
      fa ← to_float a ; fb ← to_float b ; Ok (PFloat (PrimFloat.add fa fb))
  end.

(** [n / 2**k] for a positive [int] divisor [2**k]: true division, always
    a [float]. On an [int] dividend the quotient is the correctly rounded
    value of [z * 2**-k]. *)
Definition div_pow2 (n : num) (k : Z) : res float :=
  match n with
  | PInt z =>
      match binary_normalize prec emax z (- k) false with
      | S754_infinity _ => Raise OverflowError
      | sf => Ok (SF2Prim sf)
      end
  | PFloat f => d ← float_of_Z (2 ^ k) ; float_div f d
  end.

End PyNum.

(** ** Strings *)

(** [a in b] on [str]: [a] occurs in [b] as a contiguous run. *)
Fixpoint is_substring (a b : string) : bool :=
  String.prefix a b ||
  match b with
  | EmptyString => false
  | String _ b' => is_substring a b'
  end.

(** [p.replace('\\', '/')]. *)
Fixpoint replace_backslash (p : string) : string :=
  match p with
  | EmptyString => EmptyString
  | String c p' =>
      String (if Ascii.eqb c "\"%char then "/"%char else c) (replace_backslash p')
  end.

(** The order of [sorted] on [str] keys: lexicographic on the characters. *)
Definition str_le (a b : string) : Prop := String.leb a b = true.

#[global] Instance str_le_dec a b : Decision (str_le a b).
Proof. unfold str_le. apply _. Defined.

(** ** Python [str] and [int] on text

    A [str] is a [string]; its characters stand for the code points 0 to
    255. *)

Module PyStr.

(** The line feed, ['\n']. *)
Definition LF : ascii := "010"%char.

(** [c.isspace()]: the characters [strip] takes off. *)
Definition isspace (c : ascii) : bool :=
  let n := Z.of_N (N_of_ascii c) in
  (9 <=? n) && (n <=? 13) || (28 <=? n) && (n <=? 32) || (n =? 133) || (n =? 160).

Fixpoint lstrip (s : string) : string :=
  match s with
  | EmptyString => EmptyString
  | String c s' => if isspace c then lstrip s' else s
  end.

Fixpoint rstrip (s : string) : string :=
  match s with
  | EmptyString => EmptyString
  | String c s' =>
      match rstrip s' with
      | EmptyString => if isspace c then EmptyString else String c EmptyString
      | r => String c r
      end
  end.

(** [s.strip()]. *)
Definition strip (s : string) : string := rstrip (lstrip s).

(** [s.replace(c, '')] for a one-character [c]. *)
Fixpoint remove_char (c : ascii) (s : string) : string :=
  match s with
  | EmptyString => EmptyString
  | String c' s' =>
      if Ascii.eqb c' c then remove_char c s' else String c' (remove_char c s')
  end.

(** [s.replace(old, new)] for a non-empty [old]: the occurrences of [old]
    from left to right, none overlapping another; [skip] counts the
    characters of an occurrence that are still to be passed. *)
Fixpoint replace_from (old new : string) (skip : nat) (s : string) : string :=
  match s with
  | EmptyString => EmptyString
  | String c s' =>
      match skip with
      | S skip' => replace_from old new skip' s'
      | O =>
          if String.prefix old s
          then new ++ replace_from old new (String.length old - 1) s'
          else String c (replace_from old new 0 s')
      end
  end.

Definition replace (old new s : string) : string := replace_from old new 0 s.

(** [s.split(sep)] for a one-character [sep]: never an empty list. *)
Fixpoint split (sep : ascii) (s : string) : list string :=
  match s with
  | EmptyString => [EmptyString]
  | String c s' =>
      if Ascii.eqb c sep then EmptyString :: split sep s'
      else match split sep s' with
           | piece :: pieces => String c piece :: pieces
           | [] => [String c EmptyString]
           end
  end.

(** [sep.join(l)]. *)
Definition join (sep : string) (l : list string) : string := String.concat sep l.

(** The decimal digit [d] as a character, and back. *)
Definition digit_char (d : Z) : ascii := ascii_of_N (Z.to_N (48 + d)).

Definition digit_of (c : ascii) : option Z :=
  let n := Z.of_N (N_of_ascii c) in
  if (48 <=? n) && (n <=? 57) then Some (n - 48) else None.

(** The decimal digits of [n >= 0] in front of [acc], the last one first;
    [fuel] bounds the number of digits after the first. *)
Fixpoint digits_of (fuel : nat) (n : Z) (acc : string) : string :=
  let acc' := String (digit_char (n mod 10)) acc in
  match fuel with
  | O => acc'
  | S fuel' => if n <? 10 then acc' else digits_of fuel' (n / 10) acc'
  end.

(** [str(z)] for an [int]: the decimal digits, after a minus sign when
    [z < 0]. A number below [2 ^ (k + 1)] has at most [k + 1] digits. The
    interpreter's limit on the digits of a conversion
    ([sys.set_int_max_str_digits], never below 640) is left out, here and
    in [to_int]. *)
Definition of_int (z : Z) : string :=
  if z <? 0 then String "-" (digits_of (Z.to_nat (Z.log2 (- z))) (- z) EmptyString)
  else digits_of (Z.to_nat (Z.log2 z)) z EmptyString.

(** The spaces [int] accepts around a number. *)
Definition int_space (c : ascii) : bool :=
  let n := Z.of_N (N_of_ascii c) in
  (9 <=? n) && (n <=? 13) || (n =? 32) || (n =? 133) || (n =? 160).

Fixpoint skip_spaces (s : string) : string :=
  match s with
  | EmptyString => EmptyString
  | String c s' => if int_space c then skip_spaces s' else s
  end.

(** The digits after the first one, with [acc] the value so far: a single
    underscore may stand between two digits. The result is the value and
    the text left, or [None] at a misplaced underscore. *)
Fixpoint int_digits (acc : Z) (s : string) : option (Z * string) :=
  match s with
  | EmptyString => Some (acc, EmptyString)
  | String c s' =>
      match digit_of c with
      | Some d => int_digits (10 * acc + d) s'
      | None =>
          if Ascii.eqb c "_" then
            match s' with
            | String c' _ =>
                match digit_of c' with
                | Some _ => int_digits acc s'
                | None => None
                end
            | EmptyString => None
            end
          else Some (acc, s)
      end
  end.

(** [int(s)] for a [str], base 10: spaces, an optional sign, digits,
    spaces; anything else is a [ValueError]. *)
Definition to_int (s : string) : res Z :=
  let s := skip_spaces s in
  let '(negative, s) :=
    match s with
    | String c s' =>
        if Ascii.eqb c "-" then (true, s')
        else if Ascii.eqb c "+" then (false, s')
        else (false, s)
    | EmptyString => (false, s)
    end in
  match s with
  | EmptyString => Raise ValueError
  | String c s' =>
      match digit_of c with
      | None => Raise ValueError
      | Some d =>
          match int_digits d s' with
          | None => Raise ValueError
          | Some (v, rest) =>
              match skip_spaces rest with
              | EmptyString => Ok (if negative then - v else v)
              | _ => Raise ValueError
              end
          end
      end
  end.

End PyStr.

(** ** bin_to_tiled.py: binary level to TMX *)

Module BinToTiled.

Definition TILE_SIZE : Z := 128.

Definition BINARY_READ_ORDER : list string :=
  [ "constructmap"; "constructmapedges"; "constructbackground";
    "constructbackground/backgroundfeatures"; "Map"; "Mapedges";
    "Mapbackground"; "paths"; "features"; "roofmap"; "foliage";
    "shards"; "watermap"; "cummap"; "spawnmarker";
    "destructiblefeatures"; "watermaptops" ].

Definition TYPE_AUTOTILE : Z := 1.
Definition TYPE_FLIP : Z := 2.
Definition TYPE_SIMPLE : Z := 3.

Definition LAYER_TYPES : gmap string Z :=
  list_to_map
    [ ("constructmap", TYPE_AUTOTILE); ("constructmapedges", TYPE_AUTOTILE);
      ("constructbackground", TYPE_AUTOTILE); ("Map", TYPE_AUTOTILE);
      ("Mapedges", TYPE_AUTOTILE); ("Mapbackground", TYPE_AUTOTILE);
      ("roofmap", TYPE_AUTOTILE); ("watermap", TYPE_AUTOTILE);
      ("constructbackground/backgroundfeatures", TYPE_FLIP);
      ("features", TYPE_FLIP); ("foliage", TYPE_FLIP); ("cummap", TYPE_FLIP);
      ("destructiblefeatures", TYPE_FLIP);
      ("paths", TYPE_SIMPLE); ("shards", TYPE_SIMPLE);
      ("spawnmarker", TYPE_SIMPLE); ("watermaptops", TYPE_SIMPLE) ].

Definition FLIPPED_HORIZONTALLY_FLAG : Z := 0x80000000.

Definition spawn_icon_path : string := "Tilemaps/newsandstone.png".

(** *** Classes *)

(** The numbers of a region and of a stride are [float]s when the resource
    file states them, and the [int] defaults [[0, 0, 128, 128]] and
    [[128, 128]] when it does not. *)
Record TileDefinition := {
  godot_id : Z;
  texture_path : string;
  region : PyNum.num * PyNum.num * PyNum.num * PyNum.num;
  stride : PyNum.num * PyNum.num;
  tile_mode : Z
}.

(** [tsx_name] is a file name derived from [rel_path]; the codec never
    reads it and it is left out. *)
Record ImageTileset := {
  rel_path : string;
  width : Z;
  height : Z;
  firstgid : Z;
  cols : Z;
  rows : Z
}.

(** [ImageTileset(rel_path)]. *)
Definition new_ImageTileset (p : string) : ImageTileset :=
  {| rel_path := p; width := 0; height := 0; firstgid := 0; cols := 0; rows := 0 |}.

(** *** Helpers *)

Definition get_grid_dim (pixels : Z) : Z :=
  if pixels <=? 0 then 0 else (pixels + TILE_SIZE - 1) / TILE_SIZE.

(** What [os.path.exists] and [get_image_dimensions] find at a path. *)
Inductive image_file : Set :=
| NoFile
| NotPng
| Png (w h : Z).

(** [create_tsx]: the fields it sets on the image tileset. The TSX file it
    writes is not part of the codec. *)
Definition create_tsx (fs : string -> image_file) (image_ts : ImageTileset)
  : ImageTileset :=
  match fs (rel_path image_ts) with
  | NoFile => image_ts
  | probe =>
      let '(w, h) := match probe with Png w h => (w, h) | _ => (128, 128) end in
      {| rel_path := rel_path image_ts; width := w; height := h;
         firstgid := firstgid image_ts;
         cols := get_grid_dim w; rows := get_grid_dim h |}
  end.

Definition set_firstgid (g : Z) (t : ImageTileset) : ImageTileset :=
  {| rel_path := rel_path t; width := width t; height := height t;
     firstgid := g; cols := cols t; rows := rows t |}.

(** *** Step 1 of [convert]: the definitions of every layer and the images
    they name *)

Definition LAYER_CONFIG : list (string * string) :=
  [ ("constructbackground", "Tilemaps/constructbackground.tres");
    ("constructbackground/backgroundfeatures", "Tilemaps/backgroundfeatures.tres");
    ("constructmap", "Tilemaps/constructmap.tres");
    ("constructmapedges", "Tilemaps/constructmapedges.tres");
    ("Map", "Tilemaps/map.tres");
    ("Mapedges", "Tilemaps/mapedges.tres");
    ("paths", "Tilemaps/paths.tres");
    ("features", "Tilemaps/features.tres");
    ("roofmap", "Tilemaps/roofmap.tres");
    ("foliage", "Tilemaps/foliage.tres");
    ("shards", "Tilemaps/shards.tres");
    ("watermap", "Tilemaps/water.tres");
    ("watermaptops", "Tilemaps/water.tres");
    ("cummap", "Tilemaps/cumtiles.tres");
    ("destructiblefeatures", "Tilemaps/isometrictiles.tres");
    ("Mapbackground", "USE_MAIN_TSCN");
    ("spawnmarker", "DIRECT_ICON_MAPPING") ].

(** [if p not in unique_images: unique_images[p] = ImageTileset(p)]. *)
Definition register_image (unique_images : gmap string ImageTileset) (p : string)
  : gmap string ImageTileset :=
  match unique_images !! p with
  | Some _ => unique_images
  | None => <[p := new_ImageTileset p]> unique_images
  end.

(** [for t_def in defs.values(): ...]. The images are registered under
    their own path, so the order of the definitions does not show in the
    result. *)
Definition register_defs (unique_images : gmap string ImageTileset)
    (defs : gmap Z TileDefinition) : gmap string ImageTileset :=
  foldl register_image unique_images
        ((fun kv => texture_path (snd kv)) <$> map_to_list defs).

Section Scan.
(** The parsers of the resource files are outside the codec: [tscn_defs]
    is what [parse_tscn_subresource(TSCN_PATH, 16)] returns and
    [tres_defs f] what [parse_tres_for_tile_defs(f)] returns. *)
Variable tscn_defs : gmap Z TileDefinition.
Variable tres_defs : string -> gmap Z TileDefinition.

Definition scan_layer
    (acc : gmap string (gmap Z TileDefinition) * gmap string ImageTileset)
    (entry : string * string)
  : gmap string (gmap Z TileDefinition) * gmap string ImageTileset :=
  let '(layer_tile_definitions, unique_images) := acc in
  let '(layer, tres_file) := entry in
  if String.eqb tres_file "USE_MAIN_TSCN" || String.eqb tres_file "DIRECT_ICON_MAPPING"
  then acc
  else
    match layer_tile_definitions !! layer with
    | Some _ => acc
    | None =>
        let defs := tres_defs tres_file in
        (<[layer := defs]> layer_tile_definitions, register_defs unique_images defs)
    end.

Definition scan_tres
  : gmap string (gmap Z TileDefinition) * gmap string ImageTileset :=
  let layer_tile_definitions := <["Mapbackground" := tscn_defs]> ∅ in
  let unique_images := register_defs ∅ tscn_defs in
  let unique_images := register_image unique_images spawn_icon_path in
  foldl scan_layer (layer_tile_definitions, unique_images) LAYER_CONFIG.
End Scan.

(** *** Step 2 of [convert]: a GID range for every image *)

(** [sorted(unique_images.keys())]. *)
Definition sorted_img_paths (unique_images : gmap string ImageTileset) : list string :=
  merge_sort str_le (map_to_list unique_images).*1.

(** The loop [for path in sorted_img_paths], from [current_firstgid]. Every
    path is a key of [unique_images], so the lookup never misses. *)
Fixpoint generate_tilesets (fs : string -> image_file) (paths : list string)
    (unique_images : gmap string ImageTileset) (current_firstgid : Z)
  : gmap string ImageTileset :=
  match paths with
  | [] => unique_images
  | path :: paths' =>
      match unique_images !! path with
      | Some img_ts =>
          let img_ts := create_tsx fs (set_firstgid current_firstgid img_ts) in
          let count := cols img_ts * rows img_ts in
          generate_tilesets fs paths' (<[path := img_ts]> unique_images)
                            (current_firstgid + count)
      | None => unique_images
      end
  end.

Definition assign_gids (fs : string -> image_file)
    (unique_images : gmap string ImageTileset) : gmap string ImageTileset :=
  generate_tilesets fs (sorted_img_paths unique_images) unique_images 1.

(** The atlas entries in the order step 4 writes them to the TMX:
    [for path in sorted_img_paths: ts = unique_images[path]]. *)
Definition atlas_entries (fs : string -> image_file)
    (unique_images : gmap string ImageTileset) : list ImageTileset :=
  omap (fun path => assign_gids fs unique_images !! path)
       (sorted_img_paths unique_images).

(** The GIDs of an atlas entry: [firstgid, firstgid + cols * rows). *)
Definition in_gid_range (t : ImageTileset) (g : Z) : Prop :=
  firstgid t <= g < firstgid t + cols t * rows t.

(** *** Step 3 of [convert]: the binary level *)

(** The cursor [ptr] into [bin_data], and the lines [get8] prints. *)
Record reader := { ptr : nat; stdout : list string }.

(** A computation that reads from the stream and may raise. *)
Definition M (A : Type) : Type := reader -> res (A * reader).

#[global] Instance M_ret : MRet M := fun A a st => Ok (a, st).
#[global] Instance M_bind : MBind M := fun A B k m st =>
  match m st with
  | Ok (a, st') => k a st'
  | Raise e => Raise e
  end.

Definition lift {A} (r : res A) : M A := fun st =>
  match r with
  | Ok a => Ok (a, st)
  | Raise e => Raise e
  end.

(** [for _ in range(n)] collecting the value of each turn. *)
Fixpoint repeatM {A} (n : nat) (m : M A) : M (list A) :=
  match n with
  | O => mret []
  | S n' => a ← m ; l ← repeatM n' m ; mret (a :: l)
  end.

Definition OVERFLOW_MSG : string := "OVERFLOW PTR !!".

Definition byte_val (b : Byte.byte) : Z := Z.of_N (Byte.to_N b).

Section Decode.
Variable bin_data : list Byte.byte.
Variable unique_images : gmap string ImageTileset.

Definition get8 : M Z := fun st =>
  match bin_data !! ptr st with
  | None => Ok (0, {| ptr := ptr st; stdout := stdout st ++ [OVERFLOW_MSG] |})
  | Some val => Ok (byte_val val, {| ptr := S (ptr st); stdout := stdout st |})
  end.

(** Lines 365-394: the GID of a cell once its bytes are read. *)
Definition cell_gid (layer_name : string) (tile_defs : gmap Z TileDefinition)
    (tile_id auto_x auto_y : Z) (flip : bool) : res Z :=
  if 0 <=? tile_id then
    if String.eqb layer_name "spawnmarker" then
      match unique_images !! spawn_icon_path with
      | Some img_ts =>
          let local_id := tile_id in
          if local_id <? cols img_ts * rows img_ts
          then Ok (firstgid img_ts + local_id)
          else Ok (firstgid img_ts)
      | None => Ok 0
      end
    else
      match tile_defs !! tile_id with
      | Some t_def =>
          match unique_images !! texture_path t_def with
          | Some img_ts =>
              let '(rx, ry, _, _) := region t_def in
              let '(sw, sh) := stride t_def in
              pixel_x ← (if 0 <? tile_mode t_def
                         then d ← PyNum.int_mul auto_x sw ; PyNum.add rx d
                         else Ok rx) ;
              pixel_y ← (if 0 <? tile_mode t_def
                         then d ← PyNum.int_mul auto_y sh ; PyNum.add ry d
                         else Ok ry) ;
              qx ← PyNum.div_pow2 pixel_x 7 ;
              grid_x ← PyNum.round qx ;
              qy ← PyNum.div_pow2 pixel_y 7 ;
              grid_y ← PyNum.round qy ;
              if (grid_x <? cols img_ts) && (grid_y <? rows img_ts) then
                let local_id := grid_x + grid_y * cols img_ts in
                let final_gid := firstgid img_ts + local_id in
                Ok (if flip then Z.lor final_gid FLIPPED_HORIZONTALLY_FLAG
                    else final_gid)
              else Ok 0
          | None => Ok 0
          end
      | None => Ok 0
      end
  else Ok 0.

(** Lines 349-396: one turn of the inner loop. *)
Definition read_cell (layer_name : string) (parse_type : Z)
    (tile_defs : gmap Z TileDefinition) : M Z :=
  val ← get8 ;
  let tile_id := val - 1 in
  aux ← (if parse_type =? TYPE_AUTOTILE then
           auto_x ← get8 ; auto_y ← get8 ; mret (auto_x, auto_y, false)
         else if parse_type =? TYPE_FLIP then
           f ← get8 ; mret (0, 0, f =? 1)
         else mret (0, 0, false)) ;
  let '(auto_x, auto_y, flip) := aux in
  lift (cell_gid layer_name tile_defs tile_id auto_x auto_y flip).

(** [layer_gids]: a list of [width] columns of [height] GIDs. *)
Definition read_layer (width height : Z) (layer_name : string)
    (parse_type : Z) (tile_defs : gmap Z TileDefinition) : M (list (list Z)) :=
  repeatM (Z.to_nat width)
          (repeatM (Z.to_nat height) (read_cell layer_name parse_type tile_defs)).

(** [layer_gids[x][y]]. *)
Definition gid_at (layer_gids : list (list Z)) (x y : nat) : Z :=
  nth y (nth x layer_gids []) 0.

(** [tiled_csv_lines], before the numbers are printed: row [y] lists
    [layer_gids[x][y]] for [x] in [range(width)]. *)
Definition tiled_rows (width height : Z) (layer_gids : list (list Z))
  : list (list Z) :=
  map (fun y => map (fun x => gid_at layer_gids x y) (seq 0 (Z.to_nat width)))
      (seq 0 (Z.to_nat height)).

Variable layer_tile_definitions : gmap string (gmap Z TileDefinition).

(** The body of [for layer_name in BINARY_READ_ORDER]. *)
Definition parse_layer (width height : Z) (layer_name : string)
  : M (list (list Z)) :=
  let parse_type := default TYPE_SIMPLE (LAYER_TYPES !! layer_name) in
  let tile_defs := default ∅ (layer_tile_definitions !! layer_name) in
  layer_gids ← read_layer width height layer_name parse_type tile_defs ;
  mret (tiled_rows width height layer_gids).

Fixpoint parse_layers (width height : Z) (names : list string)
    (parsed_layers : gmap string (list (list Z)))
  : M (gmap string (list (list Z))) :=
  match names with
  | [] => mret parsed_layers
  | layer_name :: names' =>
      rows ← parse_layer width height layer_name ;
      parse_layers width height names' (<[layer_name := rows]> parsed_layers)
  end.

(** Step 3 as a whole: the level size and the rows of every layer. *)
Definition parse_binary : M (Z * Z * gmap string (list (list Z))) :=
  width ← get8 ;
  height ← get8 ;
  parsed_layers ← parse_layers width height BINARY_READ_ORDER ∅ ;
  mret (width, height, parsed_layers).
End Decode.

(** The flat GID array of a layer in the TMX: its rows one after another. *)
Definition flat_gids (rows : list (list Z)) : list Z := concat rows.

(** [convert], steps 1 to 3, from the parsed resources, the image files and
    the bytes of the level. *)
Definition convert (tscn_defs : gmap Z TileDefinition)
    (tres_defs : string -> gmap Z TileDefinition)
    (fs : string -> image_file) (bin_data : list Byte.byte)
  : res (Z * Z * gmap string (list (list Z)) * reader) :=
  let '(layer_tile_definitions, unique_images) := scan_tres tscn_defs tres_defs in
  let unique_images := assign_gids fs unique_images in
  match parse_binary bin_data unique_images layer_tile_definitions
                     {| ptr := 0; stdout := [] |} with
  | Ok (w, h, parsed_layers, st) => Ok (w, h, parsed_layers, st)
  | Raise e => Raise e
  end.

(** *** [get_image_dimensions] *)

(** [b'\x89PNG\r\n\x1a\n'] and [b'IHDR']. *)
Definition PNG_SIGNATURE : list Byte.byte :=
  [Byte.x89; Byte.x50; Byte.x4e; Byte.x47; Byte.x0d; Byte.x0a; Byte.x1a; Byte.x0a].

Definition IHDR : list Byte.byte := [Byte.x49; Byte.x48; Byte.x44; Byte.x52].

(** [a == b] on [bytes]. *)
Fixpoint bytes_eqb (a b : list Byte.byte) : bool :=
  match a, b with
  | [], [] => true
  | x :: a', y :: b' => Byte.eqb x y && bytes_eqb a' b'
  | _, _ => false
  end.

(** [data[a:b]] for [0 <= a <= b]: shorter than [b - a] at the end of
    [data]. *)
Definition slice (a b : nat) (data : list Byte.byte) : list Byte.byte :=
  take (b - a) (drop a data).

(** [data.find(sub)] on a [data] that starts at position [i]: the first
    position at which [sub] occurs, [None] for the result -1. *)
Fixpoint find (sub data : list Byte.byte) (i : nat) : option nat :=
  if bytes_eqb (take (length sub) data) sub then Some i
  else match data with
       | [] => None
       | _ :: data' => find sub data' (S i)
       end.

(** [struct.unpack('>I', buf)[0]]: four bytes, the first the most
    significant; any other length is a [struct.error]. *)
Definition unpack_I (buf : list Byte.byte) : res Z :=
  match buf with
  | [b0; b1; b2; b3] =>
      Ok (((byte_val b0 * 256 + byte_val b1) * 256 + byte_val b2) * 256 + byte_val b3)
  | _ => Raise StructError
  end.

(** [get_image_dimensions], on the content of the file at [path], or [None]
    when there is no such file. The result [None] stands for the pair
    [(None, None)]. *)
Definition get_image_dimensions (file : option (list Byte.byte))
  : res (option (Z * Z)) :=
  match file with
  | None => Ok None
  | Some content =>
      let data := take 30 content in
      if negb (bytes_eqb (slice 0 8 data) PNG_SIGNATURE) then Ok None
      else match find IHDR data 0 with
           | None => Ok None
           | Some ihdr_start =>
               let w_start := (ihdr_start + 4)%nat in
               let h_start := (w_start + 4)%nat in
               w ← unpack_I (slice w_start (w_start + 4) data) ;
               h ← unpack_I (slice h_start (h_start + 4) data) ;
               Ok (Some (w, h))
           end
  end.

(** *** Step 4 of [convert]: the layers of the TMX *)

Definition VISUAL_ORDER : list string :=
  [ "Mapbackground"; "constructbackground"; "limitrock"; "Mapedges";
    "constructmapedges";
    "CanvasLayer/ParallaxBackground/treesback/TileMap";
    "CanvasLayer/ParallaxBackground/treesfront/TileMap";
    "constructbackground/backgroundfeatures";
    "foliage";
    "constructmap"; "paths"; "features"; "destructiblefeatures"; "roofmap";
    "shards"; "cummap";
    "CanvasLayer3/fogofwar"; "watermap"; "Map"; "watermaptops"; "limitfog";
    "Previewgrid"; "spawnmarker" ].

(** Lines 399-403: the CSV of a layer, [",\n".join] of the rows, each row
    the [",".join] of its numbers printed by [str]. *)
Definition csv_text (rows : list (list Z)) : string :=
  PyStr.join (String "," (String PyStr.LF EmptyString))
    (map (fun row => PyStr.join "," (map PyStr.of_int row)) rows).

(** Line 437: the text of the [data] node. *)
Definition data_text (rows : list (list Z)) : string :=
  String PyStr.LF (csv_text rows ++ String PyStr.LF EmptyString).

(** A [layer] node: its attributes [id], [name], [width], [height] and the
    text of its [data] child. *)
Record layer_node := {
  node_id : Z;
  node_name : string;
  node_width : Z;
  node_height : Z;
  node_text : string
}.

(** The loop [for layer_name in VISUAL_ORDER] from the counter [lid]. *)
Fixpoint layer_nodes (parsed_layers : gmap string (list (list Z)))
    (width height : Z) (names : list string) (lid : Z) : list layer_node :=
  match names with
  | [] => []
  | layer_name :: names' =>
      match parsed_layers !! layer_name with
      | None => layer_nodes parsed_layers width height names' lid
      | Some rows =>
          {| node_id := lid; node_name := layer_name;
             node_width := width; node_height := height;
             node_text := data_text rows |}
          :: layer_nodes parsed_layers width height names' (lid + 1)
      end
  end.

(** The [layer] nodes of the TMX, in document order. *)
Definition tmx_layer_nodes (parsed_layers : gmap string (list (list Z)))
    (width height : Z) : list layer_node :=
  layer_nodes parsed_layers width height VISUAL_ORDER 1.

End BinToTiled.

(** ** tiled_to_bin.py: TMX to binary level *)

Module TiledToBin.

Definition TILE_SIZE : Z := 128.

Definition BINARY_WRITE_ORDER : list string :=
  [ "constructmap"; "constructmapedges"; "constructbackground";
    "constructbackground/backgroundfeatures"; "Map"; "Mapedges";
    "Mapbackground"; "paths"; "features"; "roofmap"; "foliage";
    "shards"; "watermap"; "cummap"; "spawnmarker";
    "destructiblefeatures"; "watermaptops" ].

Definition TYPE_AUTOTILE : Z := 1.
Definition TYPE_FLIP : Z := 2.
Definition TYPE_SIMPLE : Z := 3.

Definition LAYER_TYPES : gmap string Z :=
  list_to_map
    [ ("constructmap", TYPE_AUTOTILE); ("constructmapedges", TYPE_AUTOTILE);
      ("constructbackground", TYPE_AUTOTILE); ("Map", TYPE_AUTOTILE);
      ("Mapedges", TYPE_AUTOTILE); ("Mapbackground", TYPE_AUTOTILE);
      ("roofmap", TYPE_AUTOTILE); ("watermap", TYPE_AUTOTILE);
      ("constructbackground/backgroundfeatures", TYPE_FLIP);
      ("features", TYPE_FLIP); ("foliage", TYPE_FLIP); ("cummap", TYPE_FLIP);
      ("destructiblefeatures", TYPE_FLIP);
      ("paths", TYPE_SIMPLE); ("shards", TYPE_SIMPLE);
      ("spawnmarker", TYPE_SIMPLE); ("watermaptops", TYPE_SIMPLE) ].

Definition FLIPPED_HORIZONTALLY_FLAG : Z := 0x80000000.
Definition GID_MASK : Z := 0x1FFFFFFF.

(** *** Classes *)

(** Every number of a definition is a [float] here: the parser builds the
    region and the stride with [float(...)], defaults included. *)
Record TileDefinition := {
  godot_id : Z;
  texture_path : string;
  region : float * float * float * float;
  stride : float * float
}.

(** [source_tsx] is only the argument of [parse_tsx], whose result is
    [image_path] and [columns]. *)
Record TilesetInfo := {
  firstgid : Z;
  image_path : option string;
  columns : Z
}.

(** *** The order of the definitions of a layer *)

Section Parse.
(** [parse_tile_definitions_from_string] collects the ids of the
    [N/name] lines into a [set] of strings and, in the order the set is
    iterated, builds a definition for each id string that it does not
    skip. [found] is what [re.findall] returns, in source order;
    [set_order] is the iteration order of the resulting set, which the
    language leaves open (it follows the hashes of the strings, salted per
    run); [int_of] is [int] on an id string; [define tid] is the definition
    the searches for the number [tid] produce, or [None] when the loop
    skips it (no texture line, or a texture that is not a known
    resource). *)
Variable set_order : list string -> list string.
Variable int_of : string -> Z.
Variable define : Z -> option TileDefinition.

Definition parse_tile_definitions_from_string (found : list string)
  : list TileDefinition :=
  omap (fun tid => define (int_of tid)) (set_order found).
End Parse.

(** What a set built from [found] may iterate as: every distinct string
    once. *)
Definition set_iteration (set_order : list string -> list string) : Prop :=
  forall found, NoDup (set_order found) /\
                forall s, s ∈ set_order found <-> s ∈ found.

(** *** The reverse lookup *)

(** The tolerance [0.1] of the region test, as the binary64 it denotes. *)
Definition EPS : float := 0x1.999999999999ap-4%float.

(** The path test of line 113: true when the definition is to be tried. *)
Definition path_matches (texture_path : option string) (definition : TileDefinition)
  : bool :=
  match texture_path with
  | Some p =>
      if String.eqb p "" then true
      else is_substring (TiledToBin.texture_path definition) p
           || is_substring p (TiledToBin.texture_path definition)
  | None => true
  end.

(** The region test of lines 117-118. *)
Definition in_region (definition : TileDefinition) (pixel_x pixel_y : Z) : bool :=
  let '(rx, ry, rw, rh) := region definition in
  PyNum.int_ge_float pixel_x (rx - EPS)%float
  && PyNum.int_lt_float pixel_x (rx + rw - EPS)%float
  && PyNum.int_ge_float pixel_y (ry - EPS)%float
  && PyNum.int_lt_float pixel_y (ry + rh - EPS)%float.

(** Lines 119-123, on the definition that matched. *)
Definition tile_of (definition : TileDefinition) (pixel_x pixel_y : Z)
  : res (option Z * Z * Z) :=
  let '(rx, ry, _, _) := region definition in
  let '(sw, sh) := stride definition in
  fx ← PyNum.float_of_Z pixel_x ;
  let offset_x := (fx - rx)%float in
  fy ← PyNum.float_of_Z pixel_y ;
  let offset_y := (fy - ry)%float in
  qx ← PyNum.float_div offset_x sw ;
  auto_x ← PyNum.round qx ;
  qy ← PyNum.float_div offset_y sh ;
  auto_y ← PyNum.round qy ;
  Ok (Some (godot_id definition), auto_x, auto_y).

(** The loop [for definition in layer_defs]. *)
Fixpoint search_defs (layer_defs : list TileDefinition) (texture_path : option string)
    (pixel_x pixel_y : Z) : res (option Z * Z * Z) :=
  match layer_defs with
  | [] => Ok (None, 0, 0)
  | definition :: layer_defs' =>
      if path_matches texture_path definition && in_region definition pixel_x pixel_y
      then tile_of definition pixel_x pixel_y
      else search_defs layer_defs' texture_path pixel_x pixel_y
  end.

Definition get_godot_tile_from_pixel (layer_defs : list TileDefinition)
    (texture_path : option string) (pixel_x pixel_y : Z)
  : res (option Z * Z * Z) :=
  let texture_path :=
    match texture_path with
    | Some p => if String.eqb p "" then Some p else Some (replace_backslash p)
    | None => None
    end in
  search_defs layer_defs texture_path pixel_x pixel_y.

(** *** [convert_tmx_to_bin] *)

(** [tilesets.sort(key=lambda x: x.firstgid, reverse=True)]: descending,
    and stable (equal keys keep their order). *)
Fixpoint insert_desc (ts : TilesetInfo) (l : list TilesetInfo) : list TilesetInfo :=
  match l with
  | [] => [ts]
  | ts' :: l' =>
      if firstgid ts' <=? firstgid ts then ts :: l else ts' :: insert_desc ts l'
  end.

Definition sort_desc (tilesets : list TilesetInfo) : list TilesetInfo :=
  foldr insert_desc [] tilesets.

(** [grid[x][y] = raw_gid]. *)
Definition grid_set (grid : list (list Z)) (x y : nat) (raw_gid : Z) : list (list Z) :=
  match grid !! x with
  | Some col => <[x := <[y := raw_gid]> col]> grid
  | None => grid
  end.

(** [grid[x][y]]. *)
Definition grid_get (grid : list (list Z)) (x y : nat) : Z :=
  nth y (nth x grid []) 0.

(** The loop [for i, raw_gid in enumerate(gids)], from index [i]. *)
Fixpoint fill_grid (map_width map_height : Z) (i : Z) (gids : list Z)
    (grid : list (list Z)) : res (list (list Z)) :=
  match gids with
  | [] => Ok grid
  | raw_gid :: gids' =>
      if map_width =? 0 then Raise ZeroDivisionError
      else
        let x := i mod map_width in
        let y := i / map_width in
        let grid :=
          if (x <? map_width) && (y <? map_height)
          then grid_set grid (Z.to_nat x) (Z.to_nat y) raw_gid
          else grid in
        fill_grid map_width map_height (i + 1) gids' grid
  end.

(** The grid of one layer: [map_width] columns of [map_height] zeros, then
    the cells of [gids]. *)
Definition layer_grid (map_width map_height : Z) (gids : list Z)
  : res (list (list Z)) :=
  fill_grid map_width map_height 0 gids
            (replicate (Z.to_nat map_width) (replicate (Z.to_nat map_height) 0)).

(** The loop [for layer in root.findall("layer")] filling [tmx_layers]. *)
Fixpoint read_layers (map_width map_height : Z) (layers : list (string * list Z))
    (tmx_layers : gmap string (list (list Z))) : res (gmap string (list (list Z))) :=
  match layers with
  | [] => Ok tmx_layers
  | (name, gids) :: layers' =>
      grid ← layer_grid map_width map_height gids ;
      read_layers map_width map_height layers' (<[name := grid]> tmx_layers)
  end.

(** [struct.pack('B', v)]. *)
Definition pack_B (v : Z) : res Byte.byte :=
  if (0 <=? v) && (v <=? 255) then
    match Byte.of_N (Z.to_N v) with
    | Some b => Ok b
    | None => Raise StructError
    end
  else Raise StructError.

Definition flipped (raw_gid : Z) : bool :=
  negb (Z.land raw_gid FLIPPED_HORIZONTALLY_FLAG =? 0).

(** Lines 206-209: the first tileset, in descending [firstgid], that starts
    at or below [gid]. *)
Definition target_tileset (tilesets : list TilesetInfo) (gid : Z) : option TilesetInfo :=
  List.find (fun ts => firstgid ts <=? gid) tilesets.

(** Lines 220-221. *)
Definition img_grid (target_ts : TilesetInfo) (local_id : Z) : Z * Z :=
  (if 0 <? columns target_ts then local_id mod columns target_ts else 0,
   if 0 <? columns target_ts then local_id / columns target_ts else 0).

(** Lines 200-241: [final_id], [auto_x] and [auto_y] of a masked GID. *)
Definition resolve (layer_name : string) (defs : list TileDefinition)
    (tilesets : list TilesetInfo) (gid : Z) : res (Z * Z * Z) :=
  if 0 <? gid then
    match target_tileset tilesets gid with
    | Some target_ts =>
        let local_id := gid - firstgid target_ts in
        if String.eqb layer_name "spawnmarker" then Ok (local_id + 1, 0, 0)
        else
          let '(img_grid_x, img_grid_y) := img_grid target_ts local_id in
          let pixel_x := img_grid_x * TILE_SIZE in
          let pixel_y := img_grid_y * TILE_SIZE in
          r ← get_godot_tile_from_pixel defs (image_path target_ts) pixel_x pixel_y ;
          match r with
          | (Some godot_id, ax, ay) => Ok (godot_id + 1, ax, ay)
          | (None, _, _) =>
              if String.eqb layer_name "Mapbackground" then
                match defs with
                | d :: _ => Ok (TiledToBin.godot_id d + 1, img_grid_x, img_grid_y)
                | [] => Ok (0, 0, 0)
                end
              else Ok (0, 0, 0)
          end
    | None => Ok (0, 0, 0)
    end
  else Ok (0, 0, 0).

(** Lines 243-248: the bytes written for one cell. *)
Definition write_cell (layer_type : Z) (final_id auto_x auto_y : Z) (flipped_h : bool)
  : res (list Byte.byte) :=
  b0 ← pack_B final_id ;
  if layer_type =? TYPE_AUTOTILE then
    b1 ← pack_B auto_x ; b2 ← pack_B auto_y ; Ok [b0; b1; b2]
  else if layer_type =? TYPE_FLIP then
    b1 ← pack_B (if flipped_h then 1 else 0) ; Ok [b0; b1]
  else Ok [b0].

(** Lines 196-248: one turn of the inner loop, on the raw GID of the cell. *)
Definition encode_cell (layer_name : string) (layer_type : Z)
    (defs : list TileDefinition) (tilesets : list TilesetInfo) (raw_gid : Z)
  : res (list Byte.byte) :=
  let flipped_h := flipped raw_gid in
  let gid := Z.land raw_gid GID_MASK in
  r ← resolve layer_name defs tilesets gid ;
  let '(final_id, auto_x, auto_y) := r in
  write_cell layer_type final_id auto_x auto_y flipped_h.

(** [mapM] on [res]: the turns of a loop, stopping at the first raise. *)
Fixpoint for_each {A B} (f : A -> res B) (l : list A) : res (list B) :=
  match l with
  | [] => Ok []
  | a :: l' => b ← f a ; bs ← for_each f l' ; Ok (b :: bs)
  end.

(** [range(n)]. *)
Definition range (n : Z) : list nat := seq 0 (Z.to_nat n).

(** [grid[x][y] if grid else 0]: a missing layer, or an empty grid, reads
    as zero. *)
Definition raw_gid_at (grid : option (list (list Z))) (x y : nat) : Z :=
  match grid with
  | Some (c :: g) => grid_get (c :: g) x y
  | _ => 0
  end.

(** The cells of one layer in the order they are written: for [x], for
    [y]. *)
Definition layer_cells (map_width map_height : Z) (layer_name : string)
    (layer_type : Z) (grid : option (list (list Z)))
    (defs : list TileDefinition) (tilesets : list TilesetInfo)
  : res (list (list Byte.byte)) :=
  cols ← for_each
    (fun x => for_each
       (fun y => encode_cell layer_name layer_type defs tilesets (raw_gid_at grid x y))
       (range map_height))
    (range map_width) ;
  Ok (concat cols).

Record tmx := {
  map_width : Z;
  map_height : Z;
  (** the [tileset] nodes in document order, after [parse_tsx] *)
  tmx_tilesets : list TilesetInfo;
  (** the [layer] nodes in document order: name and parsed CSV *)
  tmx_layers_src : list (string * list Z)
}.

Section Convert.
(** [layer_definitions], the result of the resource parsers. *)
Variable layer_definitions : gmap string (list TileDefinition).

(** The body of [for layer_name in BINARY_WRITE_ORDER]. *)
Definition write_layer (map_width map_height : Z) (tilesets : list TilesetInfo)
    (tmx_layers : gmap string (list (list Z))) (layer_name : string)
  : res (list Byte.byte) :=
  let layer_type := default TYPE_SIMPLE (LAYER_TYPES !! layer_name) in
  let grid := tmx_layers !! layer_name in
  let defs := default [] (layer_definitions !! layer_name) in
  cells ← layer_cells map_width map_height layer_name layer_type grid defs tilesets ;
  Ok (concat cells).

(** The bytes of the [.bin] file of a run that returns, or the exception
    that ends the run (the file then holds only the bytes written before
    it). *)
Definition convert_tmx_to_bin (t : tmx) : res (list Byte.byte) :=
  let tilesets := sort_desc (tmx_tilesets t) in
  tmx_layers ← read_layers (map_width t) (map_height t) (tmx_layers_src t) ∅ ;
  bw ← pack_B (map_width t) ;
  bh ← pack_B (map_height t) ;
  body ← for_each (write_layer (map_width t) (map_height t) tilesets tmx_layers)
                  BINARY_WRITE_ORDER ;
  Ok ([bw; bh] ++ concat body ++ [Byte.x00])%list.
End Convert.

(** *** The text of a [data] node *)

(** Lines 163-164: [text.strip()], then
    [[int(x) for x in text.replace('\n', '').split(',')]]. *)
Definition parse_gids (text : string) : res (list Z) :=
  let text := PyStr.strip text in
  for_each PyStr.to_int (PyStr.split "," (PyStr.remove_char PyStr.LF text)).

(** *** [parse_tsx] *)

(** What [parse_tsx] finds at a path: no file, a tileset without [image]
    node, or a tileset whose image has the attribute [source] and whose
    attributes [width] and [columns] read as the given numbers. *)
Inductive tsx_file : Set :=
| NoTsx
| NoImage
| Tsx (source : string) (width columns : Z).

Section ParseTsx.
(** [os.path.normpath]. *)
Variable normpath : string -> string.

Definition parse_tsx (file : tsx_file) : option string * Z :=
  match file with
  | NoTsx | NoImage => (None, 0)
  | Tsx source width columns =>
      let clean_source := replace_backslash (normpath source) in
      let columns :=
        if columns =? 0 then (width + TILE_SIZE - 1) / TILE_SIZE else columns in
      (Some clean_source, columns)
  end.

(** Lines 150-156: the [TilesetInfo] of a [tileset] node. *)
Definition tileset_info (firstgid : Z) (file : tsx_file) : TilesetInfo :=
  let '(img_path, cols) := parse_tsx file in
  {| firstgid := firstgid; image_path := img_path; columns := cols |}.
End ParseTsx.

(** Line 182: the path of the file that is written. *)
Definition output_bin (tmx_path : string) : string :=
  PyStr.replace ".tmx" ".bin" tmx_path.

End TiledToBin.

(** ** Derived notions used by the statements *)

(** The auxiliary bytes that follow the tile index for an encoding type. *)
Definition aux_bytes (layer_type : Z) : nat :=
  if layer_type =? TiledToBin.TYPE_AUTOTILE then 2%nat
  else if layer_type =? TiledToBin.TYPE_FLIP then 1%nat
  else 0%nat.

(** The path the reverse lookup compares with: line 111. *)
Definition normalised (texture_path : option string) : option string :=
  match texture_path with
  | Some p => if String.eqb p "" then Some p else Some (replace_backslash p)
  | None => None
  end.

(** A definition the reverse lookup accepts for a pixel: its atlas path
    matches and its region contains the pixel. *)
Definition candidate (texture_path : option string) (d : TiledToBin.TileDefinition)
    (pixel_x pixel_y : Z) : bool :=
  TiledToBin.path_matches (normalised texture_path) d
  && TiledToBin.in_region d pixel_x pixel_y.

(** The bytes of one cell of a layer in the binary format. *)
Definition bytes_per_cell (layer_name : string) : nat :=
  S (aux_bytes (default TiledToBin.TYPE_SIMPLE (TiledToBin.LAYER_TYPES !! layer_name))).

(** The empty cell of an encoding type. *)
Definition empty_cell (layer_type : Z) : list Byte.byte :=
  Byte.x00 :: replicate (aux_bytes layer_type) Byte.x00.

(** A grid of [w] columns of [h] cells. *)
Definition shaped (w h : nat) (grid : list (list Z)) : Prop :=
  length grid = w /\ Forall (fun col => length col = h) grid.

(** Every image of the map is as [ImageTileset(path)] left it. *)
Definition fresh_images (unique_images : gmap string BinToTiled.ImageTileset) : Prop :=
  forall p t, unique_images !! p = Some t -> t = BinToTiled.new_ImageTileset p.

(** The entries the loop of step 2 produces for a list of paths, from
    [current_firstgid]. *)
Fixpoint assigned (fs : string -> BinToTiled.image_file) (paths : list string)
    (current_firstgid : Z) : list BinToTiled.ImageTileset :=
  match paths with
  | [] => []
  | path :: paths' =>
      let img_ts :=
        BinToTiled.create_tsx fs
          (BinToTiled.set_firstgid current_firstgid (BinToTiled.new_ImageTileset path)) in
      img_ts :: assigned fs paths'
                  (current_firstgid + BinToTiled.cols img_ts * BinToTiled.rows img_ts)
  end.

(** The reader went from [before] to [after] through [k] calls of [get8] on
    a stream of [len] bytes: the cursor stops at the end of the stream and
    every call past the end printed one line. *)
Definition advanced (len : nat) (before after : BinToTiled.reader) (k : nat) : Prop :=
  BinToTiled.ptr after = Nat.min (BinToTiled.ptr before + k) len
  /\ BinToTiled.stdout after
     = (BinToTiled.stdout before
        ++ replicate (BinToTiled.ptr before + k - BinToTiled.ptr after)
                     BinToTiled.OVERFLOW_MSG)%list.

(** A computation that calls [get8] exactly [k] times whenever it returns. *)
Definition reads {A} (len : nat) (m : BinToTiled.M A) (k : nat) : Prop :=
  forall st a st',
    (BinToTiled.ptr st <= len)%nat -> m st = Ok (a, st') -> advanced len st st' k.

(** A computation that, once the stream is exhausted, returns [z] after
    printing [k] lines, without moving the cursor. *)
Definition drained {A} (len : nat) (m : BinToTiled.M A) (z : A) (k : nat) : Prop :=
  forall st, (len <= BinToTiled.ptr st)%nat ->
    m st = Ok (z, {| BinToTiled.ptr := BinToTiled.ptr st;
                     BinToTiled.stdout :=
                       (BinToTiled.stdout st
                        ++ replicate k BinToTiled.OVERFLOW_MSG)%list |}).

(** The bytes a level of [w] by [h] cells holds: two for the size and 38 per
    cell position (8 layers of 3 bytes, 5 of 2, 4 of 1). *)
Definition expected_size (w h : Z) : nat := (2 + 38 * (Z.to_nat w * Z.to_nat h))%nat.

(** The cell of a FLIP layer with its flip byte inverted. *)
Definition toggle_flip (cell : list Byte.byte) : list Byte.byte :=
  match cell with
  | [b0; b1] => [b0; if Byte.eqb b1 Byte.x00 then Byte.x01 else Byte.x00]
  | _ => cell
  end.

Definition res_map {A B} (f : A -> B) (r : res A) : res B :=
  match r with
  | Ok a => Ok (f a)
  | Raise e => Raise e
  end.

(** ** Concrete inputs *)

(** The scenario of the specification: tile 5 with region (0,0,128,128) and
    stride (128,128), in an atlas with [firstgid = 1] and 4 columns. The
    scenario fixes neither the image path, nor the tile mode, nor the rows
    of the atlas. *)
Definition scenario_fwd_def (p : string) (mode : Z) : BinToTiled.TileDefinition :=
  {| BinToTiled.godot_id := 5;
     BinToTiled.texture_path := p;
     BinToTiled.region := (PyNum.PFloat 0, PyNum.PFloat 0, PyNum.PFloat 128, PyNum.PFloat 128);
     BinToTiled.stride := (PyNum.PFloat 128, PyNum.PFloat 128);
     BinToTiled.tile_mode := mode |}.

Definition scenario_fwd_atlas (p : string) (w h rows : Z) : BinToTiled.ImageTileset :=
  {| BinToTiled.rel_path := p; BinToTiled.width := w; BinToTiled.height := h;
     BinToTiled.firstgid := 1; BinToTiled.cols := 4; BinToTiled.rows := rows |}.

Definition scenario_rev_def (p : string) : TiledToBin.TileDefinition :=
  {| TiledToBin.godot_id := 5;
     TiledToBin.texture_path := p;
     TiledToBin.region := (0, 0, 128, 128)%float;
     TiledToBin.stride := (128, 128)%float |}.

Definition scenario_rev_atlas (p : string) : TiledToBin.TilesetInfo :=
  {| TiledToBin.firstgid := 1; TiledToBin.image_path := Some p; TiledToBin.columns := 4 |}.

Definition scenario_cell : list Byte.byte := [Byte.x06; Byte.x02; Byte.x00].

Definition start : BinToTiled.reader := {| BinToTiled.ptr := 0; BinToTiled.stdout := [] |}.

(** A map declared 256 cells wide. *)
Definition wide_map : TiledToBin.tmx :=
  {| TiledToBin.map_width := 256; TiledToBin.map_height := 1;
     TiledToBin.tmx_tilesets := []; TiledToBin.tmx_layers_src := [] |}.

(** A run of [bin_to_tiled.py] on a 1x1 level whose only tile, on the first
    layer, has its region at x = -256: the resource file of [constructmap]
    declares tile 0 on the 128x128 image [Tilemaps/a.png]. *)
Definition left_of_atlas_def : BinToTiled.TileDefinition :=
  {| BinToTiled.godot_id := 0;
     BinToTiled.texture_path := "Tilemaps/a.png";
     BinToTiled.region :=
       (PyNum.PFloat (-256), PyNum.PFloat 0, PyNum.PFloat 128, PyNum.PFloat 128);
     BinToTiled.stride := (PyNum.PFloat 128, PyNum.PFloat 128);
     BinToTiled.tile_mode := 0 |}.

Definition left_of_atlas_tres (tres_file : string) : gmap Z BinToTiled.TileDefinition :=
  if String.eqb tres_file "Tilemaps/constructmap.tres"
  then {[ 0 := left_of_atlas_def ]} else ∅.

Definition left_of_atlas_fs (path : string) : BinToTiled.image_file :=
  if String.eqb path "Tilemaps/a.png" then BinToTiled.Png 128 128 else BinToTiled.NoFile.

(** The registry of that run: the one-tile atlas of [Tilemaps/a.png] and
    the icon image, which is missing and has no tile. *)
Definition left_of_atlas_entries : list BinToTiled.ImageTileset :=
  [ {| BinToTiled.rel_path := "Tilemaps/a.png"; BinToTiled.width := 128;
       BinToTiled.height := 128; BinToTiled.firstgid := 1;
       BinToTiled.cols := 1; BinToTiled.rows := 1 |};
    {| BinToTiled.rel_path := "Tilemaps/newsandstone.png"; BinToTiled.width := 0;
       BinToTiled.height := 0; BinToTiled.firstgid := 2;
       BinToTiled.cols := 0; BinToTiled.rows := 0 |} ].

Definition left_of_atlas_bin : list Byte.byte :=
  [Byte.x01; Byte.x01; Byte.x01; Byte.x00; Byte.x00].

(** [int(s)] on a run of decimal digits. *)
Fixpoint int_of_digits (acc : Z) (s : string) : Z :=
  match s with
  | EmptyString => acc
  | String c s' => int_of_digits (10 * acc + (Z.of_nat (nat_of_ascii c) - 48)) s'
  end.

Definition int_of_str (s : string) : Z := int_of_digits 0 s.

(** Two iteration orders of the set of ids: by first occurrence, and the
    reverse of that. *)
Definition first_seen_order (found : list string) : list string := remove_dups found.
Definition last_seen_order (found : list string) : list string :=
  reverse (remove_dups found).

(** A resource text that declares tile 1 on (0,0,128,128) and then tile 2 on
    (0,0,256,256) of the same image. *)
Definition overlap_found : list string := ["1"; "2"].

Definition overlap_define (tid : Z) : option TiledToBin.TileDefinition :=
  if tid =? 1 then
    Some {| TiledToBin.godot_id := 1; TiledToBin.texture_path := "Tilemaps/t.png";
            TiledToBin.region := (0, 0, 128, 128)%float;
            TiledToBin.stride := (128, 128)%float |}
  else if tid =? 2 then
    Some {| TiledToBin.godot_id := 2; TiledToBin.texture_path := "Tilemaps/t.png";
            TiledToBin.region := (0, 0, 256, 256)%float;
            TiledToBin.stride := (128, 128)%float |}
  else None.

(** A resource text with the name lines of the ids 1, 01 and 3, where tile 3
    has no texture line. *)
Definition alias_found : list string := ["1"; "01"; "3"].

(** A 2x3 map whose only layer is [Map], over the scenario's atlas. *)
Definition small_map : TiledToBin.tmx :=
  {| TiledToBin.map_width := 2; TiledToBin.map_height := 3;
     TiledToBin.tmx_tilesets := [scenario_rev_atlas "Tilemaps/t.png"];
     TiledToBin.tmx_layers_src := [("Map", [1; 2; 3; 4; 1; 2])] |}.

Definition small_defs : gmap string (list TiledToBin.TileDefinition) :=
  {[ "Map" := [scenario_rev_def "Tilemaps/t.png"] ]}.

Definition small_map_bin : list Byte.byte :=
  match TiledToBin.convert_tmx_to_bin small_defs small_map with
  | Ok out => out
  | Raise _ => []
  end.

(** A level file cut after 5 of its 40 bytes, read with no resources. *)
Definition cut_layers : gmap string (list (list Z)) :=
  match BinToTiled.parse_binary left_of_atlas_bin ∅ ∅ start with
  | Ok (_, _, parsed_layers, _) => parsed_layers
  | Raise _ => ∅
  end.

Definition cut_end : BinToTiled.reader :=
  match BinToTiled.parse_binary left_of_atlas_bin ∅ ∅ start with
  | Ok (_, _, _, st) => st
  | Raise _ => start
  end.

(** The forward direction on six icon cells of a 2x3 layer. *)
Definition icon_images : gmap string BinToTiled.ImageTileset :=
  {[ BinToTiled.spawn_icon_path :=
       {| BinToTiled.rel_path := BinToTiled.spawn_icon_path;
          BinToTiled.width := 384; BinToTiled.height := 384;
          BinToTiled.firstgid := 1; BinToTiled.cols := 3; BinToTiled.rows := 3 |} ]}.

Definition icon_bin : list Byte.byte :=
  [Byte.x01; Byte.x02; Byte.x03; Byte.x04; Byte.x05; Byte.x06].

Definition icon_columns : list (list Z) := [[1; 2; 3]; [4; 5; 6]].

Definition small_grid : list (list Z) := [[1; 3; 1]; [2; 4; 2]].

Definition small_cells : list (list Byte.byte) :=
  match TiledToBin.layer_cells 2 3 "Map" TiledToBin.TYPE_AUTOTILE (Some small_grid)
          [scenario_rev_def "Tilemaps/t.png"] [scenario_rev_atlas "Tilemaps/t.png"] with
  | Ok cells => cells
  | Raise _ => []
  end.

(** The tiles of a list of atlas entries. *)
Definition tile_count (entries : list BinToTiled.ImageTileset) : Z :=
  foldr (fun a n => BinToTiled.cols a * BinToTiled.rows a + n) 0 entries.

(** Descending by [firstgid]: the order [sort_desc] leaves the tilesets in. *)
Definition desc_firstgid (a b : TiledToBin.TilesetInfo) : Prop :=
  TiledToBin.firstgid b <= TiledToBin.firstgid a.

(** The tilesets of a list that start at a given GID, in list order. *)
Definition with_firstgid (g : Z) (l : list TiledToBin.TilesetInfo)
  : list TiledToBin.TilesetInfo :=
  List.filter (fun ts => TiledToBin.firstgid ts =? g) l.

(** The textures of all the definitions of all the layers are registered. *)
Definition textures_registered (ltd : gmap string (gmap Z BinToTiled.TileDefinition))
    (ui : gmap string BinToTiled.ImageTileset) : Prop :=
  forall layer (defs : gmap Z BinToTiled.TileDefinition) tid d,
    ltd !! layer = Some defs -> defs !! tid = Some d ->
    is_Some (ui !! BinToTiled.texture_path d).

(** The file of the 2x3 map, read back with no resources. *)
Definition small_read_layers : gmap string (list (list Z)) :=
  match BinToTiled.parse_binary small_map_bin ∅ ∅ start with
  | Ok (_, _, parsed_layers, _) => parsed_layers
  | Raise _ => ∅
  end.

Definition small_read_end : BinToTiled.reader :=
  match BinToTiled.parse_binary small_map_bin ∅ ∅ start with
  | Ok (_, _, _, st) => st
  | Raise _ => start
  end.

(** The tilesets of a map whose icon atlas has [firstgid] 1 and is followed
    by a second atlas at 10. *)
Definition icon_atlases : list TiledToBin.TilesetInfo :=
  [ {| TiledToBin.firstgid := 1;
       TiledToBin.image_path := Some BinToTiled.spawn_icon_path;
       TiledToBin.columns := 3 |};
    {| TiledToBin.firstgid := 10;
       TiledToBin.image_path := Some "Tilemaps/t.png";
       TiledToBin.columns := 4 |} ].

(** [struct.pack('>I', n)] for [0 <= n < 2^32]: the header fields of a PNG
    file. *)
Definition byte_of (n : Z) : Byte.byte :=
  default Byte.x00 (Byte.of_N (Z.to_N (n mod 256))).

Definition be32 (n : Z) : list Byte.byte :=
  [byte_of (n / 2 ^ 24); byte_of (n / 2 ^ 16); byte_of (n / 2 ^ 8); byte_of n].

(** A file that starts with the PNG signature, then [pad], then the chunk
    name [IHDR] followed by the two sizes. A PNG file has the four bytes of
    the chunk length for [pad]. *)
Definition png_file (pad : list Byte.byte) (w h : Z) (rest : list Byte.byte)
  : list Byte.byte :=
  (BinToTiled.PNG_SIGNATURE ++ pad ++ BinToTiled.IHDR ++ be32 w ++ be32 h ++ rest)%list.

(** The TSX file [create_tsx] leaves for an image tileset: none when the
    image is missing, else the path, the width and the columns it has set. *)
Definition tsx_written (fs : string -> BinToTiled.image_file)
    (image_ts : BinToTiled.ImageTileset) : TiledToBin.tsx_file :=
  match fs (BinToTiled.rel_path image_ts) with
  | BinToTiled.NoFile => TiledToBin.NoTsx
  | _ =>
      let t := BinToTiled.create_tsx fs image_ts in
      TiledToBin.Tsx (BinToTiled.rel_path t) (BinToTiled.width t) (BinToTiled.cols t)
  end.

(** The names of the layer nodes, and their ids. *)
Definition node_names (nodes : list BinToTiled.layer_node) : list string :=
  map BinToTiled.node_name nodes.

Definition node_ids (nodes : list BinToTiled.layer_node) : list Z :=
  map BinToTiled.node_id nodes.

(** No character of [s] is a decimal digit. *)
Fixpoint no_digit (s : string) : bool :=
  match s with
  | EmptyString => true
  | String c s' =>
      match PyStr.digit_of c with
      | None => no_digit s'
      | Some _ => false
      end
  end.

(** ** Properties of the Python number model *)

Example round_ties : PyNum.round 2.5%float = Ok 2 /\ PyNum.round 3.5%float = Ok 4
  /\ PyNum.round (-0.5)%float = Ok 0 /\ PyNum.round (-1.5)%float = Ok (-2).
Proof. repeat split; reflexivity. Qed.

(** ** The reverse codec, cell by cell *)

Section ReverseCell.
Import TiledToBin.

Lemma pack_B_raise v e : pack_B v = Raise e -> e = StructError.
Proof.
  unfold pack_B. destruct (_ && _); [destruct (Byte.of_N _)|]; congruence.
Qed.

Lemma pack_B_above v : 255 < v -> pack_B v = Raise StructError.
Proof.
  intros Hv. unfold pack_B.
  replace (v <=? 255) with false by (symmetry; apply Z.leb_gt; lia).
  now rewrite andb_false_r.
Qed.

Lemma pack_B_zero : pack_B 0 = Ok Byte.x00.
Proof. reflexivity. Qed.

Lemma land_flag g :
  Z.land g FLIPPED_HORIZONTALLY_FLAG
  = if Z.testbit g 31 then FLIPPED_HORIZONTALLY_FLAG else 0.
Proof.
  change FLIPPED_HORIZONTALLY_FLAG with (2 ^ 31).
  apply Z.bits_inj'. intros n Hn. rewrite Z.land_spec.
  destruct (Z.eq_dec n 31) as [->|Hne].
  - rewrite Z.pow2_bits_true by lia. rewrite andb_true_r.
    destruct (Z.testbit g 31); [now rewrite Z.pow2_bits_true by lia|].
    now rewrite Z.bits_0.
  - rewrite Z.pow2_bits_false by lia. rewrite andb_false_r.
    destruct (Z.testbit g 31); [now rewrite Z.pow2_bits_false by lia|].
    now rewrite Z.bits_0.
Qed.

Lemma flipped_testbit g : flipped g = Z.testbit g 31.
Proof. unfold flipped. rewrite land_flag. now destruct (Z.testbit g 31). Qed.

Lemma mask_drops_flag g :
  Z.land (Z.lxor g FLIPPED_HORIZONTALLY_FLAG) GID_MASK = Z.land g GID_MASK.
Proof.
  change FLIPPED_HORIZONTALLY_FLAG with (2 ^ 31).
  change GID_MASK with (Z.ones 29).
  apply Z.bits_inj'. intros n Hn. rewrite !Z.land_spec, Z.lxor_spec.
  destruct (Z.ltb_spec n 29).
  - rewrite Z.pow2_bits_false by lia. now rewrite xorb_false_r.
  - rewrite Z.ones_spec_high by lia. now rewrite !andb_false_r.
Qed.

Lemma flipped_toggle g :
  flipped (Z.lxor g FLIPPED_HORIZONTALLY_FLAG) = negb (flipped g).
Proof.
  rewrite !flipped_testbit, Z.lxor_spec.
  change FLIPPED_HORIZONTALLY_FLAG with (2 ^ 31).
  rewrite Z.pow2_bits_true by lia. now destruct (Z.testbit g 31).
Qed.

Lemma resolve_zero layer_name defs tilesets :
  resolve layer_name defs tilesets 0 = Ok (0, 0, 0).
Proof. reflexivity. Qed.

Lemma encode_cell_zero layer_name layer_type defs tilesets :
  encode_cell layer_name layer_type defs tilesets 0 = Ok (empty_cell layer_type).
Proof.
  unfold encode_cell. rewrite Z.land_0_l, resolve_zero. cbn.
  unfold write_cell, empty_cell, aux_bytes. cbn.
  destruct (layer_type =? TYPE_AUTOTILE); [reflexivity|].
  destruct (layer_type =? TYPE_FLIP); reflexivity.
Qed.

(** C6. On the reverse path a cell whose interchange value is GID 0 is
    written as tile index byte 0 followed by zeroed auxiliary bytes: two
    for AUTOTILE, one (the flip byte) for FLIP, none for SIMPLE. This holds
    for every layer name, every encoding type, every definition list and
    every atlas list. *)
Theorem gid_zero_is_empty_cell (layer_name : string) (layer_type : Z)
    (defs : list TileDefinition) (tilesets : list TilesetInfo) :
  encode_cell layer_name layer_type defs tilesets 0
  = Ok (Byte.x00 :: replicate (aux_bytes layer_type) Byte.x00)
  /\ aux_bytes TYPE_AUTOTILE = 2%nat
  /\ aux_bytes TYPE_FLIP = 1%nat
  /\ aux_bytes TYPE_SIMPLE = 0%nat.
Proof.
  split; [apply encode_cell_zero|repeat split].
Qed.

(** The value that carries only the flip bit masks to GID 0 as well: its
    tile index byte is 0, and on a FLIP layer its flip byte is 1. *)
Example flip_only_value :
  encode_cell "features" TYPE_FLIP [] [] FLIPPED_HORIZONTALLY_FLAG
  = Ok [Byte.x00; Byte.x01].
Proof. reflexivity. Qed.

(** C7. Toggling bit 31 of an interchange cell value leaves the masked
    GID unchanged, hence the atlas entry found for it, the grid coordinate
    inside that atlas and the resolved tile index and autotile bytes; the
    flip boolean is inverted. The bytes written on AUTOTILE and SIMPLE
    layers are the same for both values, and on a FLIP layer they differ
    in the flip byte only. *)
Theorem flip_bit_isolation (layer_name : string) (defs : list TileDefinition)
    (tilesets : list TilesetInfo) (g : Z) :
  let g' := Z.lxor g FLIPPED_HORIZONTALLY_FLAG in
  let gid := Z.land g GID_MASK in
  let gid' := Z.land g' GID_MASK in
  target_tileset tilesets gid' = target_tileset tilesets gid
  /\ (forall ts, img_grid ts (gid' - firstgid ts) = img_grid ts (gid - firstgid ts))
  /\ resolve layer_name defs tilesets gid' = resolve layer_name defs tilesets gid
  /\ flipped g' = negb (flipped g)
  /\ (forall layer_type, layer_type <> TYPE_FLIP ->
        encode_cell layer_name layer_type defs tilesets g'
        = encode_cell layer_name layer_type defs tilesets g)
  /\ encode_cell layer_name TYPE_FLIP defs tilesets g'
     = res_map toggle_flip (encode_cell layer_name TYPE_FLIP defs tilesets g).
Proof.
  intros g' gid gid'.
  assert (Hgid : gid' = gid) by apply mask_drops_flag.
  assert (Hflip : flipped g' = negb (flipped g)) by apply flipped_toggle.
  rewrite Hgid. repeat split; try assumption.
  - intros layer_type Hty. unfold encode_cell. fold gid gid'. rewrite Hgid.
    destruct (resolve layer_name defs tilesets gid) as [[[f ax] ay]|e]; [|reflexivity].
    cbn. unfold write_cell.
    destruct (layer_type =? TYPE_AUTOTILE); [reflexivity|].
    destruct (Z.eqb_spec layer_type TYPE_FLIP); [contradiction|reflexivity].
  - unfold encode_cell. fold gid gid'. rewrite Hgid, Hflip.
    destruct (resolve layer_name defs tilesets gid) as [[[f ax] ay]|e]; [|reflexivity].
    cbn. unfold write_cell. cbn.
    destruct (pack_B f) as [b0|e]; [|reflexivity].
    cbn. now destruct (flipped g).
Qed.

End ReverseCell.

(** ** The reverse conversion as a whole *)

Section ReverseRun.
Import TiledToBin.

Lemma fill_grid_raise w h i gids grid e :
  fill_grid w h i gids grid = Raise e -> e = ZeroDivisionError /\ w = 0.
Proof.
  revert i grid. induction gids as [|g gids IH]; intros i grid; cbn.
  - discriminate.
  - destruct (Z.eqb_spec w 0) as [->|Hw].
    + intros [= <-]. now split.
    + apply IH.
Qed.

Lemma read_layers_raise w h layers acc e :
  read_layers w h layers acc = Raise e -> e = ZeroDivisionError /\ w = 0.
Proof.
  revert acc. induction layers as [|[name gids] layers IH]; intros acc; cbn.
  - discriminate.
  - unfold layer_grid.
    destruct (fill_grid w h 0 gids _) as [grid|e'] eqn:Hfill; cbn.
    + apply IH.
    + intros [= <-]. eapply fill_grid_raise, Hfill.
Qed.

(** C10. When the declared width or the declared height of the map exceeds
    255 the reverse conversion ends in an exception and returns no bytes: the
    one-byte pack of the dimension fails with [struct.error]. The only other
    exception a run with such a dimension can end in is the
    [ZeroDivisionError] of [i % map_width], raised while the layers are read
    when the width is 0 (and the height is the oversized one). *)
Theorem oversized_dimension_raises (layer_definitions : gmap string (list TileDefinition))
    (t : tmx) :
  255 < map_width t \/ 255 < map_height t ->
  (convert_tmx_to_bin layer_definitions t = Raise StructError
   \/ (convert_tmx_to_bin layer_definitions t = Raise ZeroDivisionError
       /\ map_width t = 0))
  /\ (255 < map_width t -> convert_tmx_to_bin layer_definitions t = Raise StructError).
Proof.
  intros Hdim. unfold convert_tmx_to_bin.
  destruct (read_layers (map_width t) (map_height t) (tmx_layers_src t) ∅)
    as [tmx_layers|e] eqn:Hread; cbn.
  - assert (Hstruct :
      (bw ← pack_B (map_width t) ; bh ← pack_B (map_height t) ;
       body ← for_each (write_layer layer_definitions (map_width t) (map_height t)
                          (sort_desc (tmx_tilesets t)) tmx_layers) BINARY_WRITE_ORDER ;
       Ok ([bw; bh] ++ concat body ++ [Byte.x00])%list) = Raise StructError).
    { destruct (pack_B (map_width t)) as [bw|e] eqn:Hw; cbn.
      - destruct Hdim as [Hdim|Hdim].
        + rewrite pack_B_above in Hw by assumption. discriminate.
        + rewrite pack_B_above by assumption. reflexivity.
      - apply pack_B_raise in Hw. now subst. }
    split; [left|intros _]; exact Hstruct.
  - destruct (read_layers_raise _ _ _ _ _ Hread) as [-> Hw0]. split.
    + right. now split.
    + lia.
Qed.

End ReverseRun.

(** C10, at a map declared 256 cells wide. *)
Lemma oversized_dimension_raises_witness :
  255 < TiledToBin.map_width wide_map
  /\ TiledToBin.convert_tmx_to_bin ∅ wide_map = Raise StructError.
Proof.
  split; [reflexivity|].
  apply (proj2 (oversized_dimension_raises ∅ wide_map (or_introl eq_refl))).
  reflexivity.
Defined.

(** ** The concrete scenario *)

Section Scenario.

Lemma autotile_not_spawnmarker layer_name :
  BinToTiled.LAYER_TYPES !! layer_name = Some BinToTiled.TYPE_AUTOTILE ->
  String.eqb layer_name "spawnmarker" = false.
Proof.
  intros H. destruct (String.eqb_spec layer_name "spawnmarker") as [->|]; [|reflexivity].
  vm_compute in H. discriminate.
Qed.

Lemma scenario_forward_gid layer_name p w h rows mode :
  String.eqb layer_name "spawnmarker" = false -> 1 <= rows -> 0 < mode ->
  BinToTiled.cell_gid {[ p := scenario_fwd_atlas p w h rows ]} layer_name
                      {[ 5 := scenario_fwd_def p mode ]} 5 2 0 false = Ok 3.
Proof.
  intros Hname Hrows Hmode. unfold BinToTiled.cell_gid.
  rewrite Hname. cbn [Z.leb Z.compare].
  rewrite lookup_singleton_eq. cbn [scenario_fwd_def BinToTiled.texture_path].
  rewrite lookup_singleton_eq.
  cbn -[PyNum.int_mul PyNum.add PyNum.div_pow2 PyNum.round Z.ltb].
  replace (0 <? mode) with true by (symmetry; apply Z.ltb_lt; lia).
  change (PyNum.int_mul 2 (PyNum.PFloat 128)) with (Ok (PyNum.PFloat 256) : res PyNum.num).
  change (PyNum.int_mul 0 (PyNum.PFloat 128)) with (Ok (PyNum.PFloat 0) : res PyNum.num).
  cbn -[PyNum.add PyNum.div_pow2 PyNum.round Z.ltb].
  change (PyNum.add (PyNum.PFloat 0) (PyNum.PFloat 256))
    with (Ok (PyNum.PFloat 256) : res PyNum.num).
  change (PyNum.add (PyNum.PFloat 0) (PyNum.PFloat 0))
    with (Ok (PyNum.PFloat 0) : res PyNum.num).
  cbn -[PyNum.div_pow2 PyNum.round Z.ltb].
  change (PyNum.div_pow2 (PyNum.PFloat 256) 7) with (Ok 2%float : res float).
  change (PyNum.div_pow2 (PyNum.PFloat 0) 7) with (Ok 0%float : res float).
  cbn -[PyNum.round Z.ltb].
  change (PyNum.round 2) with (Ok 2 : res Z).
  change (PyNum.round 0) with (Ok 0 : res Z).
  cbn -[Z.ltb].
  replace (0 <? rows) with true by (symmetry; apply Z.ltb_lt; lia).
  reflexivity.
Qed.

Lemma scenario_forward_cell layer_name p w h rows mode :
  BinToTiled.LAYER_TYPES !! layer_name = Some BinToTiled.TYPE_AUTOTILE ->
  1 <= rows -> 0 < mode ->
  BinToTiled.read_cell scenario_cell {[ p := scenario_fwd_atlas p w h rows ]} layer_name
    BinToTiled.TYPE_AUTOTILE {[ 5 := scenario_fwd_def p mode ]} start
  = Ok (3, {| BinToTiled.ptr := 3; BinToTiled.stdout := [] |}).
Proof.
  intros Hty Hrows Hmode. apply autotile_not_spawnmarker in Hty.
  unfold BinToTiled.read_cell, mbind, BinToTiled.M_bind.
  cbn -[BinToTiled.cell_gid].
  unfold BinToTiled.lift.
  change (Z.pos 6 - 1) with 5.
  now rewrite scenario_forward_gid.
Qed.

Lemma scenario_outside_region p :
  TiledToBin.in_region (scenario_rev_def p) 256 0 = false.
Proof. reflexivity. Qed.

Lemma scenario_lookup_fails p :
  TiledToBin.get_godot_tile_from_pixel [scenario_rev_def p] (Some p) 256 0
  = Ok (None, 0, 0).
Proof.
  unfold TiledToBin.get_godot_tile_from_pixel, TiledToBin.search_defs.
  rewrite scenario_outside_region. now rewrite andb_false_r.
Qed.

Lemma scenario_reverse_cell layer_name p :
  String.eqb layer_name "spawnmarker" = false ->
  TiledToBin.encode_cell layer_name TiledToBin.TYPE_AUTOTILE
    [scenario_rev_def p] [scenario_rev_atlas p] 3
  = Ok (if String.eqb layer_name "Mapbackground"
        then [Byte.x06; Byte.x02; Byte.x00]
        else [Byte.x00; Byte.x00; Byte.x00]).
Proof.
  intros Hname. unfold TiledToBin.encode_cell.
  change (Z.land 3 TiledToBin.GID_MASK) with 3.
  unfold TiledToBin.resolve.
  change (0 <? 3) with true. cbv iota.
  change (TiledToBin.target_tileset [scenario_rev_atlas p] 3)
    with (Some (scenario_rev_atlas p)).
  cbv iota. rewrite Hname.
  change (TiledToBin.img_grid (scenario_rev_atlas p)
            (3 - TiledToBin.firstgid (scenario_rev_atlas p))) with (2, 0).
  cbv iota beta zeta.
  change (TiledToBin.image_path (scenario_rev_atlas p)) with (Some p).
  change (2 * TiledToBin.TILE_SIZE) with 256.
  change (0 * TiledToBin.TILE_SIZE) with 0.
  rewrite scenario_lookup_fails. cbn [mbind res_bind].
  destruct (String.eqb layer_name "Mapbackground"); reflexivity.
Qed.

(** C1 (amended). In the scenario of the specification (tile 5 with region
    (0,0,128,128) and stride (128,128), atlas with [firstgid = 1] and 4
    columns), on any AUTOTILE layer, with the definition in autotile or atlas
    mode and an atlas of at least one row, the cell bytes [6, 2, 0] are
    decoded to GID 3. In the other direction GID 3 resolves to pixel
    (256, 0), which lies outside the region (0,0,128,128), so no definition
    matches: the bytes [6, 2, 0] come back only on the background-fallback
    layer [Mapbackground], through its fallback, and every other AUTOTILE
    layer writes the empty cell [0, 0, 0]. *)
Theorem scenario_autotile (layer_name p : string) (w h rows mode : Z) :
  BinToTiled.LAYER_TYPES !! layer_name = Some BinToTiled.TYPE_AUTOTILE ->
  1 <= rows -> 0 < mode ->
  BinToTiled.read_cell scenario_cell {[ p := scenario_fwd_atlas p w h rows ]} layer_name
    BinToTiled.TYPE_AUTOTILE {[ 5 := scenario_fwd_def p mode ]} start
  = Ok (3, {| BinToTiled.ptr := 3; BinToTiled.stdout := [] |})
  /\ TiledToBin.encode_cell layer_name TiledToBin.TYPE_AUTOTILE
       [scenario_rev_def p] [scenario_rev_atlas p] 3
     = Ok (if String.eqb layer_name "Mapbackground"
           then scenario_cell
           else [Byte.x00; Byte.x00; Byte.x00]).
Proof.
  intros Hty Hrows Hmode. split.
  - now apply scenario_forward_cell.
  - apply scenario_reverse_cell. now apply autotile_not_spawnmarker.
Qed.

(** C1, on the layer [Mapbackground] with an atlas of one row. *)
Lemma scenario_autotile_witness :
  BinToTiled.read_cell scenario_cell
    {[ "Tilemaps/t.png" := scenario_fwd_atlas "Tilemaps/t.png" 512 128 1 ]}
    "Mapbackground" BinToTiled.TYPE_AUTOTILE
    {[ 5 := scenario_fwd_def "Tilemaps/t.png" 1 ]} start
  = Ok (3, {| BinToTiled.ptr := 3; BinToTiled.stdout := [] |})
  /\ TiledToBin.encode_cell "Mapbackground" TiledToBin.TYPE_AUTOTILE
       [scenario_rev_def "Tilemaps/t.png"] [scenario_rev_atlas "Tilemaps/t.png"] 3
     = Ok scenario_cell.
Proof.
  apply (scenario_autotile "Mapbackground" "Tilemaps/t.png" 512 128 1 1);
    [reflexivity | lia | lia].
Defined.

(** What the scenario leaves open matters in the forward direction: in
    single-tile mode the autotile bytes are ignored and the cell is GID 1,
    and on an atlas without rows it is the empty GID 0. *)
Example scenario_single_mode :
  BinToTiled.read_cell scenario_cell
    {[ "Tilemaps/t.png" := scenario_fwd_atlas "Tilemaps/t.png" 512 128 1 ]}
    "Map" BinToTiled.TYPE_AUTOTILE
    {[ 5 := scenario_fwd_def "Tilemaps/t.png" 0 ]} start
  = Ok (1, {| BinToTiled.ptr := 3; BinToTiled.stdout := [] |})
  /\ BinToTiled.read_cell scenario_cell
       {[ "Tilemaps/t.png" := scenario_fwd_atlas "Tilemaps/t.png" 512 0 0 ]}
       "Map" BinToTiled.TYPE_AUTOTILE
       {[ 5 := scenario_fwd_def "Tilemaps/t.png" 1 ]} start
     = Ok (0, {| BinToTiled.ptr := 3; BinToTiled.stdout := [] |}).
Proof. split; vm_compute; reflexivity. Qed.

(** C1 as stated fails: on the AUTOTILE layer [Map] the scenario's cell is
    decoded to GID 3, and GID 3 is written back as [0, 0, 0]. *)
Lemma scenario_roundtrip_counterexample :
  BinToTiled.read_cell scenario_cell
    {[ "Tilemaps/t.png" := scenario_fwd_atlas "Tilemaps/t.png" 512 128 1 ]}
    "Map" BinToTiled.TYPE_AUTOTILE
    {[ 5 := scenario_fwd_def "Tilemaps/t.png" 1 ]} start
  = Ok (3, {| BinToTiled.ptr := 3; BinToTiled.stdout := [] |})
  /\ TiledToBin.encode_cell "Map" TiledToBin.TYPE_AUTOTILE
       [scenario_rev_def "Tilemaps/t.png"] [scenario_rev_atlas "Tilemaps/t.png"] 3
     = Ok [Byte.x00; Byte.x00; Byte.x00]
  /\ TiledToBin.encode_cell "Map" TiledToBin.TYPE_AUTOTILE
       [scenario_rev_def "Tilemaps/t.png"] [scenario_rev_atlas "Tilemaps/t.png"] 3
     <> Ok scenario_cell.
Proof.
  split; [|split].
  - vm_compute. reflexivity.
  - vm_compute. reflexivity.
  - vm_compute. discriminate.
Qed.

End Scenario.

(** ** The range of the GIDs the forward codec produces *)

Lemma left_of_atlas_registry :
  BinToTiled.atlas_entries left_of_atlas_fs
    (snd (BinToTiled.scan_tres ∅ left_of_atlas_tres))
  = left_of_atlas_entries
  /\ left_of_atlas_entries <> [].
Proof. split; [vm_compute; reflexivity|discriminate]. Qed.

(** C3 fails on the code. The bounds test of the forward codec,
    [grid_x < cols and grid_y < rows], has no lower bound. A definition whose
    region starts at x = -256 has grid coordinate (-2, 0); on the one-tile
    atlas with [firstgid = 1] the cell [1, 0, 0] of the layer [constructmap]
    is decoded to the GID 1 + (-2) = -1, which is negative and in no atlas
    range. *)
Theorem forward_gid_negative :
  BinToTiled.atlas_entries left_of_atlas_fs
    (snd (BinToTiled.scan_tres ∅ left_of_atlas_tres))
  = left_of_atlas_entries
  /\ exists parsed_layers st,
       BinToTiled.convert ∅ left_of_atlas_tres left_of_atlas_fs left_of_atlas_bin
       = Ok (1, 1, parsed_layers, st)
       /\ BinToTiled.flat_gids <$> parsed_layers !! "constructmap" = Some [-1].
Proof.
  split; [vm_compute; reflexivity|].
  destruct (BinToTiled.convert ∅ left_of_atlas_tres left_of_atlas_fs left_of_atlas_bin)
    as [[[[w h] pl] st]|e] eqn:Hrun.
  - exists pl, st.
    assert (Hproj :
      match BinToTiled.convert ∅ left_of_atlas_tres left_of_atlas_fs left_of_atlas_bin with
      | Ok (w, h, pl, _) => Some (w, h, BinToTiled.flat_gids <$> pl !! "constructmap")
      | Raise _ => None
      end = Some (1, 1, Some [-1])) by (vm_compute; reflexivity).
    rewrite Hrun in Hproj. injection Hproj as -> -> ->. now split.
  - assert (Hok :
      match BinToTiled.convert ∅ left_of_atlas_tres left_of_atlas_fs left_of_atlas_bin with
      | Ok _ => true
      | Raise _ => false
      end = true) by (vm_compute; reflexivity).
    rewrite Hrun in Hok. discriminate.
Qed.

(** The fallback of the icon layer has the same effect when the icon image
    is missing: its atlas has no tile, and a spawn-marker cell is decoded to
    the [firstgid] of that empty atlas, here GID 2, which no range holds. *)
Example icon_fallback_outside_ranges :
  let unique_images :=
    BinToTiled.assign_gids left_of_atlas_fs
      (snd (BinToTiled.scan_tres ∅ left_of_atlas_tres)) in
  BinToTiled.cell_gid unique_images "spawnmarker" ∅ 0 0 0 false = Ok 2
  /\ forall a,
       a ∈ BinToTiled.atlas_entries left_of_atlas_fs
             (snd (BinToTiled.scan_tres ∅ left_of_atlas_tres)) ->
       ~ BinToTiled.in_gid_range a 2.
Proof.
  split; [vm_compute; reflexivity|].
  intros a Ha. rewrite (proj1 left_of_atlas_registry) in Ha.
  unfold BinToTiled.in_gid_range.
  apply elem_of_cons in Ha as [->|Ha]; [cbn; lia|].
  apply elem_of_cons in Ha as [->|Ha]; [cbn; lia|]. inversion Ha.
Qed.

(** ** The order of the reverse lookup *)

Section ReverseLookup.
Import TiledToBin.

Lemma search_defs_first layer_defs tp pixel_x pixel_y i d :
  layer_defs !! i = Some d ->
  path_matches tp d && in_region d pixel_x pixel_y = true ->
  (forall j d', (j < i)%nat -> layer_defs !! j = Some d' ->
                path_matches tp d' && in_region d' pixel_x pixel_y = false) ->
  search_defs layer_defs tp pixel_x pixel_y = tile_of d pixel_x pixel_y.
Proof.
  revert i. induction layer_defs as [|d0 defs IH]; intros i Hi Hd Hbefore.
  - discriminate.
  - destruct i as [|i]; cbn in Hi |- *.
    + injection Hi as ->. now rewrite Hd.
    + rewrite (Hbefore 0%nat d0) by (lia || reflexivity).
      apply (IH i); [assumption..|].
      intros j d' Hj Hd'. apply (Hbefore (S j) d'); [lia|assumption].
Qed.

Lemma search_defs_none layer_defs tp pixel_x pixel_y :
  (forall d, d ∈ layer_defs -> path_matches tp d && in_region d pixel_x pixel_y = false) ->
  search_defs layer_defs tp pixel_x pixel_y = Ok (None, 0, 0).
Proof.
  induction layer_defs as [|d0 defs IH]; intros Hall; cbn.
  - reflexivity.
  - rewrite Hall by apply list_elem_of_here.
    apply IH. intros d Hd. apply Hall. now apply list_elem_of_further.
Qed.

Lemma first_seen_is_set_iteration : set_iteration first_seen_order.
Proof.
  intros found. split.
  - apply NoDup_remove_dups.
  - intros s. apply elem_of_remove_dups.
Qed.

Lemma last_seen_is_set_iteration : set_iteration last_seen_order.
Proof.
  intros found. unfold last_seen_order. split.
  - rewrite reverse_Permutation. apply NoDup_remove_dups.
  - intros s. rewrite elem_of_reverse. apply elem_of_remove_dups.
Qed.

(** C2 (amended). The reverse lookup examines the definition list of the
    layer in list order, and the first definition of that list whose region
    contains the pixel (lower bound inclusive, upper bound exclusive, both
    shifted by the tolerance) and whose atlas path matches (substring in
    either direction) is the one the result is computed from; when no
    definition of the list qualifies the lookup returns no tile. The list
    holds, in some order, exactly the definitions of the distinct id strings
    of the source that the parser does not skip, one for each such string:
    an id that is skipped gives none, and two id strings that denote the
    same number each give a definition of that number. Its order is the
    order in which the parser's set of id strings is iterated, which is not
    tied to the source order. *)
Theorem reverse_lookup_first_in_list (set_order : list string -> list string)
    (int_of : string -> Z) (define : Z -> option TileDefinition)
    (found : list string) (texture_path : option string) (pixel_x pixel_y : Z) :
  let layer_defs := parse_tile_definitions_from_string set_order int_of define found in
  (forall i d,
      layer_defs !! i = Some d ->
      candidate texture_path d pixel_x pixel_y = true ->
      (forall j d', (j < i)%nat -> layer_defs !! j = Some d' ->
                    candidate texture_path d' pixel_x pixel_y = false) ->
      get_godot_tile_from_pixel layer_defs texture_path pixel_x pixel_y
      = tile_of d pixel_x pixel_y)
  /\ ((forall d, d ∈ layer_defs -> candidate texture_path d pixel_x pixel_y = false) ->
      get_godot_tile_from_pixel layer_defs texture_path pixel_x pixel_y
      = Ok (None, 0, 0))
  /\ (set_iteration set_order ->
      layer_defs ≡ₚ omap (fun s => define (int_of s)) (remove_dups found)
      /\ (forall d, d ∈ layer_defs
                    <-> exists s, s ∈ found /\ define (int_of s) = Some d)).
Proof.
  intros layer_defs. split; [|split].
  - intros i d Hi Hd Hbefore. now apply (search_defs_first layer_defs _ _ _ i).
  - intros Hnone. now apply search_defs_none.
  - intros Hset. destruct (Hset found) as [Hnodup Hmem]. split.
    + unfold layer_defs, parse_tile_definitions_from_string.
      apply omap_Permutation, NoDup_Permutation;
        [exact Hnodup|apply NoDup_remove_dups|].
      intros s. now rewrite Hmem, elem_of_remove_dups.
    + intros d. unfold layer_defs, parse_tile_definitions_from_string.
      rewrite list_elem_of_omap.
      split; intros (s & Hs & Hdef); exists s; split; try assumption; now apply Hmem.
Qed.

(** C2, at the overlapping definitions iterated by first occurrence: tile 1,
    at index 0, is chosen for pixel (0, 0); no tile is found for pixel
    (512, 0), which neither region contains; the list holds the definitions
    of the ids found, here tile 2 among them; and the ids 1, 01 and 3, of
    which 3 is skipped, give two definitions of tile 1. *)
Lemma reverse_lookup_first_in_list_witness :
  let layer_defs :=
    parse_tile_definitions_from_string first_seen_order int_of_str overlap_define
                                       overlap_found in
  get_godot_tile_from_pixel layer_defs (Some "Tilemaps/t.png") 0 0 = Ok (Some 1, 0, 0)
  /\ get_godot_tile_from_pixel layer_defs (Some "Tilemaps/t.png") 512 0 = Ok (None, 0, 0)
  /\ (forall d, overlap_define 2 = Some d -> d ∈ layer_defs)
  /\ parse_tile_definitions_from_string first_seen_order int_of_str overlap_define
                                        alias_found
     ≡ₚ omap overlap_define [1; 1].
Proof.
  intros layer_defs. split; [|split; [|split]].
  - pose proof (proj1 (reverse_lookup_first_in_list first_seen_order int_of_str
                         overlap_define overlap_found (Some "Tilemaps/t.png") 0 0)) as H.
    refine (eq_trans (H 0%nat _ eq_refl eq_refl _) eq_refl).
    intros j d' Hj. exfalso. inversion Hj.
  - apply (proj1 (proj2 (reverse_lookup_first_in_list first_seen_order int_of_str
                           overlap_define overlap_found (Some "Tilemaps/t.png") 512 0))).
    intros d Hd. unfold parse_tile_definitions_from_string in Hd. cbn in Hd.
    apply elem_of_cons in Hd as [->|Hd]; [reflexivity|].
    apply elem_of_cons in Hd as [->|Hd]; [reflexivity|]. inversion Hd.
  - intros d Hd.
    apply (proj2 (proj2 (proj2 (reverse_lookup_first_in_list first_seen_order int_of_str
                                  overlap_define overlap_found None 0 0))
                    first_seen_is_set_iteration) d).
    exists "2". split; [|exact Hd]. unfold overlap_found.
    apply list_elem_of_further, list_elem_of_here.
  - exact (proj1 (proj2 (proj2 (reverse_lookup_first_in_list first_seen_order int_of_str
                                  overlap_define alias_found None 0 0))
                    first_seen_is_set_iteration)).
Defined.

(** C2 as stated fails: the same resource text, with tile 1 declared before
    tile 2 and both regions containing pixel (0, 0), yields tile 1 under one
    iteration order of the id set and tile 2 under another, so the search
    order is neither the source order nor the same on every run. *)
Lemma reverse_lookup_order_counterexample :
  set_iteration first_seen_order /\ set_iteration last_seen_order
  /\ get_godot_tile_from_pixel
       (parse_tile_definitions_from_string first_seen_order int_of_str overlap_define
                                           overlap_found)
       (Some "Tilemaps/t.png") 0 0 = Ok (Some 1, 0, 0)
  /\ get_godot_tile_from_pixel
       (parse_tile_definitions_from_string last_seen_order int_of_str overlap_define
                                           overlap_found)
       (Some "Tilemaps/t.png") 0 0 = Ok (Some 2, 0, 0).
Proof.
  split; [apply first_seen_is_set_iteration|].
  split; [apply last_seen_is_set_iteration|].
  split; vm_compute; reflexivity.
Qed.

End ReverseLookup.

(** ** The length of the binary file *)

Section OutputLength.
Import TiledToBin.

Lemma for_each_length {A B} (f : A -> res B) l bs :
  for_each f l = Ok bs -> length bs = length l.
Proof.
  revert bs. induction l as [|a l IH]; intros bs; cbn.
  - now intros [= <-].
  - destruct (f a) as [b|e]; cbn; [|discriminate].
    destruct (for_each f l) as [bs'|e]; cbn; [|discriminate].
    intros [= <-]. cbn. f_equal. now apply IH.
Qed.

Lemma for_each_Forall {A B} (f : A -> res B) (P : B -> Prop) l bs :
  (forall a b, f a = Ok b -> P b) -> for_each f l = Ok bs -> Forall P bs.
Proof.
  intros HP. revert bs. induction l as [|a l IH]; intros bs; cbn.
  - intros [= <-]. constructor.
  - destruct (f a) as [b|e] eqn:Hfa; cbn; [|discriminate].
    destruct (for_each f l) as [bs'|e]; cbn; [|discriminate].
    intros [= <-]. constructor; [now apply (HP a)|now apply IH].
Qed.

Lemma for_each_const {A B} (f : A -> res B) (c : B) l :
  (forall a, f a = Ok c) -> for_each f l = Ok (replicate (length l) c).
Proof.
  intros Hf. induction l as [|a l IH]; cbn; [reflexivity|].
  now rewrite Hf, IH.
Qed.

Lemma for_each_concat_length {A B} (f : A -> res (list B)) (g : A -> nat) l bs :
  (forall a b, f a = Ok b -> length b = g a) ->
  for_each f l = Ok bs -> length (concat bs) = sum_list (map g l).
Proof.
  intros Hg. revert bs. induction l as [|a l IH]; intros bs; cbn.
  - now intros [= <-].
  - destruct (f a) as [b|e] eqn:Hfa; cbn; [|discriminate].
    destruct (for_each f l) as [bs'|e]; cbn; [|discriminate].
    intros [= <-]. cbn. rewrite length_app, (Hg a b Hfa). f_equal. now apply IH.
Qed.

Lemma concat_uniform_length {A} (n : nat) (ls : list (list A)) :
  Forall (fun l => length l = n) ls -> length (concat ls) = (length ls * n)%nat.
Proof.
  induction 1 as [|l ls Hl _ IH]; cbn; [reflexivity|].
  rewrite length_app, Hl, IH. reflexivity.
Qed.

Lemma length_range n : length (range n) = Z.to_nat n.
Proof. unfold range. apply length_seq. Qed.

Lemma write_cell_length layer_type final_id auto_x auto_y flipped_h bs :
  write_cell layer_type final_id auto_x auto_y flipped_h = Ok bs ->
  length bs = S (aux_bytes layer_type).
Proof.
  unfold write_cell, aux_bytes.
  destruct (pack_B final_id) as [b0|e]; cbn; [|discriminate].
  destruct (layer_type =? TYPE_AUTOTILE).
  - destruct (pack_B auto_x); cbn; [|discriminate].
    destruct (pack_B auto_y); cbn; [|discriminate]. now intros [= <-].
  - destruct (layer_type =? TYPE_FLIP); [|now intros [= <-]].
    destruct (pack_B _); cbn; [|discriminate]. now intros [= <-].
Qed.

Lemma encode_cell_length layer_name layer_type defs tilesets raw_gid bs :
  encode_cell layer_name layer_type defs tilesets raw_gid = Ok bs ->
  length bs = S (aux_bytes layer_type).
Proof.
  unfold encode_cell.
  destruct (resolve _ _ _ _) as [[[f ax] ay]|e]; cbn; [|discriminate].
  apply write_cell_length.
Qed.

Lemma layer_cells_shape w h layer_name layer_type grid defs tilesets cells :
  layer_cells w h layer_name layer_type grid defs tilesets = Ok cells ->
  length cells = (Z.to_nat w * Z.to_nat h)%nat
  /\ Forall (fun c => length c = S (aux_bytes layer_type)) cells.
Proof.
  unfold layer_cells.
  destruct (for_each _ (range w)) as [cols|e] eqn:Hcols; cbn; [|discriminate].
  intros [= <-]. split.
  - rewrite (concat_uniform_length (Z.to_nat h)).
    + apply for_each_length in Hcols. now rewrite Hcols, length_range.
    + eapply for_each_Forall; [|exact Hcols].
      intros x col Hcol. apply for_each_length in Hcol.
      now rewrite Hcol, length_range.
  - apply Forall_concat.
    eapply for_each_Forall; [|exact Hcols].
    intros x col Hcol. eapply for_each_Forall; [|exact Hcol].
    intros y c. apply encode_cell_length.
Qed.

Lemma write_layer_length layer_definitions w h tilesets tmx_layers layer_name bs :
  write_layer layer_definitions w h tilesets tmx_layers layer_name = Ok bs ->
  length bs = (Z.to_nat w * Z.to_nat h * bytes_per_cell layer_name)%nat.
Proof.
  unfold write_layer.
  destruct (layer_cells _ _ _ _ _ _ _) as [cells|e] eqn:Hcells; cbn; [|discriminate].
  intros [= <-]. apply layer_cells_shape in Hcells as [Hlen Hall].
  now rewrite (concat_uniform_length _ _ Hall), Hlen.
Qed.

Lemma write_layer_absent layer_definitions w h tilesets
    (tmx_layers : gmap string (list (list Z))) layer_name :
  tmx_layers !! layer_name = None ->
  write_layer layer_definitions w h tilesets tmx_layers layer_name
  = Ok (concat (replicate (Z.to_nat w * Z.to_nat h)
                  (empty_cell (default TYPE_SIMPLE (LAYER_TYPES !! layer_name))))).
Proof.
  intros Habsent. unfold write_layer, layer_cells. rewrite Habsent.
  set (ty := default TYPE_SIMPLE (LAYER_TYPES !! layer_name)).
  set (defs := default [] (layer_definitions !! layer_name)).
  rewrite (for_each_const _ (replicate (Z.to_nat h) (empty_cell ty))).
  - cbn. rewrite length_range. do 2 f_equal.
    induction (Z.to_nat w) as [|n IH]; cbn; [reflexivity|].
    now rewrite IH, replicate_add.
  - intros x. rewrite <- (length_range h). apply for_each_const.
    intros y. apply encode_cell_zero.
Qed.

Lemma pack_B_range v b : pack_B v = Ok b -> 0 <= v <= 255.
Proof.
  unfold pack_B. destruct (0 <=? v) eqn:H0; [|discriminate].
  destruct (v <=? 255) eqn:H1; [|discriminate]. lia.
Qed.

(** C9. A layer of the write order that the TMX does not contain is still
    written in full: width*height cells, each the tile index byte 0 and the
    zeroed auxiliary bytes of the layer's encoding type. Hence every run of
    the reverse conversion that ends without an exception writes
    2 + (sum over the 17 layers of width*height*bytes per cell) + 1 bytes,
    which is 3 + 38*width*height, whatever layers the TMX contains; on such
    a run the width and the height are between 0 and 255. *)
Theorem output_length_fixed (layer_definitions : gmap string (list TileDefinition))
    (t : tmx) :
  let w := Z.to_nat (map_width t) in
  let h := Z.to_nat (map_height t) in
  (forall tilesets (tmx_layers : gmap string (list (list Z))) layer_name,
      tmx_layers !! layer_name = None ->
      write_layer layer_definitions (map_width t) (map_height t) tilesets tmx_layers
                  layer_name
      = Ok (concat (replicate (w * h)
              (Byte.x00 :: replicate (pred (bytes_per_cell layer_name)) Byte.x00))))
  /\ (forall out,
        convert_tmx_to_bin layer_definitions t = Ok out ->
        length out
        = (2 + sum_list (map (fun name => w * h * bytes_per_cell name) BINARY_WRITE_ORDER)
           + 1)%nat
        /\ length out = (3 + 38 * (w * h))%nat
        /\ length BINARY_WRITE_ORDER = 17%nat
        /\ 0 <= map_width t <= 255 /\ 0 <= map_height t <= 255).
Proof.
  intros w h. split.
  - intros tilesets tmx_layers layer_name. apply write_layer_absent.
  - intros out. unfold convert_tmx_to_bin.
    destruct (read_layers _ _ _ _) as [tmx_layers|e]; cbn [mbind res_bind]; [|discriminate].
    destruct (pack_B (map_width t)) as [bw|e] eqn:Hbw; cbn [mbind res_bind];
      [|discriminate].
    destruct (pack_B (map_height t)) as [bh|e] eqn:Hbh; cbn [mbind res_bind];
      [|discriminate].
    apply pack_B_range in Hbw, Hbh.
    destruct (for_each (write_layer _ _ _ _ _) BINARY_WRITE_ORDER)
      as [body|e] eqn:Hbody; cbn [mbind res_bind]; [|discriminate].
    intros [= <-].
    apply (for_each_concat_length _
             (fun name => (w * h * bytes_per_cell name)%nat)) in Hbody.
    2:{ intros name bs. apply write_layer_length. }
    assert (Hlen : length (bw :: bh :: concat body ++ [Byte.x00])
                   = (2 + length (concat body) + 1)%nat).
    { cbn. rewrite length_app. cbn. lia. }
    rewrite Hlen, Hbody. split; [reflexivity|].
    split; [|split; [reflexivity|split; assumption]].
    vm_compute bytes_per_cell. cbn [BINARY_WRITE_ORDER map sum_list]. unfold id.
    generalize (w * h)%nat. intros n. lia.
Qed.

End OutputLength.

(** C9, at a 2x3 map that contains one of the 17 layers: the absent SIMPLE
    layer [paths] is written as six zero bytes, and the file has
    3 + 38*6 bytes. *)
Lemma output_length_fixed_witness :
  TiledToBin.write_layer small_defs 2 3 [scenario_rev_atlas "Tilemaps/t.png"]
    {[ "Map" := small_grid ]} "paths"
  = Ok (replicate 6 Byte.x00)
  /\ TiledToBin.convert_tmx_to_bin small_defs small_map = Ok small_map_bin
  /\ length small_map_bin = 231%nat.
Proof.
  split; [|split].
  - exact (proj1 (output_length_fixed small_defs small_map)
             [scenario_rev_atlas "Tilemaps/t.png"] {[ "Map" := small_grid ]} "paths"
             eq_refl).
  - vm_compute. reflexivity.
  - assert (H : TiledToBin.convert_tmx_to_bin small_defs small_map = Ok small_map_bin)
      by (vm_compute; reflexivity).
    exact (proj1 (proj2 (proj2 (output_length_fixed small_defs small_map)
                           small_map_bin H))).
Defined.

(** ** Column-major stream, row-major array *)

Section ListIndex.
Context {A : Type}.

Lemma concat_nth_uniform (d : A) (n : nat) (ls : list (list A)) (x y : nat) :
  Forall (fun l => length l = n) ls -> (y < n)%nat ->
  nth (x * n + y) (concat ls) d = nth y (nth x ls []) d.
Proof.
  intros Hall Hy. revert x. induction Hall as [|l ls Hl _ IH]; intros x.
  - cbn. destruct (x * n + y)%nat, x, y; reflexivity.
  - destruct x as [|x]; cbn [concat nth].
    + rewrite app_nth1 by lia. reflexivity.
    + rewrite app_nth2 by lia.
      replace (S x * n + y - length l)%nat with (x * n + y)%nat by lia.
      apply IH.
Qed.

Lemma nth_map_seq (f : nat -> A) (d : A) (n i : nat) :
  (i < n)%nat -> nth i (map f (seq 0 n)) d = f i.
Proof.
  intros Hi. rewrite (nth_indep _ d (f 0%nat)) by (rewrite length_map, length_seq; lia).
  rewrite map_nth, seq_nth by lia. reflexivity.
Qed.

End ListIndex.

Section ForwardOrder.
Import BinToTiled.

Lemma repeatM_length {A} (m : M A) n st l st' :
  repeatM n m st = Ok (l, st') -> length l = n.
Proof.
  revert st l. induction n as [|n IH]; intros st l; cbn.
  - now intros [= <- _].
  - unfold mbind, M_bind.
    destruct (m st) as [[a st1]|e]; [|discriminate].
    destruct (repeatM n m st1) as [[l1 st2]|e] eqn:Hrest; [|discriminate].
    intros [= <- <-]. cbn. f_equal. now apply (IH st1).
Qed.

Lemma repeatM_add {A} (m : M A) n k st l1 st1 l2 st2 :
  repeatM n m st = Ok (l1, st1) -> repeatM k m st1 = Ok (l2, st2) ->
  repeatM (n + k) m st = Ok ((l1 ++ l2)%list, st2).
Proof.
  revert st l1. induction n as [|n IH]; intros st l1; cbn.
  - intros [= <- <-]. auto.
  - unfold mbind, M_bind.
    destruct (m st) as [[a st0]|e]; [|discriminate].
    destruct (repeatM n m st0) as [[l0 st0']|e] eqn:Hrest; [|discriminate].
    intros [= <- <-] Hk. now rewrite (IH _ _ Hrest Hk).
Qed.

Lemma repeatM_nested {A} (m : M A) w h st cols st' :
  repeatM w (repeatM h m) st = Ok (cols, st') ->
  repeatM (w * h) m st = Ok (concat cols, st')
  /\ Forall (fun col => length col = h) cols.
Proof.
  revert st cols. induction w as [|w IH]; intros st cols; cbn.
  - intros [= <- <-]. now split.
  - unfold mbind at 1, M_bind at 1.
    destruct (repeatM h m st) as [[col st1]|e] eqn:Hcol; [|discriminate].
    unfold mbind at 1, M_bind at 1.
    destruct (repeatM w (repeatM h m) st1) as [[cols1 st2]|e] eqn:Hrest; [|discriminate].
    intros [= <- <-]. destruct (IH _ _ Hrest) as [Hseq Hall]. split.
    + cbn. now apply (repeatM_add m h (w * h) st col st1).
    + constructor; [now apply repeatM_length in Hcol|assumption].
Qed.

Lemma tiled_rows_shape width height layer_gids :
  length (tiled_rows width height layer_gids) = Z.to_nat height
  /\ Forall (fun row => length row = Z.to_nat width)
            (tiled_rows width height layer_gids).
Proof.
  unfold tiled_rows. split.
  - now rewrite length_map, length_seq.
  - apply Forall_map, Forall_forall. intros y _. cbn.
    now rewrite length_map, length_seq.
Qed.

Lemma tiled_rows_nth width height layer_gids x y :
  (x < Z.to_nat width)%nat -> (y < Z.to_nat height)%nat ->
  nth (y * Z.to_nat width + x)
      (flat_gids (tiled_rows width height layer_gids)) 0
  = gid_at layer_gids x y.
Proof.
  intros Hx Hy. unfold flat_gids.
  rewrite (concat_nth_uniform 0 (Z.to_nat width))
    by (apply tiled_rows_shape || assumption).
  unfold tiled_rows. rewrite nth_map_seq by assumption. now rewrite nth_map_seq.
Qed.

End ForwardOrder.

Section ReverseOrder.
Import TiledToBin.

Lemma grid_get_lookup grid x y :
  grid_get grid x y = default 0 (default [] (grid !! x) !! y).
Proof. unfold grid_get. now rewrite !nth_lookup. Qed.

Lemma grid_set_spec w h grid x0 y0 v :
  shaped w h grid -> (x0 < w)%nat -> (y0 < h)%nat ->
  shaped w h (grid_set grid x0 y0 v)
  /\ grid_get (grid_set grid x0 y0 v) x0 y0 = v
  /\ forall x y, (x, y) <> (x0, y0) ->
       grid_get (grid_set grid x0 y0 v) x y = grid_get grid x y.
Proof.
  intros [Hlen Hcols] Hx Hy. unfold grid_set.
  destruct (grid !! x0) as [col|] eqn:Hcol.
  2:{ apply lookup_ge_None in Hcol. lia. }
  pose proof (Forall_lookup_1 _ _ _ _ Hcols Hcol) as Hcollen. cbn in Hcollen.
  split; [|split].
  - split; [now rewrite length_insert|].
    apply Forall_insert; [assumption|]. now rewrite length_insert.
  - rewrite grid_get_lookup, list_lookup_insert_eq by lia. cbn.
    now rewrite list_lookup_insert_eq by lia.
  - intros x y Hne. rewrite !grid_get_lookup.
    destruct (decide (x = x0)) as [->|Hxne].
    + rewrite list_lookup_insert_eq, Hcol by lia. cbn.
      rewrite list_lookup_insert_ne; [reflexivity|congruence].
    + now rewrite list_lookup_insert_ne by congruence.
Qed.

Lemma fill_grid_spec w h i gids grid grid' :
  0 < w -> 0 <= i -> shaped (Z.to_nat w) (Z.to_nat h) grid ->
  fill_grid w h i gids grid = Ok grid' ->
  shaped (Z.to_nat w) (Z.to_nat h) grid'
  /\ forall x y, 0 <= x < w -> 0 <= y < h ->
       grid_get grid' (Z.to_nat x) (Z.to_nat y)
       = if (i <=? y * w + x) && (y * w + x <? i + Z.of_nat (length gids))
         then nth (Z.to_nat (y * w + x - i)) gids 0
         else grid_get grid (Z.to_nat x) (Z.to_nat y).
Proof.
  intros Hw. revert i grid. induction gids as [|raw gids IH]; intros i grid Hi Hshape.
  - cbn [fill_grid]. intros [= <-]. split; [assumption|]. intros x y Hx Hy.
    cbn [length].
    destruct (Z.leb_spec i (y * w + x)), (Z.ltb_spec (y * w + x) (i + Z.of_nat 0));
      cbn [andb]; try lia; reflexivity.
  - cbn [fill_grid]. destruct (Z.eqb_spec w 0) as [|_]; [lia|].
    pose proof (Z.mod_pos_bound i w Hw) as Hmod.
    pose proof (Z.div_mod i w ltac:(lia)) as Hdm.
    assert (Hdiv : 0 <= i / w) by (apply Z.div_pos; lia).
    replace (i mod w <? w) with true by lia. cbn [andb].
    intros Hfill.
    destruct (Z.ltb_spec (i / w) h) as [Hyh|Hyh].
    + destruct (grid_set_spec (Z.to_nat w) (Z.to_nat h) grid
                  (Z.to_nat (i mod w)) (Z.to_nat (i / w)) raw Hshape)
        as (Hshape1 & Hhit & Hmiss); [lia..|].
      destruct (IH (i + 1) _ ltac:(lia) Hshape1 Hfill) as [Hshape' Hget].
      split; [assumption|]. intros x y Hx Hy. rewrite (Hget x y Hx Hy).
      cbn [length]. rewrite Nat2Z.inj_succ.
      destruct (Z.leb_spec (i + 1) (y * w + x)),
               (Z.ltb_spec (y * w + x) (i + 1 + Z.of_nat (length gids))),
               (Z.leb_spec i (y * w + x)),
               (Z.ltb_spec (y * w + x) (i + Z.succ (Z.of_nat (length gids))));
        cbn [andb]; try lia.
      all: first
        [ replace (Z.to_nat (y * w + x - i)) with (S (Z.to_nat (y * w + x - (i + 1))))
            by lia; reflexivity
        | assert (Hk : y * w + x = i) by lia;
          assert (y = i / w) by nia; subst y;
          assert (x = i mod w) by lia; subst x;
          rewrite Hk, Z.sub_diag; exact Hhit
        | apply Hmiss; intros [= Ex Ey]; apply Z2Nat.inj in Ex, Ey; nia ].
    + destruct (IH (i + 1) _ ltac:(lia) Hshape Hfill) as [Hshape' Hget].
      split; [assumption|]. intros x y Hx Hy. rewrite (Hget x y Hx Hy).
      cbn [length]. rewrite Nat2Z.inj_succ.
      assert (Hk : y * w + x <> i) by nia.
      destruct (Z.leb_spec (i + 1) (y * w + x)),
               (Z.ltb_spec (y * w + x) (i + 1 + Z.of_nat (length gids))),
               (Z.leb_spec i (y * w + x)),
               (Z.ltb_spec (y * w + x) (i + Z.succ (Z.of_nat (length gids))));
        cbn [andb]; try lia; try reflexivity.
      replace (Z.to_nat (y * w + x - i)) with (S (Z.to_nat (y * w + x - (i + 1))))
        by lia.
      reflexivity.
Qed.

Lemma layer_grid_spec w h gids grid :
  0 < w -> layer_grid w h gids = Ok grid ->
  shaped (Z.to_nat w) (Z.to_nat h) grid
  /\ forall x y, 0 <= x < w -> 0 <= y < h ->
       grid_get grid (Z.to_nat x) (Z.to_nat y) = nth (Z.to_nat (y * w + x)) gids 0.
Proof.
  intros Hw Hfill. unfold layer_grid in Hfill.
  apply fill_grid_spec in Hfill as [Hshape Hget]; [|lia..|].
  2:{ split; [apply length_replicate|].
      apply Forall_replicate, length_replicate. }
  split; [assumption|]. intros x y Hx Hy. rewrite (Hget x y Hx Hy).
  rewrite Z.sub_0_r.
  destruct (Z.leb_spec 0 (y * w + x)), (Z.ltb_spec (y * w + x) (0 + Z.of_nat (length gids)));
    cbn [andb]; try nia; try reflexivity.
  rewrite nth_overflow by lia.
  rewrite grid_get_lookup, lookup_replicate_2 by lia. cbn.
  now rewrite lookup_replicate_2 by lia.
Qed.

Lemma for_each_nth {A B} (f : A -> res B) l bs (da : A) (db : B) i :
  for_each f l = Ok bs -> (i < length l)%nat -> f (nth i l da) = Ok (nth i bs db).
Proof.
  revert bs i. induction l as [|a l IH]; intros bs i; cbn.
  - intros _ Hi. lia.
  - destruct (f a) as [b|e] eqn:Hfa; cbn; [|discriminate].
    destruct (for_each f l) as [bs'|e]; cbn; [|discriminate].
    intros [= <-] Hi. destruct i as [|i]; cbn; [assumption|].
    apply IH; [reflexivity|lia].
Qed.

Lemma nth_range n i : (i < Z.to_nat n)%nat -> nth i (range n) 0%nat = i.
Proof. intros Hi. unfold range. now rewrite seq_nth. Qed.

Lemma layer_cells_nth w h layer_name layer_type grid defs tilesets cells x y :
  layer_cells w h layer_name layer_type grid defs tilesets = Ok cells ->
  (x < Z.to_nat w)%nat -> (y < Z.to_nat h)%nat ->
  encode_cell layer_name layer_type defs tilesets (raw_gid_at grid x y)
  = Ok (nth (x * Z.to_nat h + y) cells []).
Proof.
  unfold layer_cells.
  destruct (for_each _ (range w)) as [cols|e] eqn:Hcols; cbn [mbind res_bind];
    [|discriminate].
  intros [= <-] Hx Hy.
  assert (Hshape : Forall (fun col => length col = Z.to_nat h) cols).
  { eapply for_each_Forall; [|exact Hcols].
    intros x' col Hcol. apply for_each_length in Hcol.
    now rewrite Hcol, length_range. }
  rewrite (concat_nth_uniform [] (Z.to_nat h)) by assumption.
  pose proof (for_each_nth _ _ _ 0%nat [] x Hcols) as Hcol.
  rewrite length_range in Hcol. specialize (Hcol Hx).
  rewrite nth_range in Hcol by assumption.
  pose proof (for_each_nth _ _ _ 0%nat [] y Hcol) as Hcell.
  rewrite length_range in Hcell. specialize (Hcell Hy).
  rewrite nth_range in Hcell by assumption. exact Hcell.
Qed.

End ReverseOrder.

(** C4. Forward: the cells of a layer are read from the stream column by
    column (outer loop over the width, inner over the height), and the cell
    read at position x*height + y of that sequence is the entry y*width + x
    of the flat, row-major GID array of the layer. Reverse: the entry i of
    the flat array is stored at column i mod width, row i div width of the
    grid, and the cell written at position x*height + y of the layer's part
    of the binary stream is the encoding of the entry y*width + x of the
    flat array. *)
Theorem transposition_exact :
  (forall bin_data unique_images width height layer_name parse_type tile_defs
          st layer_gids st',
      BinToTiled.read_layer bin_data unique_images width height layer_name
                            parse_type tile_defs st = Ok (layer_gids, st') ->
      let w := Z.to_nat width in
      let h := Z.to_nat height in
      let flat := BinToTiled.flat_gids (BinToTiled.tiled_rows width height layer_gids) in
      BinToTiled.repeatM (w * h)
        (BinToTiled.read_cell bin_data unique_images layer_name parse_type tile_defs) st
      = Ok (concat layer_gids, st')
      /\ length flat = (h * w)%nat
      /\ forall x y, (x < w)%nat -> (y < h)%nat ->
           nth (y * w + x) flat 0 = nth (x * h + y) (concat layer_gids) 0)
  /\ (forall map_width map_height gids grid,
        0 < map_width ->
        TiledToBin.layer_grid map_width map_height gids = Ok grid ->
        let w := Z.to_nat map_width in
        let h := Z.to_nat map_height in
        (forall i, 0 <= i < map_width * map_height ->
           TiledToBin.grid_get grid (Z.to_nat (i mod map_width)) (Z.to_nat (i / map_width))
           = nth (Z.to_nat i) gids 0)
        /\ forall layer_name layer_type defs tilesets cells,
             TiledToBin.layer_cells map_width map_height layer_name layer_type
                                    (Some grid) defs tilesets = Ok cells ->
             forall x y, (x < w)%nat -> (y < h)%nat ->
               TiledToBin.encode_cell layer_name layer_type defs tilesets
                                      (nth (y * w + x) gids 0)
               = Ok (nth (x * h + y) cells [])).
Proof.
  split.
  - intros bin_data unique_images width height layer_name parse_type tile_defs
           st layer_gids st' Hread w h flat. subst w h flat.
    apply repeatM_nested in Hread as [Hseq Hshape].
    split; [exact Hseq|]. split.
    + unfold BinToTiled.flat_gids.
      destruct (tiled_rows_shape width height layer_gids) as [Hlen Hrows].
      now rewrite (concat_uniform_length _ _ Hrows), Hlen.
    + intros x y Hx Hy. rewrite tiled_rows_nth by assumption.
      unfold BinToTiled.gid_at. symmetry. now apply concat_nth_uniform.
  - intros map_width map_height gids grid Hw Hgrid w h. subst w h.
    destruct (layer_grid_spec _ _ _ _ Hw Hgrid) as [Hshape Hget]. split.
    + intros i Hi.
      pose proof (Z.mod_pos_bound i map_width Hw) as Hmod.
      pose proof (Z.div_mod i map_width ltac:(lia)) as Hdm.
      assert (0 <= i / map_width) by (apply Z.div_pos; lia).
      assert (i / map_width < map_height) by (apply Z.div_lt_upper_bound; lia).
      rewrite Hget by lia. f_equal. lia.
    + intros layer_name layer_type defs tilesets cells Hcells x y Hx Hy.
      rewrite <- (layer_cells_nth _ _ _ _ _ _ _ _ x y Hcells Hx Hy).
      f_equal. unfold TiledToBin.raw_gid_at.
      destruct grid as [|c g].
      { destruct Hshape as [Hlen _]. cbn in Hlen. lia. }
      specialize (Hget (Z.of_nat x) (Z.of_nat y) ltac:(lia) ltac:(lia)).
      rewrite !Nat2Z.id in Hget. rewrite Hget. f_equal. lia.
Qed.

(** ** The atlas registry *)

Section Registry.
Import BinToTiled.

#[local] Instance str_le_total : Total str_le.
Proof. intros a b. apply String.leb_total. Qed.

#[local] Instance str_le_trans : Transitive str_le.
Proof.
  unfold str_le, String.leb. intros a.
  induction a as [|x a IH]; intros [|y b] [|z c]; cbn; try congruence; auto.
  unfold Ascii.compare.
  destruct (N.compare_spec (N_of_ascii x) (N_of_ascii y)),
           (N.compare_spec (N_of_ascii y) (N_of_ascii z)),
           (N.compare_spec (N_of_ascii x) (N_of_ascii z));
    try congruence; try lia; auto.
  apply IH.
Qed.

#[local] Instance str_le_antisym : AntiSymm (=) str_le.
Proof. intros a b. apply String.leb_antisym. Qed.

Lemma get_grid_dim_nonneg pixels : 0 <= get_grid_dim pixels.
Proof.
  unfold get_grid_dim, TILE_SIZE. destruct (Z.leb_spec pixels 0); [lia|].
  apply Z.div_pos; lia.
Qed.

Lemma create_tsx_fields fs g p :
  let t := create_tsx fs (set_firstgid g (new_ImageTileset p)) in
  rel_path t = p /\ firstgid t = g /\ 0 <= cols t /\ 0 <= rows t.
Proof.
  unfold create_tsx. cbn -[get_grid_dim].
  destruct (fs p); cbn -[get_grid_dim]; repeat split; try lia;
    apply get_grid_dim_nonneg.
Qed.

Lemma register_image_fresh unique_images p :
  fresh_images unique_images -> fresh_images (register_image unique_images p).
Proof.
  intros Hfresh. unfold register_image.
  destruct (unique_images !! p) eqn:Hp; [assumption|].
  intros q t. rewrite lookup_insert. destruct (decide (p = q)) as [->|].
  - now intros [= <-].
  - apply Hfresh.
Qed.

Lemma register_image_keeps unique_images p q :
  is_Some (unique_images !! q) -> is_Some (register_image unique_images p !! q).
Proof.
  intros Hq. unfold register_image.
  destruct (unique_images !! p) eqn:Hp; [assumption|].
  rewrite lookup_insert. now destruct (decide (p = q)).
Qed.

Lemma register_image_has unique_images p :
  is_Some (register_image unique_images p !! p).
Proof.
  unfold register_image. destruct (unique_images !! p) eqn:Hp.
  - now rewrite Hp.
  - now rewrite lookup_insert_eq.
Qed.

Lemma fold_register_fresh paths unique_images :
  fresh_images unique_images -> fresh_images (foldl register_image unique_images paths).
Proof.
  revert unique_images. induction paths as [|p paths IH]; intros ui Hfresh; cbn.
  - assumption.
  - apply IH. now apply register_image_fresh.
Qed.

Lemma fold_register_keeps paths unique_images q :
  is_Some (unique_images !! q) -> is_Some (foldl register_image unique_images paths !! q).
Proof.
  revert unique_images. induction paths as [|p paths IH]; intros ui Hq; cbn.
  - assumption.
  - apply IH. now apply register_image_keeps.
Qed.

Lemma scan_layer_fresh tres_defs acc entry :
  fresh_images (snd acc) -> fresh_images (snd (scan_layer tres_defs acc entry)).
Proof.
  destruct acc as [ltd ui], entry as [layer tres_file]. cbn [snd scan_layer].
  intros Hfresh. destruct (_ || _); [assumption|].
  destruct (ltd !! layer); [assumption|]. cbn [snd].
  now apply fold_register_fresh.
Qed.

Lemma scan_layer_keeps tres_defs acc entry q :
  is_Some (snd acc !! q) -> is_Some (snd (scan_layer tres_defs acc entry) !! q).
Proof.
  destruct acc as [ltd ui], entry as [layer tres_file]. cbn [snd scan_layer].
  intros Hq. destruct (_ || _); [assumption|].
  destruct (ltd !! layer); [assumption|]. cbn [snd].
  now apply fold_register_keeps.
Qed.

Lemma scan_tres_fresh tscn_defs tres_defs :
  fresh_images (snd (scan_tres tscn_defs tres_defs))
  /\ is_Some (snd (scan_tres tscn_defs tres_defs) !! spawn_icon_path).
Proof.
  unfold scan_tres.
  set (acc0 := (_, register_image _ spawn_icon_path)).
  assert (H0 : fresh_images (snd acc0) /\ is_Some (snd acc0 !! spawn_icon_path)).
  { split; cbn [snd acc0].
    - apply register_image_fresh, fold_register_fresh. intros p t.
      now rewrite lookup_empty.
    - apply register_image_has. }
  clearbody acc0. revert acc0 H0.
  induction LAYER_CONFIG as [|entry entries IH]; intros acc0 [Hfresh Hicon]; cbn.
  - now split.
  - apply IH. split; [now apply scan_layer_fresh|now apply scan_layer_keeps].
Qed.

Lemma generate_tilesets_other fs paths unique_images cur q :
  q ∉ paths -> generate_tilesets fs paths unique_images cur !! q = unique_images !! q.
Proof.
  revert unique_images cur. induction paths as [|p paths IH]; intros ui cur Hq; cbn.
  - reflexivity.
  - apply not_elem_of_cons in Hq as [Hne Hq].
    destruct (ui !! p) eqn:Hp; [|reflexivity].
    rewrite IH by assumption. now rewrite lookup_insert_ne.
Qed.

Lemma generate_tilesets_assigned fs paths unique_images cur :
  NoDup paths ->
  (forall p, p ∈ paths -> unique_images !! p = Some (new_ImageTileset p)) ->
  omap (fun p => generate_tilesets fs paths unique_images cur !! p) paths
  = assigned fs paths cur.
Proof.
  revert unique_images cur.
  induction paths as [|p paths IH]; intros ui cur Hnodup Hnew.
  - reflexivity.
  - apply NoDup_cons in Hnodup as [Hp Hnodup].
    cbn [generate_tilesets assigned]. rewrite (Hnew p) by apply list_elem_of_here.
    set (t := create_tsx fs (set_firstgid cur (new_ImageTileset p))).
    change (omap ?f (p :: paths))
      with (match f p with Some y => y :: omap f paths | None => omap f paths end).
    cbv beta. rewrite generate_tilesets_other, lookup_insert_eq by assumption.
    f_equal. apply IH; [assumption|].
    intros q Hq. rewrite lookup_insert_ne.
    + apply Hnew. now apply list_elem_of_further.
    + intros ->. contradiction.
Qed.

Lemma sorted_img_paths_spec (unique_images : gmap string ImageTileset) :
  StronglySorted str_le (sorted_img_paths unique_images)
  /\ NoDup (sorted_img_paths unique_images)
  /\ forall p, p ∈ sorted_img_paths unique_images <-> is_Some (unique_images !! p).
Proof.
  unfold sorted_img_paths. split; [|split].
  - apply StronglySorted_merge_sort; apply _.
  - rewrite merge_sort_Permutation. apply NoDup_fst_map_to_list.
  - intros p. rewrite merge_sort_Permutation, list_elem_of_fmap. split.
    + intros ([q t] & -> & Hqt). apply elem_of_map_to_list in Hqt. cbn. eauto.
    + intros [t Ht]. exists (p, t). split; [reflexivity|].
      now apply elem_of_map_to_list.
Qed.

Lemma atlas_entries_assigned fs unique_images :
  fresh_images unique_images ->
  atlas_entries fs unique_images = assigned fs (sorted_img_paths unique_images) 1.
Proof.
  intros Hfresh. unfold atlas_entries, assign_gids.
  destruct (sorted_img_paths_spec unique_images) as (_ & Hnodup & Hmem).
  apply generate_tilesets_assigned; [assumption|].
  intros p Hp. apply Hmem in Hp as [t Ht]. rewrite Ht. f_equal. now apply Hfresh.
Qed.

Lemma assigned_paths fs paths cur : rel_path <$> assigned fs paths cur = paths.
Proof.
  revert cur. induction paths as [|p paths IH]; intros cur; cbn; [reflexivity|].
  rewrite IH. f_equal. apply (create_tsx_fields fs cur p).
Qed.

(** Every entry after the first [i] starts at or after the end of the range
    of entry [i]; counts are never negative. *)
Lemma assigned_ordered fs paths cur i j a b :
  (i < j)%nat ->
  assigned fs paths cur !! i = Some a -> assigned fs paths cur !! j = Some b ->
  firstgid a + cols a * rows a <= firstgid b.
Proof.
  revert cur i j. induction paths as [|p paths IH]; intros cur i j Hij; cbn.
  - discriminate.
  - set (t := create_tsx fs (set_firstgid cur (new_ImageTileset p))).
    destruct (create_tsx_fields fs cur p) as (_ & Hg & Hc & Hr). fold t in Hg, Hc, Hr.
    destruct j as [|j]; [lia|]. destruct i as [|i]; cbn.
    + intros [= <-] Hb. clear IH Hij. revert Hb.
      assert (Hge : firstgid t + cols t * rows t <= cur + cols t * rows t) by lia.
      revert Hge. generalize (cur + cols t * rows t) as c. generalize (firstgid t + cols t * rows t).
      clear. revert j. induction paths as [|q paths IH]; intros j z c Hz; cbn.
      * discriminate.
      * destruct (create_tsx_fields fs c q) as (_ & Hg & Hc & Hr).
        destruct j as [|j]; cbn.
        -- intros [= <-]. lia.
        -- apply IH. nia.
    + apply IH. lia.
Qed.

Lemma assigned_next fs paths cur i a b :
  assigned fs paths cur !! i = Some a -> assigned fs paths cur !! S i = Some b ->
  firstgid b = firstgid a + cols a * rows a.
Proof.
  revert cur i. induction paths as [|p paths IH]; intros cur i; cbn.
  - discriminate.
  - destruct (create_tsx_fields fs cur p) as (_ & Hg & _).
    destruct i as [|i]; cbn.
    + intros [= <-]. destruct paths as [|q paths]; cbn; [discriminate|].
      intros [= <-]. rewrite Hg.
      apply (create_tsx_fields fs _ q).
    + apply IH.
Qed.

Lemma assigned_from fs paths cur a :
  a ∈ assigned fs paths cur -> cur <= firstgid a.
Proof.
  revert cur. induction paths as [|p paths IH]; intros cur; cbn.
  - intros H. inversion H.
  - destruct (create_tsx_fields fs cur p) as (_ & Hg & Hc & Hr).
    intros [->|Ha]%elem_of_cons; [lia|].
    apply IH in Ha. nia.
Qed.

(** C5. The atlas registry built by [convert] lists the images in the
    lexicographic order of their paths, each path once. The first entry has
    [firstgid = 1]; every further entry starts where the previous one ends
    ([firstgid] of the previous entry plus its [cols * rows]). Hence entries
    come in ascending [firstgid], the GID ranges
    [firstgid, firstgid + cols*rows) of two distinct entries never share a
    GID, and GID 0 lies in no range. The registry is never empty: the icon
    image of the spawn-marker layer is always registered. *)
Theorem atlas_ranges_disjoint_ordered (tscn_defs : gmap Z TileDefinition)
    (tres_defs : string -> gmap Z TileDefinition) (fs : string -> image_file) :
  let unique_images := snd (scan_tres tscn_defs tres_defs) in
  let entries := atlas_entries fs unique_images in
  rel_path <$> entries = sorted_img_paths unique_images
  /\ StronglySorted str_le (rel_path <$> entries)
  /\ NoDup (rel_path <$> entries)
  /\ (forall p, p ∈ (rel_path <$> entries) <-> is_Some (unique_images !! p))
  /\ (exists first rest, entries = first :: rest /\ firstgid first = 1)
  /\ (forall i a b, entries !! i = Some a -> entries !! S i = Some b ->
        firstgid b = firstgid a + cols a * rows a)
  /\ (forall i j a b, (i < j)%nat -> entries !! i = Some a -> entries !! j = Some b ->
        firstgid a <= firstgid b /\ firstgid a + cols a * rows a <= firstgid b)
  /\ (forall i j a b g, i <> j -> entries !! i = Some a -> entries !! j = Some b ->
        ~ (in_gid_range a g /\ in_gid_range b g))
  /\ (forall a, a ∈ entries -> 1 <= firstgid a /\ ~ in_gid_range a 0).
Proof.
  intros unique_images entries.
  destruct (scan_tres_fresh tscn_defs tres_defs) as [Hfresh Hicon].
  fold unique_images in Hfresh, Hicon.
  assert (Hentries : entries = assigned fs (sorted_img_paths unique_images) 1)
    by now apply atlas_entries_assigned.
  destruct (sorted_img_paths_spec unique_images) as (Hsorted & Hnodup & Hmem).
  assert (Hpaths : rel_path <$> entries = sorted_img_paths unique_images)
    by (rewrite Hentries; apply assigned_paths).
  assert (Hnonneg : forall a, a ∈ entries -> 0 <= cols a * rows a).
  { intros a Ha. rewrite Hentries in Ha.
    apply list_elem_of_lookup in Ha as [i Hi].
    assert (Hp : exists p g, a = create_tsx fs (set_firstgid g (new_ImageTileset p))).
    { clear -Hi. revert i Hi. generalize 1 as cur.
      induction (sorted_img_paths unique_images) as [|p ps IH]; intros cur i; cbn.
      - discriminate.
      - destruct i as [|i]; cbn; [intros [= <-]; eauto|apply IH]. }
    destruct Hp as (p & g & ->).
    destruct (create_tsx_fields fs g p) as (_ & _ & Hc & Hr). nia. }
  assert (Hord : forall i j a b, (i < j)%nat ->
            entries !! i = Some a -> entries !! j = Some b ->
            firstgid a <= firstgid b /\ firstgid a + cols a * rows a <= firstgid b).
  { intros i j a b Hij Ha Hb.
    assert (firstgid a + cols a * rows a <= firstgid b).
    { rewrite Hentries in Ha, Hb. eapply assigned_ordered; eassumption. }
    split; [|assumption].
    assert (0 <= cols a * rows a) by (apply Hnonneg; eapply list_elem_of_lookup_2, Ha).
    lia. }
  repeat split.
  - exact Hpaths.
  - now rewrite Hpaths.
  - now rewrite Hpaths.
  - rewrite Hpaths. apply Hmem.
  - rewrite Hpaths. apply Hmem.
  - apply Hmem in Hicon. rewrite Hentries.
    destruct (sorted_img_paths unique_images) as [|p ps]; [inversion Hicon|].
    cbn. eexists _, _. split; [reflexivity|]. apply (create_tsx_fields fs 1 p).
  - intros i a b Ha Hb. rewrite Hentries in Ha, Hb. eapply assigned_next; eassumption.
  - eapply Hord; eassumption.
  - eapply Hord; eassumption.
  - intros i j a b g Hij Ha Hb [[Ha1 Ha2] [Hb1 Hb2]].
    destruct (Nat.lt_total i j) as [Hlt|[Heq|Hgt]]; [|contradiction|].
    + destruct (Hord i j a b Hlt Ha Hb). lia.
    + destruct (Hord j i b a Hgt Hb Ha). lia.
  - match goal with Ha : _ ∈ entries |- _ =>
      rewrite Hentries in Ha; now apply assigned_from in Ha end.
  - intros [Hlo Hhi].
    match goal with Ha : _ ∈ entries |- _ =>
      rewrite Hentries in Ha; apply assigned_from in Ha end.
    lia.
Qed.

End Registry.

(** ** Truncated input *)

Section Truncation.
Import BinToTiled.
Variable bin_data : list Byte.byte.
Variable unique_images : gmap string ImageTileset.
Variable layer_tile_definitions : gmap string (gmap Z TileDefinition).

Let len := length bin_data.

Lemma advanced_trans st1 st2 st3 k1 k2 :
  (ptr st1 <= len)%nat ->
  advanced len st1 st2 k1 -> advanced len st2 st3 k2 ->
  advanced len st1 st3 (k1 + k2).
Proof.
  intros Hle [Hp1 Ho1] [Hp2 Ho2]. split.
  - lia.
  - rewrite Ho2, Ho1, <- app_assoc, <- replicate_add. do 2 f_equal. lia.
Qed.

Lemma advanced_bound st1 st2 k : advanced len st1 st2 k -> (ptr st2 <= len)%nat.
Proof. intros [Hp _]. lia. Qed.

Lemma reads_ret {A} (a : A) : reads len (mret a) 0.
Proof.
  intros st a' st' Hle [= <- <-]. split; [lia|].
  replace (ptr st + 0 - ptr st)%nat with 0%nat by lia. cbn. now rewrite app_nil_r.
Qed.

Lemma reads_lift {A} (r : res A) : reads len (lift r) 0.
Proof.
  intros st a st' Hle. unfold lift. destruct r; [|discriminate].
  intros [= <- <-]. split; [lia|].
  replace (ptr st + 0 - ptr st)%nat with 0%nat by lia. cbn. now rewrite app_nil_r.
Qed.

Lemma reads_bind {A B} (m : M A) (f : A -> M B) k1 k2 :
  reads len m k1 -> (forall a, reads len (f a) k2) -> reads len (m ≫= f) (k1 + k2).
Proof.
  intros Hm Hf st b st' Hle. unfold mbind, M_bind.
  destruct (m st) as [[a st1]|e] eqn:Hmst; [|discriminate].
  intros Hfa. pose proof (Hm _ _ _ Hle Hmst) as H1.
  eapply advanced_trans; [assumption|exact H1|].
  eapply Hf; [|exact Hfa]. eapply advanced_bound, H1.
Qed.

Lemma reads_get8 : reads len (get8 bin_data) 1.
Proof.
  intros st a st' Hle. unfold get8.
  destruct (bin_data !! ptr st) as [b|] eqn:Hb; intros [= <- <-]; cbn.
  - apply lookup_lt_Some in Hb. fold len in Hb. split; cbn; [lia|].
    replace (ptr st + 1 - S (ptr st))%nat with 0%nat by lia. cbn. now rewrite app_nil_r.
  - apply lookup_ge_None in Hb. fold len in Hb. split; cbn; [lia|].
    now replace (ptr st + 1 - ptr st)%nat with 1%nat by lia.
Qed.

Lemma reads_repeatM {A} (m : M A) k n :
  reads len m k -> reads len (repeatM n m) (n * k).
Proof.
  intros Hm. induction n as [|n IH]; cbn [repeatM].
  - apply reads_ret.
  - change (S n * k)%nat with (k + n * k)%nat.
    apply reads_bind; [assumption|]. intros a.
    replace (n * k)%nat with (n * k + 0)%nat by lia.
    apply reads_bind; [assumption|]. intros l. apply reads_ret.
Qed.

Lemma reads_read_cell layer_name parse_type tile_defs :
  reads len (read_cell bin_data unique_images layer_name parse_type tile_defs)
        (S (aux_bytes parse_type)).
Proof.
  unfold read_cell. change (S (aux_bytes parse_type)) with (1 + aux_bytes parse_type)%nat.
  apply reads_bind; [apply reads_get8|]. intros val.
  replace (aux_bytes parse_type) with (aux_bytes parse_type + 0)%nat by lia.
  apply reads_bind.
  - unfold aux_bytes. change TiledToBin.TYPE_AUTOTILE with TYPE_AUTOTILE.
    change TiledToBin.TYPE_FLIP with TYPE_FLIP.
    destruct (parse_type =? TYPE_AUTOTILE).
    + change 2%nat with (1 + (1 + 0))%nat.
      apply reads_bind; [apply reads_get8|]. intros ax.
      apply reads_bind; [apply reads_get8|]. intros ay. apply reads_ret.
    + destruct (parse_type =? TYPE_FLIP).
      * change 1%nat with (1 + 0)%nat.
        apply reads_bind; [apply reads_get8|]. intros f. apply reads_ret.
      * apply reads_ret.
  - intros [[ax ay] flip]. apply reads_lift.
Qed.

Lemma reads_parse_layer width height layer_name :
  reads len (parse_layer bin_data unique_images layer_tile_definitions
                         width height layer_name)
        (Z.to_nat width * Z.to_nat height * bytes_per_cell layer_name).
Proof.
  unfold parse_layer.
  replace (Z.to_nat width * Z.to_nat height * bytes_per_cell layer_name)%nat
    with (Z.to_nat width * (Z.to_nat height * bytes_per_cell layer_name) + 0)%nat by lia.
  apply reads_bind; [|intros l; apply reads_ret].
  unfold read_layer. do 2 apply reads_repeatM. apply reads_read_cell.
Qed.

Lemma reads_parse_layers width height names acc :
  reads len (parse_layers bin_data unique_images layer_tile_definitions
                          width height names acc)
        (sum_list ((fun name => Z.to_nat width * Z.to_nat height * bytes_per_cell name)%nat
                   <$> names)).
Proof.
  revert acc. induction names as [|name names IH]; intros acc; cbn [parse_layers].
  - apply reads_ret.
  - cbn [fmap list_fmap sum_list]. unfold sum_list_with.
    apply reads_bind; [apply reads_parse_layer|]. intros rows. apply IH.
Qed.

Lemma read_order_size width height :
  (2 + sum_list ((fun name => Z.to_nat width * Z.to_nat height * bytes_per_cell name)%nat
                 <$> BINARY_READ_ORDER))%nat
  = expected_size width height.
Proof.
  unfold expected_size. vm_compute bytes_per_cell.
  cbn [BINARY_READ_ORDER fmap list_fmap sum_list]. unfold id.
  generalize (Z.to_nat width * Z.to_nat height)%nat. intros n. lia.
Qed.

Lemma drained_get8 : drained len (get8 bin_data) 0 1.
Proof.
  intros st Hst. unfold get8.
  now rewrite (proj2 (lookup_ge_None bin_data (ptr st))) by assumption.
Qed.

Lemma drained_bind {A B} (m : M A) (f : A -> M B) a b k1 k2 :
  drained len m a k1 -> drained len (f a) b k2 -> drained len (m ≫= f) b (k1 + k2).
Proof.
  intros Hm Hf st Hst. unfold mbind, M_bind. rewrite (Hm st Hst). cbv beta iota.
  rewrite Hf by (cbn; assumption). cbn. now rewrite <- app_assoc, replicate_add.
Qed.

Lemma drained_ret {A} (a : A) : drained len (mret a) a 0.
Proof. intros [p out] Hst. unfold mret, M_ret. cbn. now rewrite app_nil_r. Qed.

Lemma drained_repeatM {A} (m : M A) z k n :
  drained len m z k -> drained len (repeatM n m) (replicate n z) (n * k).
Proof.
  intros Hm. induction n as [|n IH]; cbn [repeatM replicate].
  - apply drained_ret.
  - change (S n * k)%nat with (k + n * k)%nat.
    eapply drained_bind; [exact Hm|].
    replace (n * k)%nat with (n * k + 0)%nat by lia.
    eapply drained_bind; [exact IH|]. apply drained_ret.
Qed.

Lemma drained_read_cell layer_name parse_type tile_defs :
  drained len (read_cell bin_data unique_images layer_name parse_type tile_defs)
          0 (S (aux_bytes parse_type)).
Proof.
  unfold read_cell. change (S (aux_bytes parse_type)) with (1 + aux_bytes parse_type)%nat.
  eapply drained_bind; [apply drained_get8|].
  replace (aux_bytes parse_type) with (aux_bytes parse_type + 0)%nat by lia.
  eapply (drained_bind _ _ (0, 0, false)).
  - unfold aux_bytes. change TiledToBin.TYPE_AUTOTILE with TYPE_AUTOTILE.
    change TiledToBin.TYPE_FLIP with TYPE_FLIP.
    destruct (parse_type =? TYPE_AUTOTILE).
    + change 2%nat with (1 + (1 + 0))%nat.
      eapply drained_bind; [apply drained_get8|].
      eapply drained_bind; [apply drained_get8|]. apply drained_ret.
    + destruct (parse_type =? TYPE_FLIP).
      * change 1%nat with (1 + 0)%nat.
        eapply drained_bind; [apply drained_get8|]. apply (drained_ret (0, 0, false)).
      * apply drained_ret.
  - intros [p out] Hst. unfold lift, cell_gid.
    change (0 <=? 0 - 1) with false. cbn. now rewrite app_nil_r.
Qed.

Lemma map_const_replicate {A B} (c : B) (l : list A) :
  map (fun _ => c) l = replicate (length l) c.
Proof. induction l as [|a l IH]; cbn; [reflexivity|now rewrite IH]. Qed.

Lemma tiled_rows_zero width height :
  tiled_rows width height
    (replicate (Z.to_nat width) (replicate (Z.to_nat height) 0))
  = replicate (Z.to_nat height) (replicate (Z.to_nat width) 0).
Proof.
  unfold tiled_rows.
  assert (Hzero : forall x y,
            gid_at (replicate (Z.to_nat width) (replicate (Z.to_nat height) 0)) x y = 0).
  { intros x y. unfold gid_at. rewrite !nth_lookup.
    destruct (replicate _ _ !! x) as [col|] eqn:Hcol; cbn.
    - apply lookup_replicate in Hcol as [-> _].
      destruct (replicate _ _ !! y) as [c|] eqn:Hc; cbn; [|reflexivity].
      now apply lookup_replicate in Hc as [-> _].
    - now destruct y. }
  rewrite (map_ext _ (fun _ => replicate (Z.to_nat width) 0)).
  - rewrite map_const_replicate. now rewrite length_seq.
  - intros y. rewrite (map_ext _ (fun _ => 0)) by (intros x; apply Hzero).
    rewrite map_const_replicate. now rewrite length_seq.
Qed.

Lemma drained_parse_layer width height layer_name :
  drained len (parse_layer bin_data unique_images layer_tile_definitions
                           width height layer_name)
          (replicate (Z.to_nat height) (replicate (Z.to_nat width) 0))
          (Z.to_nat width * (Z.to_nat height * bytes_per_cell layer_name)).
Proof.
  unfold parse_layer.
  replace (Z.to_nat width * (Z.to_nat height * bytes_per_cell layer_name))%nat
    with (Z.to_nat width * (Z.to_nat height * bytes_per_cell layer_name) + 0)%nat by lia.
  eapply drained_bind.
  - unfold read_layer. do 2 apply drained_repeatM. apply drained_read_cell.
  - rewrite <- (tiled_rows_zero width height). apply drained_ret.
Qed.

Lemma parse_layers_drained width height names acc st :
  (len <= ptr st)%nat ->
  exists parsed_layers st',
    parse_layers bin_data unique_images layer_tile_definitions
                 width height names acc st = Ok (parsed_layers, st')
    /\ ptr st' = ptr st
    /\ (forall name, name ∈ names ->
          parsed_layers !! name
          = Some (replicate (Z.to_nat height) (replicate (Z.to_nat width) 0)))
    /\ (forall name, name ∉ names -> parsed_layers !! name = acc !! name).
Proof.
  revert acc st. induction names as [|name names IH]; intros acc st Hst.
  - exists acc, st. split; [reflexivity|]. split; [reflexivity|].
    split; [intros name H; inversion H|reflexivity].
  - cbn [parse_layers]. unfold mbind, M_bind.
    rewrite (drained_parse_layer width height name st Hst). cbv beta iota.
    edestruct (IH (<[name := replicate (Z.to_nat height) (replicate (Z.to_nat width) 0)]> acc))
      as (pl & st' & Hrun & Hptr & Hin & Hout); [|rewrite Hrun].
    { cbn. exact Hst. }
    exists pl, st'. split; [reflexivity|]. split; [exact Hptr|]. split.
    + intros n Hn. destruct (decide (n ∈ names)) as [Hmem|Hmem]; [now apply Hin|].
      apply elem_of_cons in Hn as [->|Hn]; [|contradiction].
      rewrite Hout by assumption. apply lookup_insert_eq.
    + intros n Hn. apply not_elem_of_cons in Hn as [Hne Hn].
      rewrite Hout by assumption. now apply lookup_insert_ne.
Qed.

(** C8. Once the cursor of the forward codec has reached the end of the
    binary stream, [get8] yields 0, leaves the cursor where it is and prints
    the line "OVERFLOW PTR !!"; from such a state every cell is read without
    an exception as the empty GID 0, and so are the remaining layers to the
    end. On every run that returns, the number of those lines on
    the standard output is the number of bytes the stream is short of the
    2 + 38*width*height bytes of a full level, so the output carries the line
    exactly when the input was truncated. *)
Theorem truncated_stream_reads_zero :
  (forall st, (len <= ptr st)%nat ->
     get8 bin_data st
     = Ok (0, {| ptr := ptr st; stdout := (stdout st ++ [OVERFLOW_MSG])%list |}))
  /\ (forall st layer_name parse_type tile_defs, (len <= ptr st)%nat ->
        read_cell bin_data unique_images layer_name parse_type tile_defs st
        = Ok (0, {| ptr := ptr st;
                    stdout := (stdout st
                               ++ replicate (S (aux_bytes parse_type)) OVERFLOW_MSG)%list |}))
  /\ (forall st width height names acc, (len <= ptr st)%nat ->
        exists parsed_layers st',
          parse_layers bin_data unique_images layer_tile_definitions
                       width height names acc st = Ok (parsed_layers, st')
          /\ ptr st' = ptr st
          /\ forall name, name ∈ names ->
               parsed_layers !! name
               = Some (replicate (Z.to_nat height) (replicate (Z.to_nat width) 0)))
  /\ (forall width height parsed_layers st',
        parse_binary bin_data unique_images layer_tile_definitions start
        = Ok (width, height, parsed_layers, st') ->
        ptr st' = Nat.min (expected_size width height) len
        /\ stdout st' = replicate (expected_size width height - len) OVERFLOW_MSG
        /\ (OVERFLOW_MSG ∈ stdout st' <-> (len < expected_size width height)%nat)).
Proof.
  split; [|split; [|split]].
  - intros st Hst. apply (drained_get8 st Hst).
  - intros st layer_name parse_type tile_defs Hst.
    apply (drained_read_cell layer_name parse_type tile_defs st Hst).
  - intros st width height names acc Hst.
    destruct (parse_layers_drained width height names acc st Hst)
      as (pl & st' & Hrun & Hptr & Hin & _).
    exists pl, st'. auto.
  - intros width height parsed_layers st'. unfold parse_binary, mbind, M_bind.
    destruct (get8 bin_data start) as [[w st1]|e] eqn:Hw; [|discriminate].
    destruct (get8 bin_data st1) as [[h st2]|e] eqn:Hh; [|discriminate].
    destruct (parse_layers _ _ _ w h BINARY_READ_ORDER ∅ st2)
      as [[pl st3]|e] eqn:Hlayers; [|discriminate].
    intros [= <- <- <- <-].
    assert (H0 : (ptr start <= len)%nat) by (cbn; lia).
    pose proof (reads_get8 _ _ _ H0 Hw) as A1.
    pose proof (reads_get8 _ _ _ (advanced_bound _ _ _ A1) Hh) as A2.
    pose proof (advanced_trans _ _ _ _ _ H0 A1 A2) as A12.
    pose proof (reads_parse_layers w h BINARY_READ_ORDER ∅ _ _ _
                  (advanced_bound _ _ _ A12) Hlayers) as A3.
    pose proof (advanced_trans _ _ _ _ _ H0 A12 A3) as [Hptr Hout].
    change (1 + 1 + ?n)%nat with (2 + n)%nat in Hptr, Hout.
    rewrite read_order_size in Hptr, Hout. cbn [start ptr stdout] in Hptr, Hout.
    cbn [Nat.add app] in Hptr, Hout.
    assert (Hcount : (expected_size w h - ptr st3 = expected_size w h - len)%nat) by lia.
    rewrite Hcount in Hout. split; [exact Hptr|]. split; [exact Hout|].
    rewrite Hout. split.
    + intros Hin%elem_of_replicate. lia.
    + intros Hlt. apply elem_of_replicate. split; [reflexivity|lia].
Qed.

End Truncation.

(** C8, at a level file cut after 5 of its 40 bytes: a read at the end of
    the stream yields 0 and prints the line, a FLIP cell read there is empty
    and prints two, the layers read from there are all zero, and the run as
    a whole prints 35 lines. *)
Lemma truncated_stream_reads_zero_witness :
  let at_end := {| BinToTiled.ptr := 5; BinToTiled.stdout := [] |} in
  BinToTiled.get8 left_of_atlas_bin at_end
  = Ok (0, {| BinToTiled.ptr := 5; BinToTiled.stdout := [BinToTiled.OVERFLOW_MSG] |})
  /\ BinToTiled.read_cell left_of_atlas_bin ∅ "features" BinToTiled.TYPE_FLIP ∅ at_end
     = Ok (0, {| BinToTiled.ptr := 5;
                 BinToTiled.stdout := replicate 2 BinToTiled.OVERFLOW_MSG |})
  /\ (exists parsed_layers st',
        BinToTiled.parse_layers left_of_atlas_bin ∅ ∅ 1 1 ["Map"; "paths"] ∅ at_end
        = Ok (parsed_layers, st')
        /\ BinToTiled.ptr st' = 5%nat
        /\ parsed_layers !! "paths" = Some [[0]])
  /\ BinToTiled.parse_binary left_of_atlas_bin ∅ ∅ start = Ok (1, 1, cut_layers, cut_end)
  /\ BinToTiled.stdout cut_end = replicate 35 BinToTiled.OVERFLOW_MSG.
Proof.
  intros at_end.
  pose proof (truncated_stream_reads_zero left_of_atlas_bin ∅ ∅) as (G & C & L & R).
  split; [|split; [|split; [|split]]].
  - exact (G at_end (le_n 5)).
  - exact (C at_end "features" BinToTiled.TYPE_FLIP ∅ (le_n 5)).
  - destruct (L at_end 1 1 ["Map"; "paths"] ∅ (le_n 5)) as (pl & st' & Hrun & Hptr & Hin).
    exists pl, st'. split; [exact Hrun|]. split; [exact Hptr|].
    apply Hin. apply list_elem_of_further, list_elem_of_here.
  - vm_compute. reflexivity.
  - assert (H : BinToTiled.parse_binary left_of_atlas_bin ∅ ∅ start
                = Ok (1, 1, cut_layers, cut_end)) by (vm_compute; reflexivity).
    exact (proj1 (proj2 (R 1 1 cut_layers cut_end H))).
Defined.

(** C4, at column 1, row 1 of a 2x3 layer, in both directions. *)
Lemma transposition_exact_witness :
  nth 3 (BinToTiled.flat_gids (BinToTiled.tiled_rows 2 3 icon_columns)) 0
  = nth 4 (concat icon_columns) 0
  /\ TiledToBin.encode_cell "Map" TiledToBin.TYPE_AUTOTILE
       [scenario_rev_def "Tilemaps/t.png"] [scenario_rev_atlas "Tilemaps/t.png"]
       (nth 3 [1; 2; 3; 4; 1; 2] 0)
     = Ok (nth 4 small_cells []).
Proof.
  destruct transposition_exact as [F R]. split.
  - assert (Hread :
      BinToTiled.read_layer icon_bin icon_images 2 3 "spawnmarker"
                            BinToTiled.TYPE_SIMPLE ∅ start
      = Ok (icon_columns, {| BinToTiled.ptr := 6; BinToTiled.stdout := [] |}))
      by (vm_compute; reflexivity).
    exact (proj2 (proj2 (F _ _ _ _ _ _ _ _ _ _ Hread)) 1%nat 1%nat
             (le_n 2) (le_S 2 2 (le_n 2))).
  - assert (Hgrid : TiledToBin.layer_grid 2 3 [1; 2; 3; 4; 1; 2] = Ok small_grid)
      by (vm_compute; reflexivity).
    assert (Hcells :
      TiledToBin.layer_cells 2 3 "Map" TiledToBin.TYPE_AUTOTILE (Some small_grid)
        [scenario_rev_def "Tilemaps/t.png"] [scenario_rev_atlas "Tilemaps/t.png"]
      = Ok small_cells) by (vm_compute; reflexivity).
    exact (proj2 (R 2 3 _ _ eq_refl Hgrid) _ _ _ _ _ Hcells 1%nat 1%nat
             (le_n 2) (le_S 2 2 (le_n 2))).
Defined.

(** ** Further properties of the atlas registry *)

Section RegistryMore.
Import BinToTiled.

(** X1. [get_grid_dim] is the ceiling of the pixel size over the tile size,
    a non-positive size counting as 0: the result [g] is the one integer with
    128*(g-1) < max(0, pixels) <= 128*g. So an image narrower than a tile
    still has one column, and only an empty image has none. *)
Theorem get_grid_dim_is_ceiling (pixels : Z) :
  128 * (get_grid_dim pixels - 1) < Z.max 0 pixels <= 128 * get_grid_dim pixels
  /\ (get_grid_dim pixels = 0 <-> pixels <= 0).
Proof.
  unfold get_grid_dim, TILE_SIZE. destruct (Z.leb_spec pixels 0) as [Hle|Hgt].
  - split; [lia|]. split; [intros _; assumption|reflexivity].
  - pose proof (Z.div_mod (pixels + 128 - 1) 128 ltac:(lia)) as Hdm.
    pose proof (Z.mod_pos_bound (pixels + 128 - 1) 128 ltac:(lia)) as Hmod.
    split; [lia|]. split; intros H; lia.
Qed.

Lemma assigned_cover fs paths cur g :
  (exists a, a ∈ assigned fs paths cur /\ in_gid_range a g)
  <-> cur <= g < cur + tile_count (assigned fs paths cur).
Proof.
  revert cur. induction paths as [|p paths IH]; intros cur; cbn [assigned tile_count foldr].
  - split; [intros (a & Ha & _); inversion Ha|lia].
  - set (t := create_tsx fs (set_firstgid cur (new_ImageTileset p))).
    destruct (create_tsx_fields fs cur p) as (_ & Hg & Hc & Hr). fold t in Hg, Hc, Hr.
    fold (tile_count (assigned fs paths (cur + cols t * rows t))).
    specialize (IH (cur + cols t * rows t)).
    assert (Hcount : 0 <= cols t * rows t) by nia.
    assert (Htail : 0 <= tile_count (assigned fs paths (cur + cols t * rows t))).
    { generalize (cur + cols t * rows t). clear. induction paths as [|q qs IHq]; intros c; cbn.
      - lia.
      - destruct (create_tsx_fields fs c q) as (_ & _ & Hc & Hr).
        specialize (IHq (c + cols (create_tsx fs (set_firstgid c (new_ImageTileset q)))
                             * rows (create_tsx fs (set_firstgid c (new_ImageTileset q))))).
        unfold tile_count in IHq. nia. }
    split.
    + intros (a & [->|Ha]%elem_of_cons & Hin).
      * unfold in_gid_range in Hin. lia.
      * assert (Hex : exists a, a ∈ assigned fs paths (cur + cols t * rows t)
                                /\ in_gid_range a g) by eauto.
        apply IH in Hex. lia.
    + intros Hrange. destruct (Z.lt_ge_cases g (cur + cols t * rows t)) as [Hlt|Hge].
      * exists t. split; [apply list_elem_of_here|]. unfold in_gid_range. lia.
      * destruct (proj2 IH ltac:(lia)) as (a & Ha & Hin).
        exists a. split; [now apply list_elem_of_further|assumption].
Qed.

(** X2. The GID ranges of the atlas registry tile the interval that starts
    at 1 without a gap: a GID lies in the range of some atlas entry exactly
    when it is at least 1 and below 1 plus the number of tiles of all
    atlases together. *)
Theorem atlas_ranges_contiguous (tscn_defs : gmap Z TileDefinition)
    (tres_defs : string -> gmap Z TileDefinition) (fs : string -> image_file) (g : Z) :
  let entries := atlas_entries fs (snd (scan_tres tscn_defs tres_defs)) in
  (exists a, a ∈ entries /\ in_gid_range a g) <-> 1 <= g < 1 + tile_count entries.
Proof.
  intros entries. unfold entries.
  rewrite atlas_entries_assigned by apply scan_tres_fresh.
  apply assigned_cover.
Qed.

End RegistryMore.

(** ** The atlas that owns a GID *)

Section ReverseAtlas.
Import TiledToBin.

Lemma insert_desc_perm ts l : insert_desc ts l ≡ₚ ts :: l.
Proof.
  induction l as [|y l IH]; cbn; [reflexivity|].
  destruct (firstgid y <=? firstgid ts); [reflexivity|].
  rewrite IH. apply Permutation_swap.
Qed.

Lemma sort_desc_perm tilesets : sort_desc tilesets ≡ₚ tilesets.
Proof.
  induction tilesets as [|ts l IH]; cbn; [reflexivity|].
  fold (sort_desc l). now rewrite insert_desc_perm, IH.
Qed.

Lemma insert_desc_sorted ts l :
  StronglySorted desc_firstgid l -> StronglySorted desc_firstgid (insert_desc ts l).
Proof.
  induction 1 as [|y l Hl IH Hy]; cbn.
  - repeat constructor.
  - destruct (Z.leb_spec (firstgid y) (firstgid ts)) as [Hle|Hgt].
    + constructor; [now constructor|]. constructor; [exact Hle|].
      eapply Forall_impl; [exact Hy|]. unfold desc_firstgid. intros z Hz. lia.
    + constructor; [assumption|]. rewrite insert_desc_perm.
      constructor; [unfold desc_firstgid; lia|assumption].
Qed.

Lemma sort_desc_sorted tilesets : StronglySorted desc_firstgid (sort_desc tilesets).
Proof.
  induction tilesets as [|ts l IH]; cbn; [constructor|].
  now apply insert_desc_sorted.
Qed.

Lemma insert_desc_stable g ts l :
  with_firstgid g (insert_desc ts l) = with_firstgid g (ts :: l).
Proof.
  unfold with_firstgid. induction l as [|y l IH]; [reflexivity|].
  cbn [insert_desc]. destruct (Z.leb_spec (firstgid y) (firstgid ts)) as [Hle|Hgt];
    [reflexivity|].
  cbn [List.filter] in IH |- *. rewrite IH.
  destruct (Z.eqb_spec (firstgid y) g), (Z.eqb_spec (firstgid ts) g);
    try reflexivity. lia.
Qed.

(** X4. [tilesets.sort(key=firstgid, reverse=True)] keeps every tileset,
    leaves them in descending order of [firstgid], and is stable: tilesets
    with the same [firstgid] stay in the order of the TMX. *)
Theorem sort_desc_stable_descending (tilesets : list TilesetInfo) :
  sort_desc tilesets ≡ₚ tilesets
  /\ StronglySorted desc_firstgid (sort_desc tilesets)
  /\ forall g, with_firstgid g (sort_desc tilesets) = with_firstgid g tilesets.
Proof.
  split; [apply sort_desc_perm|]. split; [apply sort_desc_sorted|].
  intros g. induction tilesets as [|ts l IH]; [reflexivity|].
  cbn [sort_desc foldr]. fold (sort_desc l). rewrite insert_desc_stable.
  unfold with_firstgid in *. cbn [List.filter]. now rewrite IH.
Qed.

Lemma target_tileset_sorted l gid :
  StronglySorted desc_firstgid l ->
  match target_tileset l gid with
  | Some ts => ts ∈ l /\ firstgid ts <= gid
               /\ forall ts', ts' ∈ l -> firstgid ts' <= gid -> firstgid ts' <= firstgid ts
  | None => forall ts', ts' ∈ l -> gid < firstgid ts'
  end.
Proof.
  unfold target_tileset. induction 1 as [|y l Hl IH Hy]; cbn [List.find].
  - intros ts' H. inversion H.
  - destruct (Z.leb_spec (firstgid y) gid) as [Hle|Hgt].
    + split; [apply list_elem_of_here|]. split; [assumption|].
      intros ts' [->|Hin]%elem_of_cons _; [lia|].
      rewrite Forall_forall in Hy. now apply Hy.
    + destruct (List.find _ l) as [ts|].
      * destruct IH as (Hin & Hle & Hmax). split; [now apply list_elem_of_further|].
        split; [assumption|]. intros ts' [->|Hin']%elem_of_cons Hts'; [lia|].
        now apply Hmax.
      * intros ts' [->|Hin]%elem_of_cons; [assumption|now apply IH].
Qed.

(** X5. A GID is resolved to the tileset with the largest [firstgid] that is
    not above it, whatever the order of the tilesets in the TMX; when every
    tileset starts above the GID (or there is none) no tileset is found and
    the cell is written as tile 0 with zero autotile offsets, on every
    layer. *)
Theorem gid_owner_is_largest_firstgid (tilesets : list TilesetInfo) (gid : Z) :
  match target_tileset (sort_desc tilesets) gid with
  | Some ts =>
      ts ∈ tilesets /\ firstgid ts <= gid
      /\ forall ts', ts' ∈ tilesets -> firstgid ts' <= gid -> firstgid ts' <= firstgid ts
  | None =>
      (forall ts', ts' ∈ tilesets -> gid < firstgid ts')
      /\ forall layer_name defs,
           resolve layer_name defs (sort_desc tilesets) gid = Ok (0, 0, 0)
  end.
Proof.
  pose proof (target_tileset_sorted (sort_desc tilesets) gid (sort_desc_sorted tilesets))
    as Hspec.
  destruct (target_tileset (sort_desc tilesets) gid) as [ts|] eqn:Htarget.
  - destruct Hspec as (Hin & Hle & Hmax). rewrite sort_desc_perm in Hin.
    split; [assumption|]. split; [assumption|].
    intros ts' Hts'. apply Hmax. now rewrite sort_desc_perm.
  - split.
    + intros ts' Hts'. apply Hspec. now rewrite sort_desc_perm.
    + intros layer_name defs. unfold resolve. rewrite Htarget.
      now destruct (0 <? gid).
Qed.

End ReverseAtlas.

(** ** What step 1 of [convert] leaves for the decoder *)

Section ScanMore.
Import BinToTiled.

Lemma register_defs_has unique_images (defs : gmap Z TileDefinition) tid d :
  defs !! tid = Some d -> is_Some (register_defs unique_images defs !! texture_path d).
Proof.
  intros Hd. unfold register_defs.
  assert (Hin : texture_path d ∈ ((fun kv => texture_path (snd kv)) <$> map_to_list defs)).
  { apply list_elem_of_fmap. exists (tid, d). split; [reflexivity|].
    now apply elem_of_map_to_list. }
  revert unique_images Hin.
  induction ((fun kv => texture_path (snd kv)) <$> map_to_list defs) as [|p ps IH];
    intros ui Hin.
  - inversion Hin.
  - cbn [foldl]. apply elem_of_cons in Hin as [->|Hin].
    + apply fold_register_keeps, register_image_has.
    + now apply IH.
Qed.

Lemma register_defs_keeps unique_images (defs : gmap Z TileDefinition) q :
  is_Some (unique_images !! q) -> is_Some (register_defs unique_images defs !! q).
Proof. apply fold_register_keeps. Qed.

Lemma generate_tilesets_keeps fs paths unique_images cur q :
  is_Some (unique_images !! q) ->
  is_Some (generate_tilesets fs paths unique_images cur !! q).
Proof.
  revert unique_images cur. induction paths as [|p paths IH]; intros ui cur Hq; cbn.
  - assumption.
  - destruct (ui !! p) eqn:Hp; [|assumption].
    apply IH. rewrite lookup_insert. now destruct (decide (p = q)).
Qed.

Lemma scan_layer_registered tres_defs acc entry :
  textures_registered (fst acc) (snd acc) ->
  textures_registered (fst (scan_layer tres_defs acc entry))
                      (snd (scan_layer tres_defs acc entry)).
Proof.
  destruct acc as [ltd ui], entry as [layer tres_file]. cbn [fst snd scan_layer].
  intros Hinv. destruct (_ || _); [exact Hinv|].
  destruct (ltd !! layer) eqn:Hlayer; [exact Hinv|]. cbn [fst snd].
  intros l defs tid d. rewrite lookup_insert. destruct (decide (layer = l)) as [->|Hne].
  - intros [= <-] Hd. now apply (register_defs_has _ _ tid).
  - intros Hl Hd. apply register_defs_keeps. now apply (Hinv l defs tid).
Qed.

(** X6. After step 1 and step 2 of [convert], the image of every tile
    definition of every layer is a key of [unique_images], and so is the
    icon image of the spawn-marker layer: the decoder's test
    [t_def.texture_path in unique_images] never fails on a definition it
    found, and the spawn-marker branch always has its atlas. The layer
    [Mapbackground] holds the definitions of the scene file and the layer
    [spawnmarker] has none. *)
Theorem scanned_textures_registered (tscn_defs : gmap Z TileDefinition)
    (tres_defs : string -> gmap Z TileDefinition) (fs : string -> image_file) :
  let layer_tile_definitions := fst (scan_tres tscn_defs tres_defs) in
  let unique_images := assign_gids fs (snd (scan_tres tscn_defs tres_defs)) in
  (forall layer (defs : gmap Z TileDefinition) tid d,
      layer_tile_definitions !! layer = Some defs -> defs !! tid = Some d ->
      is_Some (unique_images !! texture_path d))
  /\ is_Some (unique_images !! spawn_icon_path)
  /\ layer_tile_definitions !! "Mapbackground" = Some tscn_defs
  /\ layer_tile_definitions !! "spawnmarker" = None
  /\ (forall layer tres_file,
        (layer, tres_file) ∈ LAYER_CONFIG ->
        tres_file <> "USE_MAIN_TSCN" -> tres_file <> "DIRECT_ICON_MAPPING" ->
        layer_tile_definitions !! layer = Some (tres_defs tres_file)).
Proof.
  intros ltd ui.
  assert (Hinv : textures_registered ltd (snd (scan_tres tscn_defs tres_defs))).
  { unfold ltd, scan_tres.
    set (acc0 := (<["Mapbackground" := tscn_defs]> ∅,
                  register_image (register_defs ∅ tscn_defs) spawn_icon_path)).
    assert (H0 : textures_registered (fst acc0) (snd acc0)).
    { intros layer defs tid d. cbn [fst snd acc0]. rewrite lookup_insert.
      destruct (decide ("Mapbackground" = layer)); [|now rewrite lookup_empty].
      intros [= <-] Hd. apply register_image_keeps. now apply (register_defs_has _ _ tid). }
    clearbody acc0. revert acc0 H0.
    induction LAYER_CONFIG as [|entry entries IH]; intros acc0 H0; cbn [foldl].
    - exact H0.
    - apply IH. now apply scan_layer_registered. }
  split; [|split; [|split; [|split]]].
  - intros layer defs tid d Hl Hd. apply generate_tilesets_keeps.
    now apply (Hinv layer defs tid).
  - apply generate_tilesets_keeps, scan_tres_fresh.
  - unfold ltd. vm_compute. reflexivity.
  - unfold ltd. vm_compute. reflexivity.
  - intros layer tres_file Hin Hmain Hicon. unfold ltd, LAYER_CONFIG in *.
    repeat (apply elem_of_cons in Hin as [[= -> ->]|Hin];
            [first [congruence | vm_compute; reflexivity]|]).
    inversion Hin.
Qed.

End ScanMore.

(** ** The forward codec, cell by cell *)

Section ForwardCell.
Import BinToTiled.

(** X7. On the spawn-marker layer a stored tile index is mapped straight
    into the icon atlas: an index below the tile count of the atlas gives
    [firstgid + index], any other index falls back to [firstgid]; no
    definition is consulted, no exception is raised and the flip bit is never
    set. With an atlas of at least one tile the GID is therefore always
    inside the range of the icon atlas. *)
Theorem icon_layer_gid (unique_images : gmap string ImageTileset)
    (tile_defs : gmap Z TileDefinition) (img_ts : ImageTileset)
    (tile_id auto_x auto_y : Z) (flip : bool) :
  unique_images !! spawn_icon_path = Some img_ts ->
  0 <= tile_id ->
  cell_gid unique_images "spawnmarker" tile_defs tile_id auto_x auto_y flip
  = Ok (if tile_id <? cols img_ts * rows img_ts
        then firstgid img_ts + tile_id else firstgid img_ts)
  /\ (0 < cols img_ts * rows img_ts ->
      exists g, cell_gid unique_images "spawnmarker" tile_defs tile_id auto_x auto_y flip
                = Ok g /\ in_gid_range img_ts g).
Proof.
  intros Hicon Htile. unfold cell_gid.
  replace (0 <=? tile_id) with true by lia. cbn [String.eqb Ascii.eqb Bool.eqb].
  change ("spawnmarker" =? "spawnmarker")%string with true. cbv iota.
  rewrite Hicon. split.
  - now destruct (tile_id <? cols img_ts * rows img_ts).
  - intros Hcount. unfold in_gid_range.
    destruct (Z.ltb_spec tile_id (cols img_ts * rows img_ts));
      eexists; (split; [reflexivity|lia]).
Qed.

(** X7, at the icon atlas of three by three tiles: index 4 is GID 5 and
    index 200, beyond the nine tiles, falls back to GID 1. *)
Lemma icon_layer_gid_witness :
  cell_gid icon_images "spawnmarker" ∅ 4 0 0 false = Ok 5
  /\ cell_gid icon_images "spawnmarker" ∅ 200 0 0 false = Ok 1.
Proof.
  split.
  - exact (proj1 (icon_layer_gid icon_images ∅ _ 4 0 0 false eq_refl
                    (Z.le_trans 0 0 4 (Z.le_refl 0) ltac:(discriminate)))).
  - exact (proj1 (icon_layer_gid icon_images ∅ _ 200 0 0 false eq_refl
                    ltac:(discriminate))).
Defined.

(** X8. A cell is the empty GID 0, without an exception, in each of these
    cases: its stored byte is 0; its layer is not the spawn-marker layer and
    has no definition for the tile; the image of the definition is not
    registered. The autotile bytes and the flip byte of such a cell have no
    effect. *)
Theorem unresolved_cell_is_empty (unique_images : gmap string ImageTileset)
    (layer_name : string) (tile_defs : gmap Z TileDefinition)
    (tile_id auto_x auto_y : Z) (flip : bool) :
  (tile_id < 0 ->
   cell_gid unique_images layer_name tile_defs tile_id auto_x auto_y flip = Ok 0)
  /\ (layer_name <> "spawnmarker" -> tile_defs !! tile_id = None ->
      cell_gid unique_images layer_name tile_defs tile_id auto_x auto_y flip = Ok 0)
  /\ (layer_name <> "spawnmarker" ->
      forall t_def, tile_defs !! tile_id = Some t_def ->
        unique_images !! texture_path t_def = None ->
        cell_gid unique_images layer_name tile_defs tile_id auto_x auto_y flip = Ok 0).
Proof.
  unfold cell_gid. split; [|split].
  - intros Hneg. now replace (0 <=? tile_id) with false by lia.
  - intros Hname Hmiss. apply String.eqb_neq in Hname. rewrite Hname, Hmiss.
    now destruct (0 <=? tile_id).
  - intros Hname t_def Hdef Himg. apply String.eqb_neq in Hname.
    rewrite Hname, Hdef, Himg. now destruct (0 <=? tile_id).
Qed.

(** X8, on the layer [Map] with no definitions and no images. *)
Lemma unresolved_cell_is_empty_witness :
  cell_gid ∅ "Map" ∅ (-1) 7 9 true = Ok 0
  /\ cell_gid ∅ "Map" ∅ 5 7 9 true = Ok 0
  /\ cell_gid ∅ "Map" {[ 5 := scenario_fwd_def "Tilemaps/t.png" 1 ]} 5 7 9 true = Ok 0.
Proof.
  pose proof (unresolved_cell_is_empty ∅ "Map" ∅ (-1) 7 9 true) as (A & _ & _).
  pose proof (unresolved_cell_is_empty ∅ "Map" ∅ 5 7 9 true) as (_ & B & _).
  pose proof (unresolved_cell_is_empty ∅ "Map"
                {[ 5 := scenario_fwd_def "Tilemaps/t.png" 1 ]} 5 7 9 true) as (_ & _ & C).
  split; [|split].
  - exact (A eq_refl).
  - exact (B ltac:(discriminate) eq_refl).
  - exact (C ltac:(discriminate) _ eq_refl eq_refl).
Defined.

End ForwardCell.

(** ** The layout of the binary stream *)

Section StreamLayout.
Import BinToTiled.
Variable bin_data : list Byte.byte.
Variable unique_images : gmap string ImageTileset.
Variable layer_tile_definitions : gmap string (gmap Z TileDefinition).

Lemma advanced_in_bounds st st' k :
  advanced (length bin_data) st st' k ->
  (ptr st + k <= length bin_data)%nat ->
  ptr st' = (ptr st + k)%nat /\ stdout st' = stdout st.
Proof.
  intros [Hptr Hout] Hfit. split; [lia|].
  rewrite Hout. replace (ptr st + k - ptr st')%nat with 0%nat by lia.
  cbn. apply app_nil_r.
Qed.

(** X9. Every cell takes exactly one byte plus the auxiliary bytes of the
    encoding type from the stream, whatever its tile index and whatever GID
    it is decoded to, so the cells that follow stay aligned: when the bytes
    are there, reading a cell moves the cursor by 1 + aux and prints
    nothing, and reading a list of layers of width*height cells moves it by
    the sum of width*height*(bytes per cell) over those layers. *)
Theorem cells_keep_alignment (width height : Z) (layer_name : string) (parse_type : Z)
    (tile_defs : gmap Z TileDefinition) (names : list string)
    (acc : gmap string (list (list Z))) (st : reader) :
  (forall g st',
      read_cell bin_data unique_images layer_name parse_type tile_defs st = Ok (g, st') ->
      (ptr st + S (aux_bytes parse_type) <= length bin_data)%nat ->
      ptr st' = (ptr st + S (aux_bytes parse_type))%nat /\ stdout st' = stdout st)
  /\ (forall parsed_layers st',
        parse_layers bin_data unique_images layer_tile_definitions width height
                     names acc st = Ok (parsed_layers, st') ->
        let size := sum_list ((fun name => Z.to_nat width * Z.to_nat height
                                           * bytes_per_cell name)%nat <$> names) in
        (ptr st + size <= length bin_data)%nat ->
        ptr st' = (ptr st + size)%nat /\ stdout st' = stdout st).
Proof.
  split.
  - intros g st' Hrun Hfit. apply advanced_in_bounds; [|assumption].
    eapply reads_read_cell; [|exact Hrun]. lia.
  - intros parsed_layers st' Hrun size Hfit. apply advanced_in_bounds; [|assumption].
    eapply reads_parse_layers; [|exact Hrun]. lia.
Qed.

Lemma byte_val_range b : 0 <= byte_val b <= 255.
Proof. unfold byte_val. pose proof (Byte.to_N_bounded b). lia. Qed.

Lemma get8_range st v st' : get8 bin_data st = Ok (v, st') -> 0 <= v <= 255.
Proof.
  unfold get8. destruct (bin_data !! ptr st) as [b|]; intros [= <- _]; [|lia].
  apply byte_val_range.
Qed.

Lemma parse_layers_shape width height names acc st parsed_layers st' :
  parse_layers bin_data unique_images layer_tile_definitions width height names acc st
  = Ok (parsed_layers, st') ->
  (forall name, name ∈ names ->
     exists rows, parsed_layers !! name = Some rows
                  /\ length rows = Z.to_nat height
                  /\ Forall (fun row => length row = Z.to_nat width) rows)
  /\ (forall name, name ∉ names -> parsed_layers !! name = acc !! name).
Proof.
  revert acc st. induction names as [|name names IH]; intros acc st; cbn [parse_layers].
  - intros [= <- _]. split; [intros n H; inversion H|reflexivity].
  - unfold mbind at 1, M_bind at 1.
    destruct (parse_layer _ _ _ width height name st) as [[rows st1]|e] eqn:Hlayer;
      [|discriminate].
    intros Hrest. destruct (IH _ _ Hrest) as [Hin Hout]. split.
    + intros n Hn. destruct (decide (n ∈ names)) as [Hmem|Hmem]; [now apply Hin|].
      apply elem_of_cons in Hn as [->|Hn]; [|contradiction].
      rewrite Hout by assumption. rewrite lookup_insert_eq.
      exists rows. split; [reflexivity|].
      unfold parse_layer, mbind, M_bind in Hlayer.
      destruct (read_layer _ _ _ _ _ _ _ _) as [[layer_gids st2]|e]; [|discriminate].
      injection Hlayer as <- _. apply tiled_rows_shape.
    + intros n Hn. apply not_elem_of_cons in Hn as [Hne Hn].
      rewrite Hout by assumption. now apply lookup_insert_ne.
Qed.

(** X10. On every run of step 3 that returns, the level size is a pair of
    bytes (0..255 each), each of the 17 layers of the read order is parsed
    into [height] rows of [width] GIDs, whether or not the stream was long
    enough, and no other layer is produced. *)
Theorem parsed_layers_complete (width height : Z)
    (parsed_layers : gmap string (list (list Z))) (st' : reader) :
  parse_binary bin_data unique_images layer_tile_definitions start
  = Ok (width, height, parsed_layers, st') ->
  0 <= width <= 255 /\ 0 <= height <= 255
  /\ (forall name, name ∈ BINARY_READ_ORDER ->
        exists rows, parsed_layers !! name = Some rows
                     /\ length rows = Z.to_nat height
                     /\ Forall (fun row => length row = Z.to_nat width) rows)
  /\ (forall name, name ∉ BINARY_READ_ORDER -> parsed_layers !! name = None).
Proof.
  unfold parse_binary, mbind, M_bind.
  destruct (get8 bin_data start) as [[w st1]|e] eqn:Hw; [|discriminate].
  destruct (get8 bin_data st1) as [[h st2]|e] eqn:Hh; [|discriminate].
  destruct (parse_layers _ _ _ w h BINARY_READ_ORDER ∅ st2)
    as [[pl st3]|e] eqn:Hlayers; [|discriminate].
  intros [= <- <- <- <-].
  apply get8_range in Hw, Hh. apply parse_layers_shape in Hlayers as [Hin Hout].
  repeat split; try lia; try assumption.
Qed.

End StreamLayout.

(** X9, at the six icon cells: the second cell is read from offset 1 to
    offset 2. *)
Lemma cells_keep_alignment_witness :
  BinToTiled.ptr
    (snd (match BinToTiled.read_cell icon_bin icon_images "spawnmarker"
                  BinToTiled.TYPE_SIMPLE ∅
                  {| BinToTiled.ptr := 1; BinToTiled.stdout := [] |} with
          | Ok r => r
          | Raise _ => (0, start)
          end)) = 2%nat.
Proof.
  destruct (BinToTiled.read_cell icon_bin icon_images "spawnmarker"
              BinToTiled.TYPE_SIMPLE ∅
              {| BinToTiled.ptr := 1; BinToTiled.stdout := [] |})
    as [[g st']|e] eqn:Hrun.
  - exact (proj1 (proj1 (cells_keep_alignment icon_bin icon_images ∅ 2 3 "spawnmarker"
                           BinToTiled.TYPE_SIMPLE ∅ [] ∅
                           {| BinToTiled.ptr := 1; BinToTiled.stdout := [] |})
                    g st' Hrun (le_S _ _ (le_S _ _ (le_S _ _ (le_S _ _ (le_n 2))))))).
  - vm_compute in Hrun. discriminate Hrun.
Defined.

(** X10, at the level file cut after 5 bytes: the layer [watermaptops], of
    which the file holds no byte, is still one row of one GID. *)
Lemma parsed_layers_complete_witness :
  exists rows, cut_layers !! "watermaptops" = Some rows /\ length rows = 1%nat.
Proof.
  assert (H : BinToTiled.parse_binary left_of_atlas_bin ∅ ∅ start
              = Ok (1, 1, cut_layers, cut_end)) by (vm_compute; reflexivity).
  destruct (proj1 (proj2 (proj2 (parsed_layers_complete left_of_atlas_bin ∅ ∅
                                   1 1 cut_layers cut_end H)))
              "watermaptops" ltac:(vm_compute; repeat constructor))
    as (rows & Hrows & Hlen & _).
  exists rows. now split.
Defined.

(** ** The grid of a TMX layer *)

Section GridMore.
Import TiledToBin.

Lemma shaped_ext w h (g1 g2 : list (list Z)) :
  shaped w h g1 -> shaped w h g2 ->
  (forall x y, (x < w)%nat -> (y < h)%nat -> grid_get g1 x y = grid_get g2 x y) ->
  g1 = g2.
Proof.
  intros [Hl1 Hc1] [Hl2 Hc2] Hget.
  apply (list_eq_same_length _ _ w); [assumption..|].
  intros x c1 c2 Hx H1 H2.
  pose proof (Forall_lookup_1 _ _ _ _ Hc1 H1) as Hlen1.
  pose proof (Forall_lookup_1 _ _ _ _ Hc2 H2) as Hlen2. cbn in Hlen1, Hlen2.
  apply (list_eq_same_length _ _ h); [assumption..|].
  intros y v1 v2 Hy Hv1 Hv2.
  specialize (Hget x y Hx Hy). rewrite !grid_get_lookup, H1, H2 in Hget. cbn in Hget.
  now rewrite Hv1, Hv2 in Hget.
Qed.

Lemma fill_grid_ok w h i gids grid :
  w <> 0 -> exists grid', fill_grid w h i gids grid = Ok grid'.
Proof.
  intros Hw. revert i grid. induction gids as [|g gids IH]; intros i grid; cbn.
  - eauto.
  - destruct (Z.eqb_spec w 0); [contradiction|]. apply IH.
Qed.

Lemma fill_grid_negative w h i gids grid :
  w < 0 -> fill_grid w h i gids grid = Ok grid.
Proof.
  intros Hw. revert i grid. induction gids as [|g gids IH]; intros i grid; cbn.
  - reflexivity.
  - destruct (Z.eqb_spec w 0); [lia|].
    pose proof (Z.mod_neg_bound i w Hw).
    replace (i mod w <? w) with false by lia. cbn [andb]. apply IH.
Qed.

(** X11. Building the grid of a layer from its CSV numbers raises
    [ZeroDivisionError] exactly when the map width is 0 and the layer has at
    least one number, and nothing else. With a positive width the grid has
    [width] columns of [height] cells, the numbers beyond the first
    width*height are ignored, and the cells a short list does not reach are
    0; with a negative width the grid is empty. *)
Theorem layer_grid_behaviour (map_width map_height : Z) (gids : list Z) :
  (forall e, layer_grid map_width map_height gids = Raise e <->
             e = ZeroDivisionError /\ map_width = 0 /\ gids <> [])
  /\ (0 < map_width ->
      exists grid,
        layer_grid map_width map_height gids = Ok grid
        /\ shaped (Z.to_nat map_width) (Z.to_nat map_height) grid
        /\ layer_grid map_width map_height
             (take (Z.to_nat map_width * Z.to_nat map_height) gids) = Ok grid)
  /\ (map_width < 0 -> layer_grid map_width map_height gids = Ok []).
Proof.
  split; [|split].
  - intros e. split.
    + intros Hraise. unfold layer_grid in Hraise.
      destruct (fill_grid_raise _ _ _ _ _ _ Hraise) as [-> ->].
      repeat split. intros ->. discriminate Hraise.
    + intros (-> & -> & Hne). destruct gids as [|g gids]; [contradiction|]. reflexivity.
  - intros Hw.
    destruct (fill_grid_ok map_width map_height 0 gids
                (replicate (Z.to_nat map_width) (replicate (Z.to_nat map_height) 0))
                ltac:(lia)) as [grid Hgrid].
    destruct (fill_grid_ok map_width map_height 0
                (take (Z.to_nat map_width * Z.to_nat map_height) gids)
                (replicate (Z.to_nat map_width) (replicate (Z.to_nat map_height) 0))
                ltac:(lia)) as [grid' Hgrid'].
    fold (layer_grid map_width map_height gids) in Hgrid.
    fold (layer_grid map_width map_height
            (take (Z.to_nat map_width * Z.to_nat map_height) gids)) in Hgrid'.
    destruct (layer_grid_spec _ _ _ _ Hw Hgrid) as [Hshape Hget].
    destruct (layer_grid_spec _ _ _ _ Hw Hgrid') as [Hshape' Hget'].
    exists grid. split; [assumption|]. split; [assumption|].
    rewrite Hgrid'. f_equal.
    apply (shaped_ext (Z.to_nat map_width) (Z.to_nat map_height)); [assumption..|].
    intros x y Hx Hy.
    specialize (Hget (Z.of_nat x) (Z.of_nat y) ltac:(lia) ltac:(lia)).
    specialize (Hget' (Z.of_nat x) (Z.of_nat y) ltac:(lia) ltac:(lia)).
    rewrite !Nat2Z.id in Hget, Hget'. rewrite Hget, Hget'.
    rewrite !nth_lookup, lookup_take_lt; [reflexivity|]. nia.
  - intros Hw. unfold layer_grid. rewrite fill_grid_negative by assumption.
    now replace (Z.to_nat map_width) with 0%nat by lia.
Qed.

(** X11, at a 2x3 map: seven numbers give the same grid as the first six,
    and a map of width 0 makes the first number raise. *)
Lemma layer_grid_behaviour_witness :
  layer_grid 2 3 [1; 2; 3; 4; 5; 6; 7] = layer_grid 2 3 [1; 2; 3; 4; 5; 6]
  /\ layer_grid 0 3 [1] = Raise ZeroDivisionError
  /\ layer_grid (-2) 3 [1; 2] = Ok [].
Proof.
  pose proof (layer_grid_behaviour 2 3 [1; 2; 3; 4; 5; 6; 7]) as (_ & P & _).
  pose proof (layer_grid_behaviour 0 3 [1]) as (Z0 & _ & _).
  pose proof (layer_grid_behaviour (-2) 3 [1; 2]) as (_ & _ & N).
  split; [|split].
  - destruct (P eq_refl) as (grid & Hfull & _ & Htake).
    exact (eq_trans Hfull (eq_sym Htake)).
  - apply Z0. split; [reflexivity|]. split; [reflexivity|discriminate].
  - exact (N eq_refl).
Defined.

(** X12. The two transpositions are inverse to each other: the grid the
    reverse conversion builds from the flat row-major array that the forward
    conversion writes for a layer is the column grid the forward conversion
    read, for every level size. *)
Theorem grid_of_written_rows (bin_data : list Byte.byte)
    (unique_images : gmap string BinToTiled.ImageTileset) (width height : Z)
    (layer_name : string) (parse_type : Z)
    (tile_defs : gmap Z BinToTiled.TileDefinition)
    (st st' : BinToTiled.reader) (layer_gids : list (list Z)) :
  BinToTiled.read_layer bin_data unique_images width height layer_name parse_type
                        tile_defs st = Ok (layer_gids, st') ->
  layer_grid width height
             (BinToTiled.flat_gids (BinToTiled.tiled_rows width height layer_gids))
  = Ok layer_gids.
Proof.
  intros Hread. pose proof (repeatM_length _ _ _ _ _ Hread) as Hlen.
  apply repeatM_nested in Hread as [_ Hcols].
  destruct (Z.lt_ge_cases 0 width) as [Hw|Hw].
  - destruct (fill_grid_ok width height 0
                (BinToTiled.flat_gids (BinToTiled.tiled_rows width height layer_gids))
                (replicate (Z.to_nat width) (replicate (Z.to_nat height) 0))
                ltac:(lia)) as [grid Hgrid].
    fold (layer_grid width height
            (BinToTiled.flat_gids (BinToTiled.tiled_rows width height layer_gids)))
      in Hgrid.
    rewrite Hgrid. f_equal.
    destruct (layer_grid_spec _ _ _ _ Hw Hgrid) as [Hshape Hget].
    apply (shaped_ext (Z.to_nat width) (Z.to_nat height)); [assumption|now split|].
    intros x y Hx Hy.
    specialize (Hget (Z.of_nat x) (Z.of_nat y) ltac:(lia) ltac:(lia)).
    rewrite !Nat2Z.id in Hget. rewrite Hget.
    replace (Z.to_nat (Z.of_nat y * width + Z.of_nat x))
      with (y * Z.to_nat width + x)%nat by nia.
    now rewrite tiled_rows_nth.
  - replace (Z.to_nat width) with 0%nat in * by lia.
    destruct layer_gids; [|discriminate].
    assert (Hflat : BinToTiled.flat_gids (BinToTiled.tiled_rows width height []) = []).
    { unfold BinToTiled.flat_gids, BinToTiled.tiled_rows.
      replace (Z.to_nat width) with 0%nat by lia. cbn.
      induction (seq 0 (Z.to_nat height)); [reflexivity|assumption]. }
    rewrite Hflat. unfold layer_grid. cbn.
    now replace (Z.to_nat width) with 0%nat by lia.
Qed.

End GridMore.

(** X12, at the six icon cells of a 2x3 layer. *)
Lemma grid_of_written_rows_witness :
  TiledToBin.layer_grid 2 3
    (BinToTiled.flat_gids (BinToTiled.tiled_rows 2 3 icon_columns))
  = Ok icon_columns.
Proof.
  apply (grid_of_written_rows icon_bin icon_images 2 3 "spawnmarker"
           BinToTiled.TYPE_SIMPLE ∅ start
           {| BinToTiled.ptr := 6; BinToTiled.stdout := [] |}).
  vm_compute. reflexivity.
Defined.

(** ** The two conversions together *)

Section Together.

Lemma pack_B_byte_val v b : TiledToBin.pack_B v = Ok b -> BinToTiled.byte_val b = v.
Proof.
  unfold TiledToBin.pack_B, BinToTiled.byte_val.
  destruct (Z.leb_spec 0 v), (Z.leb_spec v 255); cbn [andb]; try discriminate.
  destruct (Byte.of_N (Z.to_N v)) as [b'|] eqn:Hb; [|discriminate].
  intros [= <-]. apply Byte.to_of_N in Hb. rewrite Hb. lia.
Qed.

Lemma parse_binary_advanced bin_data unique_images layer_tile_definitions
    width height parsed_layers st' :
  BinToTiled.parse_binary bin_data unique_images layer_tile_definitions start
  = Ok (width, height, parsed_layers, st') ->
  (exists st1 st2,
      BinToTiled.get8 bin_data start = Ok (width, st1)
      /\ BinToTiled.get8 bin_data st1 = Ok (height, st2))
  /\ advanced (length bin_data) start st' (expected_size width height).
Proof.
  unfold BinToTiled.parse_binary, mbind, BinToTiled.M_bind.
  destruct (BinToTiled.get8 bin_data start) as [[w st1]|e] eqn:Hw; [|discriminate].
  destruct (BinToTiled.get8 bin_data st1) as [[h st2]|e] eqn:Hh; [|discriminate].
  destruct (BinToTiled.parse_layers _ _ _ w h BinToTiled.BINARY_READ_ORDER ∅ st2)
    as [[pl st3]|e] eqn:Hlayers; [|discriminate].
  intros [= <- <- <- <-]. split; [now exists st1, st2|].
  assert (H0 : (BinToTiled.ptr start <= length bin_data)%nat) by (cbn; lia).
  pose proof (reads_get8 bin_data _ _ _ H0 Hw) as A1.
  pose proof (reads_get8 bin_data _ _ _ (advanced_bound bin_data _ _ _ A1) Hh) as A2.
  pose proof (advanced_trans bin_data _ _ _ _ _ H0 A1 A2) as A12.
  pose proof (reads_parse_layers bin_data unique_images layer_tile_definitions
                w h BinToTiled.BINARY_READ_ORDER ∅ _ _ _
                (advanced_bound bin_data _ _ _ A12) Hlayers) as A3.
  pose proof (advanced_trans bin_data _ _ _ _ _ H0 A12 A3) as A.
  change (1 + 1 + ?n)%nat with (2 + n)%nat in A.
  now rewrite (read_order_size bin_data) in A.
Qed.

(** X13. A file written by the reverse conversion is a full level for the
    forward conversion: reading it back yields the width and the height of
    the TMX, never runs past the end of the stream (no "OVERFLOW PTR !!" line
    is printed) and stops one byte before the end, on the trailing zero,
    which is never read. *)
Theorem written_file_reads_back
    (layer_definitions : gmap string (list TiledToBin.TileDefinition))
    (t : TiledToBin.tmx) (out : list Byte.byte)
    (unique_images : gmap string BinToTiled.ImageTileset)
    (layer_tile_definitions : gmap string (gmap Z BinToTiled.TileDefinition))
    (width height : Z) (parsed_layers : gmap string (list (list Z)))
    (st' : BinToTiled.reader) :
  TiledToBin.convert_tmx_to_bin layer_definitions t = Ok out ->
  BinToTiled.parse_binary out unique_images layer_tile_definitions start
  = Ok (width, height, parsed_layers, st') ->
  width = TiledToBin.map_width t /\ height = TiledToBin.map_height t
  /\ BinToTiled.stdout st' = []
  /\ S (BinToTiled.ptr st') = length out
  /\ out !! BinToTiled.ptr st' = Some Byte.x00.
Proof.
  intros Hwrite Hread. unfold TiledToBin.convert_tmx_to_bin in Hwrite.
  destruct (TiledToBin.read_layers _ _ _ _) as [tmx_layers|e];
    cbn [mbind res_bind] in Hwrite; [|discriminate].
  destruct (TiledToBin.pack_B (TiledToBin.map_width t)) as [bw|e] eqn:Hbw;
    cbn [mbind res_bind] in Hwrite; [|discriminate].
  destruct (TiledToBin.pack_B (TiledToBin.map_height t)) as [bh|e] eqn:Hbh;
    cbn [mbind res_bind] in Hwrite; [|discriminate].
  destruct (TiledToBin.for_each (TiledToBin.write_layer _ _ _ _ _)
              TiledToBin.BINARY_WRITE_ORDER) as [body|e] eqn:Hbody;
    cbn [mbind res_bind] in Hwrite; [|discriminate].
  injection Hwrite as <-.
  apply pack_B_byte_val in Hbw, Hbh.
  apply (for_each_concat_length _
           (fun name => (Z.to_nat (TiledToBin.map_width t)
                         * Z.to_nat (TiledToBin.map_height t)
                         * bytes_per_cell name)%nat)) in Hbody.
  2:{ intros name bs. apply write_layer_length. }
  apply parse_binary_advanced in Hread as [(st1 & st2 & Hg1 & Hg2) [Hptr Hout]].
  assert (Hw : width = TiledToBin.map_width t /\ height = TiledToBin.map_height t).
  { unfold BinToTiled.get8 in Hg1. cbn in Hg1. injection Hg1 as <- <-.
    unfold BinToTiled.get8 in Hg2. cbn in Hg2. injection Hg2 as <- _.
    now split. }
  destruct Hw as [-> ->]. clear Hg1 Hg2.
  set (size := expected_size (TiledToBin.map_width t) (TiledToBin.map_height t)) in *.
  assert (Hbody' : length (concat body) = (size - 2)%nat).
  { rewrite Hbody. change TiledToBin.BINARY_WRITE_ORDER with BinToTiled.BINARY_READ_ORDER.
    pose proof (read_order_size [] (TiledToBin.map_width t) (TiledToBin.map_height t))
      as Hsz.
    fold size in Hsz. change (fmap ?f ?l) with (map f l) in Hsz. lia. }
  assert (Hsize : (2 <= size)%nat) by (unfold size, expected_size; lia).
  assert (Hlen : length (bw :: bh :: (concat body ++ [Byte.x00]))%list = S size).
  { cbn [length]. rewrite length_app, Hbody'. cbn [length]. lia. }
  change ([bw; bh] ++ concat body ++ [Byte.x00])%list
    with (bw :: bh :: (concat body ++ [Byte.x00]))%list in *.
  rewrite Hlen in Hptr. cbn [start BinToTiled.ptr BinToTiled.stdout] in Hptr, Hout.
  cbn [Nat.add app] in Hptr, Hout.
  assert (Hp : BinToTiled.ptr st' = size) by lia.
  split; [reflexivity|]. split; [reflexivity|]. split; [|split].
  - rewrite Hout, Hp. now rewrite Nat.sub_diag.
  - rewrite Hlen. now f_equal.
  - rewrite Hp.
    replace (bw :: bh :: (concat body ++ [Byte.x00]))%list
      with (([bw; bh] ++ concat body) ++ [Byte.x00])%list
      by (now rewrite <- app_assoc).
    assert (Hpre : length ([bw; bh] ++ concat body)%list = size).
    { rewrite length_app, Hbody'. cbn [length]. lia. }
    rewrite lookup_app_r by lia. now rewrite Hpre, Nat.sub_diag.
Qed.

End Together.

(** X13, at the file of the 2x3 map: it is read back as a 2x3 level, with
    nothing printed, up to its 230th byte. *)
Lemma written_file_reads_back_witness :
  BinToTiled.parse_binary small_map_bin ∅ ∅ start
  = Ok (2, 3, small_read_layers, small_read_end)
  /\ BinToTiled.stdout small_read_end = []
  /\ S (BinToTiled.ptr small_read_end) = 231%nat.
Proof.
  assert (Hwrite : TiledToBin.convert_tmx_to_bin small_defs small_map = Ok small_map_bin)
    by (vm_compute; reflexivity).
  assert (Hread : BinToTiled.parse_binary small_map_bin ∅ ∅ start
                  = Ok (2, 3, small_read_layers, small_read_end))
    by (vm_compute; reflexivity).
  pose proof (written_file_reads_back small_defs small_map small_map_bin ∅ ∅ 2 3
                small_read_layers small_read_end Hwrite Hread)
    as (_ & _ & Hout & Hptr & _).
  split; [exact Hread|]. split; [exact Hout|exact Hptr].
Defined.

(** ** What the reverse codec makes of a forward GID *)

Section CellsTogether.
Import TiledToBin.

Lemma land_mask g : Z.land g GID_MASK = g mod 2 ^ 29.
Proof. change GID_MASK with (Z.ones 29). apply Z.land_ones. lia. Qed.

Lemma lor_flag_bits g n :
  0 <= n ->
  Z.testbit (Z.lor g BinToTiled.FLIPPED_HORIZONTALLY_FLAG) n
  = Z.testbit g n || (n =? 31).
Proof.
  intros Hn. change BinToTiled.FLIPPED_HORIZONTALLY_FLAG with (2 ^ 31).
  rewrite Z.lor_spec. f_equal. destruct (Z.eqb_spec n 31) as [->|Hne].
  - apply Z.pow2_bits_true. lia.
  - apply Z.pow2_bits_false. lia.
Qed.

(** X14. The reverse codec takes the flip boolean from bit 31 and the GID
    from the low 29 bits of a cell value (the value modulo 2^29). A GID
    below 2^29 therefore comes back unchanged, with the flip boolean set
    exactly when the forward codec or-ed the flag into it; a non-negative
    GID of 2^29 or more does not come back: its bits 29 and 30 are lost. *)
Theorem flip_flag_roundtrip (g : Z) :
  Z.land g GID_MASK = g mod 2 ^ 29
  /\ flipped g = Z.testbit g 31
  /\ (0 <= g < 2 ^ 29 ->
      Z.land (Z.lor g BinToTiled.FLIPPED_HORIZONTALLY_FLAG) GID_MASK = g
      /\ flipped (Z.lor g BinToTiled.FLIPPED_HORIZONTALLY_FLAG) = true
      /\ Z.land g GID_MASK = g /\ flipped g = false)
  /\ (2 ^ 29 <= g -> Z.land g GID_MASK <> g).
Proof.
  split; [apply land_mask|]. split; [apply flipped_testbit|]. split.
  - intros Hg. split; [|split; [|split]].
    + rewrite land_mask. rewrite <- (Z.mod_small g (2 ^ 29)) at 2 by lia.
      rewrite <- !Z.land_ones by lia. apply Z.bits_inj'. intros n Hn.
      rewrite !Z.land_spec, lor_flag_bits by assumption.
      destruct (Z.ltb_spec n 29).
      * replace (n =? 31) with false by lia. now rewrite orb_false_r.
      * rewrite Z.ones_spec_high by lia. now rewrite !andb_false_r.
    + rewrite flipped_testbit, lor_flag_bits by lia. apply orb_true_r.
    + rewrite land_mask. apply Z.mod_small. lia.
    + rewrite flipped_testbit. apply Z.bits_above_log2; [lia|].
      destruct (Z.eq_dec g 0) as [->|Hne]; [cbn; lia|].
      apply Z.log2_lt_pow2; lia.
  - intros Hg. rewrite land_mask.
    pose proof (Z.mod_pos_bound g (2 ^ 29) ltac:(lia)). lia.
Qed.

(** X14, at GID 3 with the flag and at GID 2^29 + 3. *)
Lemma flip_flag_roundtrip_witness :
  (0 <= 3 < 2 ^ 29
   /\ Z.land (Z.lor 3 BinToTiled.FLIPPED_HORIZONTALLY_FLAG) GID_MASK = 3)
  /\ (2 ^ 29 <= 2 ^ 29 + 3 /\ Z.land (2 ^ 29 + 3) GID_MASK <> 2 ^ 29 + 3).
Proof.
  assert (Hlow : 0 <= 3 < 2 ^ 29) by lia.
  assert (Hhigh : 2 ^ 29 <= 2 ^ 29 + 3) by lia.
  split; (split; [assumption|]).
  - pose proof (flip_flag_roundtrip 3) as (_ & _ & Hback & _).
    exact (proj1 (Hback Hlow)).
  - pose proof (flip_flag_roundtrip (2 ^ 29 + 3)) as (_ & _ & _ & Hlost).
    exact (Hlost Hhigh).
Defined.

(** X15. When a GID above 0 has a tileset but no definition of the layer is
    accepted for its pixel, the reverse codec writes tile 0 with zero
    autotile offsets, except on the layer [Mapbackground]: there it takes
    the first definition of the layer and uses the grid coordinate of the
    GID inside its atlas as the autotile offsets (and writes tile 0 only
    when the layer has no definition at all). *)
Theorem unmatched_gid_policy (layer_name : string) (defs : list TileDefinition)
    (tilesets : list TilesetInfo) (gid : Z) (ts : TilesetInfo) :
  0 < gid ->
  target_tileset tilesets gid = Some ts ->
  layer_name <> "spawnmarker" ->
  let img_grid_x := fst (img_grid ts (gid - firstgid ts)) in
  let img_grid_y := snd (img_grid ts (gid - firstgid ts)) in
  (forall d, d ∈ defs ->
     candidate (image_path ts) d (img_grid_x * TILE_SIZE) (img_grid_y * TILE_SIZE) = false) ->
  resolve layer_name defs tilesets gid
  = Ok (if String.eqb layer_name "Mapbackground"
        then match defs with
             | d :: _ => (godot_id d + 1, img_grid_x, img_grid_y)
             | [] => (0, 0, 0)
             end
        else (0, 0, 0)).
Proof.
  intros Hgid Htarget Hname gx gy Hnone. unfold resolve.
  replace (0 <? gid) with true by lia. rewrite Htarget.
  apply String.eqb_neq in Hname. rewrite Hname.
  destruct (img_grid ts (gid - firstgid ts)) as [x y] eqn:Hgrid.
  cbn [fst snd] in gx, gy. subst gx gy.
  unfold get_godot_tile_from_pixel. fold (normalised (image_path ts)).
  rewrite search_defs_none by exact Hnone. cbn [mbind res_bind].
  destruct (String.eqb layer_name "Mapbackground"); [|reflexivity].
  now destruct defs.
Qed.

(** X15, at GID 3 of the scenario: on [Mapbackground] the first definition
    with offsets (2, 0), on [Map] the empty tile. *)
Lemma unmatched_gid_policy_witness :
  resolve "Mapbackground" [scenario_rev_def "Tilemaps/t.png"]
          [scenario_rev_atlas "Tilemaps/t.png"] 3 = Ok (6, 2, 0)
  /\ resolve "Map" [scenario_rev_def "Tilemaps/t.png"]
             [scenario_rev_atlas "Tilemaps/t.png"] 3 = Ok (0, 0, 0).
Proof.
  assert (Hnone : forall d, d ∈ [scenario_rev_def "Tilemaps/t.png"] ->
            candidate (Some "Tilemaps/t.png") d (2 * TILE_SIZE) (0 * TILE_SIZE) = false).
  { intros d Hd. apply elem_of_cons in Hd as [->|Hd]; [reflexivity|inversion Hd]. }
  split.
  - exact (unmatched_gid_policy "Mapbackground" [scenario_rev_def "Tilemaps/t.png"]
             [scenario_rev_atlas "Tilemaps/t.png"] 3 (scenario_rev_atlas "Tilemaps/t.png")
             eq_refl eq_refl ltac:(discriminate) Hnone).
  - exact (unmatched_gid_policy "Map" [scenario_rev_def "Tilemaps/t.png"]
             [scenario_rev_atlas "Tilemaps/t.png"] 3 (scenario_rev_atlas "Tilemaps/t.png")
             eq_refl eq_refl ltac:(discriminate) Hnone).
Defined.

(** X16. The spawn-marker layer round-trips: a stored byte [val] between 1
    and 255 whose icon index is inside the icon atlas is decoded to the GID
    [firstgid + val - 1], and the reverse codec, given tilesets among which
    the icon tileset is the one with the largest [firstgid] not above that
    GID, writes the byte [val] back, provided the GID is below 2^29. *)
Theorem icon_layer_roundtrip (unique_images : gmap string BinToTiled.ImageTileset)
    (img_ts : BinToTiled.ImageTileset) (tile_defs : gmap Z BinToTiled.TileDefinition)
    (defs : list TileDefinition) (tilesets : list TilesetInfo)
    (val auto_x auto_y : Z) (flip : bool) :
  unique_images !! BinToTiled.spawn_icon_path = Some img_ts ->
  1 <= val <= 255 ->
  val - 1 < BinToTiled.cols img_ts * BinToTiled.rows img_ts ->
  0 < BinToTiled.firstgid img_ts ->
  BinToTiled.firstgid img_ts + (val - 1) < 2 ^ 29 ->
  (exists ts, ts ∈ tilesets /\ firstgid ts = BinToTiled.firstgid img_ts) ->
  (forall ts, ts ∈ tilesets ->
     firstgid ts <= BinToTiled.firstgid img_ts + (val - 1) ->
     firstgid ts <= BinToTiled.firstgid img_ts) ->
  exists g b,
    BinToTiled.cell_gid unique_images "spawnmarker" tile_defs (val - 1) auto_x auto_y flip
    = Ok g
    /\ encode_cell "spawnmarker" (default TYPE_SIMPLE (LAYER_TYPES !! "spawnmarker"))
                   defs (sort_desc tilesets) g = Ok [b]
    /\ BinToTiled.byte_val b = val.
Proof.
  intros Hicon Hval Hcount Hfirst Hsmall (ts0 & Hts0 & Hts0g) Hmax.
  set (g := BinToTiled.firstgid img_ts + (val - 1)).
  assert (Hfwd : BinToTiled.cell_gid unique_images "spawnmarker" tile_defs
                   (val - 1) auto_x auto_y flip = Ok g).
  { unfold BinToTiled.cell_gid. replace (0 <=? val - 1) with true by lia.
    change ("spawnmarker" =? "spawnmarker")%string with true. cbv iota.
    rewrite Hicon.
    now replace (val - 1 <? BinToTiled.cols img_ts * BinToTiled.rows img_ts)
      with true by lia. }
  destruct (pack_B val) as [b|e] eqn:Hpack.
  2:{ exfalso. unfold pack_B in Hpack.
      replace (0 <=? val) with true in Hpack by lia.
      replace (val <=? 255) with true in Hpack by lia. cbn [andb] in Hpack.
      destruct (Byte.of_N (Z.to_N val)) eqn:Hb; [discriminate|].
      apply Byte.of_N_None_iff in Hb. lia. }
  exists g, b. split; [exact Hfwd|]. split; [|now apply pack_B_byte_val].
  pose proof (target_tileset_sorted (sort_desc tilesets) g (sort_desc_sorted tilesets))
    as Hspec.
  unfold encode_cell. rewrite land_mask, Z.mod_small by (unfold g; lia).
  unfold resolve. replace (0 <? g) with true by (unfold g; lia).
  destruct (target_tileset (sort_desc tilesets) g) as [ts|] eqn:Htarget.
  - destruct Hspec as (Hin & Hle & Hbig). rewrite sort_desc_perm in Hin.
    assert (Hts : firstgid ts = BinToTiled.firstgid img_ts).
    { apply Z.le_antisymm.
      - now apply Hmax.
      - rewrite <- Hts0g. apply Hbig; [now rewrite sort_desc_perm|unfold g; lia]. }
    change ("spawnmarker" =? "spawnmarker")%string with true. cbv iota.
    cbn [mbind res_bind]. unfold write_cell.
    replace (g - firstgid ts + 1) with val by (unfold g; lia).
    rewrite Hpack. reflexivity.
  - exfalso. specialize (Hspec ts0 ltac:(now rewrite sort_desc_perm)). unfold g in Hspec. lia.
Qed.

End CellsTogether.

(** X16, at the stored byte 5 of the icon layer, with a second atlas at
    [firstgid] 10 in the map. *)
Lemma icon_layer_roundtrip_witness :
  exists g b,
    BinToTiled.cell_gid icon_images "spawnmarker" ∅ (5 - 1) 0 0 false = Ok g
    /\ TiledToBin.encode_cell "spawnmarker"
         (default TiledToBin.TYPE_SIMPLE (TiledToBin.LAYER_TYPES !! "spawnmarker"))
         [] (TiledToBin.sort_desc icon_atlases) g = Ok [b]
    /\ BinToTiled.byte_val b = 5.
Proof.
  apply (icon_layer_roundtrip icon_images _ ∅ [] icon_atlases 5 0 0 false eq_refl).
  - lia.
  - cbn. lia.
  - cbn. lia.
  - cbn. lia.
  - eexists. split; [apply elem_of_cons; left; reflexivity|reflexivity].
  - intros ts Hts Hle. cbn in Hle |- *.
    apply elem_of_cons in Hts as [->|Hts]; [cbn; lia|].
    apply elem_of_cons in Hts as [->|Hts]; [cbn in Hle; lia|].
    inversion Hts.
Defined.

(** ** The bytes of a cell, written and read back *)

Section CellBytes.
Import BinToTiled.

Lemma get8_at bin_data st b :
  bin_data !! ptr st = Some b ->
  get8 bin_data st = Ok (byte_val b, {| ptr := S (ptr st); stdout := stdout st |}).
Proof. intros H. unfold get8. now rewrite H. Qed.

Lemma lookup_written (pre bs post : list Byte.byte) (i : nat) b :
  bs !! i = Some b -> (pre ++ bs ++ post)%list !! (length pre + i)%nat = Some b.
Proof.
  intros H. rewrite lookup_app_r by lia.
  replace (length pre + i - length pre)%nat with i by lia.
  now apply lookup_app_l_Some.
Qed.

(** X3. The two converters agree on the bytes of a cell. The bytes the
    reverse converter writes for a cell (the tile index plus one, then the
    two autotile offsets on an AUTOTILE layer or the flip byte on a FLIP
    layer), wherever they stand in a level file, are read by the forward
    converter as one cell: it consumes exactly these bytes, prints nothing,
    and decodes the cell from the values that were written (tile index
    [final_id - 1], the autotile offsets, the flip boolean), with zero
    offsets and no flip where the layer type stores none. *)
Theorem written_cell_reads_back (unique_images : gmap string ImageTileset)
    (layer_name : string) (layer_type : Z) (tile_defs : gmap Z TileDefinition)
    (final_id auto_x auto_y : Z) (flipped_h : bool)
    (bs pre post : list Byte.byte) (out : list string) :
  TiledToBin.write_cell layer_type final_id auto_x auto_y flipped_h = Ok bs ->
  read_cell (pre ++ bs ++ post)%list unique_images layer_name layer_type tile_defs
            {| ptr := length pre; stdout := out |}
  = res_map (fun g => (g, {| ptr := (length pre + length bs)%nat; stdout := out |}))
      (if layer_type =? TYPE_AUTOTILE
       then cell_gid unique_images layer_name tile_defs (final_id - 1) auto_x auto_y false
       else if layer_type =? TYPE_FLIP
       then cell_gid unique_images layer_name tile_defs (final_id - 1) 0 0 flipped_h
       else cell_gid unique_images layer_name tile_defs (final_id - 1) 0 0 false).
Proof.
  intros Hwrite. unfold TiledToBin.write_cell in Hwrite.
  destruct (TiledToBin.pack_B final_id) as [b0|e] eqn:H0; [|discriminate].
  cbn [mbind res_bind] in Hwrite. apply pack_B_byte_val in H0.
  change TiledToBin.TYPE_AUTOTILE with TYPE_AUTOTILE in Hwrite.
  change TiledToBin.TYPE_FLIP with TYPE_FLIP in Hwrite.
  unfold read_cell, mbind, M_bind.
  destruct (layer_type =? TYPE_AUTOTILE) eqn:Hauto.
  - destruct (TiledToBin.pack_B auto_x) as [b1|e] eqn:H1; [|discriminate].
    cbn [mbind res_bind] in Hwrite.
    destruct (TiledToBin.pack_B auto_y) as [b2|e] eqn:H2; [|discriminate].
    injection Hwrite as <-. apply pack_B_byte_val in H1, H2.
    rewrite (get8_at _ _ b0)
      by (cbn [ptr]; rewrite <- (Nat.add_0_r (length pre)); now apply lookup_written).
    cbn [ptr stdout].
    rewrite (get8_at _ _ b1)
      by (cbn [ptr]; rewrite <- Nat.add_1_r; now apply lookup_written).
    cbn [ptr stdout].
    rewrite (get8_at _ _ b2)
      by (cbn [ptr]; replace (S (S (length pre))) with (length pre + 2)%nat by lia;
          now apply lookup_written).
    cbn [ptr stdout mret M_ret]. rewrite H0, H1, H2. unfold lift.
    replace (S (S (S (length pre)))) with (length pre + length [b0; b1; b2])%nat
      by (cbn [length]; lia).
    now destruct (cell_gid _ _ _ _ _ _ _).
  - destruct (layer_type =? TYPE_FLIP) eqn:Hflip.
    + destruct (TiledToBin.pack_B (if flipped_h then 1 else 0)) as [b1|e] eqn:H1;
        [|discriminate].
      injection Hwrite as <-. apply pack_B_byte_val in H1.
      rewrite (get8_at _ _ b0)
        by (cbn [ptr]; rewrite <- (Nat.add_0_r (length pre)); now apply lookup_written).
      cbn [ptr stdout].
      rewrite (get8_at _ _ b1)
        by (cbn [ptr]; rewrite <- Nat.add_1_r; now apply lookup_written).
      cbn [ptr stdout mret M_ret]. rewrite H0, H1. unfold lift.
      replace ((if flipped_h then 1 else 0) =? 1) with flipped_h by now destruct flipped_h.
      replace (S (S (length pre))) with (length pre + length [b0; b1])%nat
        by (cbn [length]; lia).
      now destruct (cell_gid _ _ _ _ _ _ _).
    + injection Hwrite as <-.
      rewrite (get8_at _ _ b0)
        by (cbn [ptr]; rewrite <- (Nat.add_0_r (length pre)); now apply lookup_written).
      cbn [ptr stdout mret M_ret]. rewrite H0. unfold lift.
      replace (S (length pre)) with (length pre + length [b0])%nat
        by (cbn [length]; lia).
      now destruct (cell_gid _ _ _ _ _ _ _).
Qed.

End CellBytes.

(** X3, at the cell [6, 2, 0] of the scenario, written on the layer [Map]
    after two other bytes: it is read from offset 2 to offset 5 as GID 3. *)
Lemma written_cell_reads_back_witness :
  TiledToBin.write_cell TiledToBin.TYPE_AUTOTILE 6 2 0 false = Ok scenario_cell
  /\ BinToTiled.read_cell ([Byte.x01; Byte.x01] ++ scenario_cell ++ [Byte.x00])%list
       {[ "Tilemaps/t.png" := scenario_fwd_atlas "Tilemaps/t.png" 512 128 1 ]}
       "Map" BinToTiled.TYPE_AUTOTILE
       {[ 5 := scenario_fwd_def "Tilemaps/t.png" 1 ]}
       {| BinToTiled.ptr := 2; BinToTiled.stdout := [] |}
     = Ok (3, {| BinToTiled.ptr := 5; BinToTiled.stdout := [] |}).
Proof.
  assert (Hwrite : TiledToBin.write_cell TiledToBin.TYPE_AUTOTILE 6 2 0 false
                   = Ok scenario_cell) by reflexivity.
  split; [exact Hwrite|].
  refine (eq_trans
            (written_cell_reads_back
               {[ "Tilemaps/t.png" := scenario_fwd_atlas "Tilemaps/t.png" 512 128 1 ]}
               "Map" BinToTiled.TYPE_AUTOTILE
               {[ 5 := scenario_fwd_def "Tilemaps/t.png" 1 ]}
               6 2 0 false scenario_cell [Byte.x01; Byte.x01] [Byte.x00] [] Hwrite) _).
  vm_compute. reflexivity.
Defined.

(** ** The size of an image *)

Section ImageSize.
Import BinToTiled.

Lemma bytes_eqb_eq a b : bytes_eqb a b = true <-> a = b.
Proof.
  revert b. induction a as [|x a IH]; intros [|y b]; cbn [bytes_eqb];
    try (split; congruence).
  rewrite andb_true_iff, IH. split.
  - intros [Hxy ->]. now rewrite (Byte.byte_dec_bl _ _ Hxy).
  - intros [= -> ->]. split; [now apply Byte.byte_dec_lb|reflexivity].
Qed.

Lemma byte_val_byte_of n : byte_val (byte_of n) = n mod 256.
Proof.
  unfold byte_val, byte_of.
  pose proof (Z.mod_pos_bound n 256 ltac:(lia)) as Hm.
  destruct (Byte.of_N (Z.to_N (n mod 256))) as [b|] eqn:Hb.
  - cbn. apply Byte.to_of_N in Hb. rewrite Hb. lia.
  - apply Byte.of_N_None_iff in Hb. lia.
Qed.

Lemma length_be32 n : length (be32 n) = 4%nat.
Proof. reflexivity. Qed.

Lemma unpack_I_be32 n : 0 <= n < 2 ^ 32 -> unpack_I (be32 n) = Ok n.
Proof.
  intros Hn. unfold unpack_I, be32. f_equal. rewrite !byte_val_byte_of.
  change (2 ^ 24) with 16777216. change (2 ^ 16) with 65536.
  change (2 ^ 8) with 256. change (2 ^ 32) with 4294967296 in Hn.
  Z.div_mod_to_equations. lia.
Qed.

Lemma unpack_I_short buf : length buf <> 4%nat -> unpack_I buf = Raise StructError.
Proof.
  destruct buf as [|? [|? [|? [|? [|? ?]]]]]; cbn [length]; intros H;
    try reflexivity.
  contradiction.
Qed.

Lemma unpack_I_range buf n : unpack_I buf = Ok n -> 0 <= n < 2 ^ 32.
Proof.
  destruct buf as [|b0 [|b1 [|b2 [|b3 [|? ?]]]]]; try discriminate.
  intros [= <-].
  pose proof (byte_val_range b0). pose proof (byte_val_range b1).
  pose proof (byte_val_range b2). pose proof (byte_val_range b3).
  change (2 ^ 32) with 4294967296. lia.
Qed.

Lemma find_IHDR_cons b l i :
  b <> Byte.x49 -> find IHDR (b :: l) i = find IHDR l (S i).
Proof.
  intros Hb.
  change (find IHDR (b :: l) i)
    with (if Byte.eqb b Byte.x49
             && bytes_eqb (take 3 l) [Byte.x48; Byte.x44; Byte.x52]
          then Some i else find IHDR l (S i)).
  destruct (Byte.eqb b Byte.x49) eqn:E; [|reflexivity].
  apply Byte.byte_dec_bl in E. contradiction.
Qed.

Lemma find_IHDR_skip pre s i :
  Forall (fun b => b <> Byte.x49) pre ->
  find IHDR (pre ++ s) i = find IHDR s (i + length pre).
Proof.
  intros Hpre. revert i. induction Hpre as [|b pre Hb _ IH]; intros i.
  - cbn [app length]. now rewrite Nat.add_0_r.
  - cbn [app length]. rewrite find_IHDR_cons by exact Hb. rewrite IH.
    f_equal. lia.
Qed.

Lemma find_IHDR_here s i : find IHDR (IHDR ++ s) i = Some i.
Proof. reflexivity. Qed.

Lemma find_IHDR_short s i : (length s < 4)%nat -> find IHDR s i = None.
Proof.
  revert i. induction s as [|b s IH]; intros i Hlen; [reflexivity|].
  cbn [find].
  destruct (bytes_eqb (take (length IHDR) (b :: s)) IHDR) eqn:E.
  - apply bytes_eqb_eq in E. apply (f_equal length) in E.
    rewrite length_take in E. cbn [length IHDR] in E, Hlen. lia.
  - apply IH. cbn [length] in Hlen. lia.
Qed.

Lemma signature_clean : Forall (fun b => b <> Byte.x49) PNG_SIGNATURE.
Proof. repeat constructor; discriminate. Qed.

(** X17. [get_image_dimensions] takes the two sizes from the eight bytes
    that follow the first occurrence of the chunk name [IHDR] in the first
    30 bytes of a file with the PNG signature, wherever that occurrence is:
    with the chunk name at its place in a PNG file (4 bytes after the
    signature), and up to offset 18, it returns the sizes the file states;
    with the chunk name at offsets 19 to 26 the sizes are cut by the end of
    the 30 bytes and the run ends in a [struct.error]; a chunk name further
    on is not found and the result is [None]. Sizes that are returned are
    numbers from 0 to 2^32 - 1. *)
Theorem png_header_dimensions (pad rest : list Byte.byte) (w h : Z) :
  Forall (fun b => b <> Byte.x49) pad ->
  0 <= w < 2 ^ 32 -> 0 <= h < 2 ^ 32 ->
  get_image_dimensions (Some (png_file pad w h rest))
  = (if (length pad <=? 10)%nat then Ok (Some (w, h))
     else if (length pad <=? 18)%nat then Raise StructError
     else Ok None)
  /\ (forall file w' h',
        get_image_dimensions file = Ok (Some (w', h')) ->
        0 <= w' < 2 ^ 32 /\ 0 <= h' < 2 ^ 32).
Proof.
  intros Hpad Hw Hh. split.
  - unfold get_image_dimensions, png_file.
    set (X := (be32 w ++ be32 h ++ rest)%list).
    assert (HX4 : take 4 X = be32 w) by reflexivity.
    assert (HXd : drop 4 X = (be32 h ++ rest)%list) by reflexivity.
    set (r := (pad ++ IHDR ++ X)%list).
    change (take 30 (PNG_SIGNATURE ++ r)) with (PNG_SIGNATURE ++ take 22 r)%list.
    change (slice 0 8 (PNG_SIGNATURE ++ take 22 r)) with PNG_SIGNATURE.
    change (bytes_eqb PNG_SIGNATURE PNG_SIGNATURE) with true. cbn [negb].
    rewrite find_IHDR_skip by exact signature_clean.
    change (0 + length PNG_SIGNATURE)%nat with 8%nat.
    unfold r. rewrite take_app.
    rewrite find_IHDR_skip by (apply Forall_take; exact Hpad).
    set (k := length pad).
    destruct (Nat.leb_spec k 18) as [Hk|Hk].
    + rewrite (take_ge pad) by (fold k; lia). fold k.
      rewrite take_app_ge by (cbn [length IHDR]; lia).
      rewrite find_IHDR_here. cbn [length IHDR].
      replace (22 - k - 4)%nat with (18 - k)%nat by lia.
      unfold slice.
      replace (8 + k + 4 + 4 - (8 + k + 4))%nat with 4%nat by lia.
      replace (8 + k + 4 + 4 + 4 - (8 + k + 4 + 4))%nat with 4%nat by lia.
      assert (Hdrop : forall n,
                 drop (8 + k + 4 + n) (PNG_SIGNATURE ++ pad ++ IHDR ++ take (18 - k) X)
                 = drop n (take (18 - k) X)).
      { intros n.
        rewrite drop_app_ge by (change (length PNG_SIGNATURE) with 8%nat; lia).
        change (length PNG_SIGNATURE) with 8%nat.
        rewrite drop_app_ge by (fold k; lia). fold k.
        rewrite drop_app_ge by (change (length IHDR) with 4%nat; lia).
        change (length IHDR) with 4%nat. f_equal. lia. }
      rewrite <- (Nat.add_0_r (8 + k + 4)) at 1. rewrite !Hdrop. rewrite drop_0.
      rewrite take_take.
      destruct (Nat.leb_spec k 14) as [Hk14|Hk14].
      * replace (4 `min` (18 - k))%nat with 4%nat by lia.
        rewrite HX4, unpack_I_be32 by exact Hw. cbn [mbind res_bind].
        destruct (Nat.leb_spec k 10) as [Hk10|Hk10].
        -- replace (18 - k)%nat with (4 + (14 - k))%nat by lia.
           rewrite <- take_drop_commute. rewrite take_take.
           replace (4 `min` (14 - k))%nat with 4%nat by lia.
           rewrite HXd, (take_app_length' (be32 h)) by reflexivity.
           now rewrite unpack_I_be32 by exact Hh.
        -- rewrite unpack_I_short; [reflexivity|].
           rewrite length_take, length_drop, length_take. lia.
      * destruct (Nat.leb_spec k 10) as [Hk10|_]; [lia|].
        rewrite (unpack_I_short (take _ X)); [reflexivity|]. rewrite length_take. lia.
    + destruct (Nat.leb_spec k 10) as [Hk10|_]; [lia|].
      rewrite find_IHDR_short; [reflexivity|].
      rewrite length_take. lia.
  - intros file w' h'. unfold get_image_dimensions.
    destruct file as [content|]; [|discriminate].
    destruct (negb _); [discriminate|].
    destruct (find IHDR (take 30 content) 0) as [i|]; [|discriminate].
    destruct (unpack_I (slice (i + 4) _ _)) as [a|] eqn:Ha; [|discriminate].
    cbn [mbind res_bind].
    destruct (unpack_I (slice (i + 4 + 4) _ _)) as [b|] eqn:Hb; [|discriminate].
    intros [= <- <-]. split; [exact (unpack_I_range _ _ Ha)|exact (unpack_I_range _ _ Hb)].
Qed.

End ImageSize.

(** X17, at the header of a 384x256 PNG file, and at a file whose chunk
    name comes 12 bytes late. *)
Lemma png_header_dimensions_witness :
  BinToTiled.get_image_dimensions
    (Some (png_file [Byte.x00; Byte.x00; Byte.x00; Byte.x0d] 384 256 [Byte.x08]))
  = Ok (Some (384, 256))
  /\ BinToTiled.get_image_dimensions
       (Some (png_file (replicate 16 Byte.x00) 384 256 [Byte.x08]))
     = Raise StructError.
Proof.
  assert (Hsize : 0 <= 384 < 2 ^ 32 /\ 0 <= 256 < 2 ^ 32) by lia.
  split.
  - apply (png_header_dimensions [Byte.x00; Byte.x00; Byte.x00; Byte.x0d] [Byte.x08]
             384 256 ltac:(repeat constructor; discriminate)
             (proj1 Hsize) (proj2 Hsize)).
  - apply (png_header_dimensions (replicate 16 Byte.x00) [Byte.x08]
             384 256 ltac:(repeat constructor; discriminate)
             (proj1 Hsize) (proj2 Hsize)).
Defined.

(** ** The layers of the TMX *)

Section LayerNodes.
Import BinToTiled.

Lemma layer_nodes_names pl w h names lid :
  node_names (layer_nodes pl w h names lid)
  = filter (fun n => is_Some (pl !! n)) names.
Proof.
  revert lid. induction names as [|n names IH]; intros lid; [reflexivity|].
  cbn [layer_nodes]. rewrite filter_cons.
  destruct (pl !! n) as [rows|] eqn:Hn.
  - rewrite decide_True by eauto.
    unfold node_names in *. cbn [map node_name]. now rewrite IH.
  - rewrite decide_False by apply is_Some_None. apply IH.
Qed.

Lemma layer_nodes_ids pl w h names lid :
  node_ids (layer_nodes pl w h names lid)
  = (fun i => lid + Z.of_nat i) <$> seq 0 (length (layer_nodes pl w h names lid)).
Proof.
  revert lid. induction names as [|n names IH]; intros lid; [reflexivity|].
  cbn [layer_nodes]. destruct (pl !! n) as [rows|]; [|apply IH].
  unfold node_ids in *. cbn [map node_id length seq fmap list_fmap].
  rewrite Z.add_0_r. f_equal. rewrite IH, <- fmap_S_seq, <- list_fmap_compose.
  apply list_fmap_ext. intros _ i _. cbn. lia.
Qed.

Lemma layer_nodes_text pl w h names lid :
  Forall (fun nd => node_width nd = w /\ node_height nd = h
                    /\ exists rows, pl !! node_name nd = Some rows
                                    /\ node_text nd = data_text rows)
         (layer_nodes pl w h names lid).
Proof.
  revert lid. induction names as [|n names IH]; intros lid; [constructor|].
  cbn [layer_nodes]. destruct (pl !! n) as [rows|] eqn:Hn; [|apply IH].
  constructor; [|apply IH]. cbn. eauto.
Qed.

Lemma read_order_NoDup : NoDup BINARY_READ_ORDER.
Proof. apply (bool_decide_unpack _). vm_compute. exact I. Qed.

Lemma visual_order_NoDup : NoDup VISUAL_ORDER.
Proof. apply (bool_decide_unpack _). vm_compute. exact I. Qed.

Lemma read_order_visible : Forall (fun n => n ∈ VISUAL_ORDER) BINARY_READ_ORDER.
Proof. apply (bool_decide_unpack _). vm_compute. exact I. Qed.

Lemma layer_nodes_complete pl w h order names :
  NoDup order -> NoDup names -> Forall (fun n => n ∈ order) names ->
  (forall n, is_Some (pl !! n) <-> n ∈ names) ->
  node_names (layer_nodes pl w h order 1) = filter (fun n => n ∈ names) order
  /\ node_names (layer_nodes pl w h order 1) ≡ₚ names
  /\ node_ids (layer_nodes pl w h order 1) = Z.of_nat <$> seq 1 (length names).
Proof.
  intros Horder Hnodup Hsub Hdom.
  assert (Hnames : node_names (layer_nodes pl w h order 1)
                   = filter (fun n => n ∈ names) order).
  { rewrite layer_nodes_names. apply list_filter_iff, Hdom. }
  assert (Hperm : node_names (layer_nodes pl w h order 1) ≡ₚ names).
  { rewrite Hnames. apply NoDup_Permutation.
    - apply NoDup_filter, Horder.
    - exact Hnodup.
    - intros n. rewrite list_elem_of_filter. split; [tauto|].
      intros Hn. split; [assumption|].
      exact (proj1 (Forall_forall _ _) Hsub n Hn). }
  split; [exact Hnames|]. split; [exact Hperm|].
  rewrite layer_nodes_ids.
  replace (length (layer_nodes pl w h order 1)) with (length names).
  - rewrite <- fmap_S_seq, <- list_fmap_compose. apply list_fmap_ext.
    intros _ i _. cbn. lia.
  - apply Permutation_length in Hperm. unfold node_names in Hperm.
    rewrite length_map in Hperm. now rewrite Hperm.
Qed.

Lemma parsed_layers_dom (bin_data : list Byte.byte)
    (unique_images : gmap string ImageTileset)
    (layer_tile_definitions : gmap string (gmap Z TileDefinition))
    width height parsed_layers st' :
  parse_binary bin_data unique_images layer_tile_definitions start
  = Ok (width, height, parsed_layers, st') ->
  forall n, is_Some (parsed_layers !! n) <-> n ∈ BINARY_READ_ORDER.
Proof.
  intros Hrun. unfold parse_binary, mbind, M_bind in Hrun.
  destruct (get8 bin_data start) as [[w st1]|e]; [|discriminate].
  destruct (get8 bin_data st1) as [[h st2]|e]; [|discriminate].
  destruct (parse_layers _ _ _ w h BINARY_READ_ORDER ∅ st2)
    as [[pl st3]|e] eqn:Hlayers; [|discriminate].
  injection Hrun as <- <- <- <-.
  apply parse_layers_shape in Hlayers as [Hin Hout]. intros n. split.
  - intros Hsome. destruct (decide (n ∈ BINARY_READ_ORDER)) as [|Hn]; [assumption|].
    rewrite (Hout n Hn), lookup_empty in Hsome. now apply is_Some_None in Hsome.
  - intros Hn. destruct (Hin n Hn) as (rows & -> & _). eauto.
Qed.

(** X18. Step 4 writes one [layer] node for each of the 17 layers of the
    binary format and no other: the nodes come in the visual order, with
    the six names of the visual order that the binary format does not have
    left out, they are numbered 1 to 17 without a gap, and each carries the
    level size and the CSV text of the rows parsed for its layer. *)
Theorem layers_written_in_visual_order (bin_data : list Byte.byte)
    (unique_images : gmap string ImageTileset)
    (layer_tile_definitions : gmap string (gmap Z TileDefinition))
    (width height : Z) (parsed_layers : gmap string (list (list Z)))
    (st' : reader) :
  parse_binary bin_data unique_images layer_tile_definitions start
  = Ok (width, height, parsed_layers, st') ->
  node_names (tmx_layer_nodes parsed_layers width height)
  = filter (fun n => n ∈ BINARY_READ_ORDER) VISUAL_ORDER
  /\ node_names (tmx_layer_nodes parsed_layers width height) ≡ₚ BINARY_READ_ORDER
  /\ node_ids (tmx_layer_nodes parsed_layers width height) = Z.of_nat <$> seq 1 17
  /\ Forall (fun nd => node_width nd = width /\ node_height nd = height
                       /\ exists rows, parsed_layers !! node_name nd = Some rows
                                       /\ node_text nd = data_text rows)
            (tmx_layer_nodes parsed_layers width height).
Proof.
  intros Hrun. pose proof (parsed_layers_dom _ _ _ _ _ _ _ Hrun) as Hdom.
  destruct (layer_nodes_complete parsed_layers width height VISUAL_ORDER
              BINARY_READ_ORDER visual_order_NoDup read_order_NoDup
              read_order_visible Hdom) as (Hnames & Hperm & Hids).
  split; [exact Hnames|]. split; [exact Hperm|]. split; [exact Hids|].
  apply layer_nodes_text.
Qed.

End LayerNodes.

(** X18, at the level file cut after 5 bytes: the first node is the layer
    [Mapbackground] with id 1 and the last the layer [spawnmarker] with id
    17. *)
Lemma layers_written_in_visual_order_witness :
  BinToTiled.parse_binary left_of_atlas_bin ∅ ∅ start = Ok (1, 1, cut_layers, cut_end)
  /\ head (node_names (BinToTiled.tmx_layer_nodes cut_layers 1 1)) = Some "Mapbackground"
  /\ last (node_names (BinToTiled.tmx_layer_nodes cut_layers 1 1)) = Some "spawnmarker"
  /\ node_ids (BinToTiled.tmx_layer_nodes cut_layers 1 1) = Z.of_nat <$> seq 1 17.
Proof.
  assert (H : BinToTiled.parse_binary left_of_atlas_bin ∅ ∅ start
              = Ok (1, 1, cut_layers, cut_end)) by (vm_compute; reflexivity).
  pose proof (layers_written_in_visual_order left_of_atlas_bin ∅ ∅ 1 1
                cut_layers cut_end H) as (Hnames & _ & Hids & _).
  split; [exact H|]. rewrite Hnames. split; [|split].
  - vm_compute. reflexivity.
  - vm_compute. reflexivity.
  - exact Hids.
Defined.

(** ** The text of a layer, written and read back *)

Section LayerText.
Import PyStr.
#[local] Arguments append !s1 s2 : simpl nomatch.

Ltac each_digit d :=
  let H := fresh in
  assert (H : d = 0 \/ d = 1 \/ d = 2 \/ d = 3 \/ d = 4 \/ d = 5 \/ d = 6
              \/ d = 7 \/ d = 8 \/ d = 9) by lia;
  destruct H as [->|[->|[->|[->|[->|[->|[->|[->|[->| ->]]]]]]]]].

Lemma mod10_digit n : 0 <= n mod 10 <= 9.
Proof. pose proof (Z.mod_pos_bound n 10 ltac:(lia)). lia. Qed.

Lemma int_digits_digit a d s :
  0 <= d <= 9 -> int_digits a (String (digit_char d) s) = int_digits (10 * a + d) s.
Proof. intros Hd. each_digit d; reflexivity. Qed.

Lemma to_int_digits d s :
  0 <= d <= 9 ->
  to_int (String (digit_char d) s)
  = match int_digits 0 (String (digit_char d) s) with
    | Some (v, rest) =>
        match skip_spaces rest with
        | EmptyString => Ok v
        | _ => Raise ValueError
        end
    | None => Raise ValueError
    end.
Proof. intros Hd. each_digit d; reflexivity. Qed.

Lemma to_int_minus_digits d s :
  0 <= d <= 9 ->
  to_int (String "-" (String (digit_char d) s))
  = match int_digits 0 (String (digit_char d) s) with
    | Some (v, rest) =>
        match skip_spaces rest with
        | EmptyString => Ok (- v)
        | _ => Raise ValueError
        end
    | None => Raise ValueError
    end.
Proof. intros Hd. each_digit d; reflexivity. Qed.

Lemma digits_of_ind (P : string -> Prop) :
  (forall d s, 0 <= d <= 9 -> P s -> P (String (digit_char d) s)) ->
  forall fuel n acc, P acc -> P (digits_of fuel n acc).
Proof.
  intros Hstep. induction fuel as [|fuel IH]; intros n acc Hacc; cbn [digits_of].
  - apply Hstep; [apply mod10_digit|assumption].
  - destruct (n <? 10); [|apply IH]; (apply Hstep; [apply mod10_digit|assumption]).
Qed.

Lemma digits_of_head fuel n acc :
  exists d s, 0 <= d <= 9 /\ digits_of fuel n acc = String (digit_char d) s.
Proof.
  assert (Hcons : forall d s, 0 <= d <= 9 ->
            exists d' s', 0 <= d' <= 9
                          /\ String (digit_char d) s = String (digit_char d') s')
    by (intros d s Hd; eauto).
  destruct fuel as [|fuel]; cbn [digits_of].
  - apply Hcons, mod10_digit.
  - destruct (n <? 10); [apply Hcons, mod10_digit|].
    apply digits_of_ind; [intros d s Hd _; now apply Hcons|].
    apply Hcons, mod10_digit.
Qed.

Lemma digits_of_value fuel :
  forall n acc, 0 <= n < 10 ^ Z.of_nat (S fuel) ->
  exists k, 0 <= k /\ forall a,
    int_digits a (digits_of fuel n acc) = int_digits (a * 10 ^ k + n) acc.
Proof.
  assert (Hone : forall n acc, 0 <= n < 10 ->
            forall a, int_digits a (String (digit_char (n mod 10)) acc)
                      = int_digits (a * 10 ^ 1 + n) acc).
  { intros n acc Hn a. rewrite int_digits_digit by apply mod10_digit.
    rewrite Z.mod_small by lia. f_equal. lia. }
  induction fuel as [|fuel IH]; intros n acc Hn; cbn [digits_of].
  - exists 1. split; [lia|]. apply Hone. change (10 ^ Z.of_nat 1) with 10 in Hn. lia.
  - destruct (Z.ltb_spec n 10) as [Hlt|Hge].
    + exists 1. split; [lia|]. apply Hone. lia.
    + destruct (IH (n / 10) (String (digit_char (n mod 10)) acc)) as (k & Hk & Hval).
      { split; [apply Z.div_pos; lia|]. apply Z.div_lt_upper_bound; [lia|].
        rewrite <- Z.pow_succ_r by lia. rewrite <- Nat2Z.inj_succ. lia. }
      exists (k + 1). split; [lia|]. intros a. rewrite Hval.
      rewrite int_digits_digit by apply mod10_digit. f_equal.
      rewrite Z.pow_add_r, Z.pow_1_r by lia.
      pose proof (Z.div_mod n 10 ltac:(lia)) as Hdm. set (p := 10 ^ k) in *.
      set (q := n / 10) in *. set (r := n mod 10) in *. lia.
Qed.

Lemma fuel_enough n : 0 <= n -> n < 10 ^ Z.of_nat (S (Z.to_nat (Z.log2 n))).
Proof.
  intros Hn. rewrite Nat2Z.inj_succ, Z2Nat.id by apply Z.log2_nonneg.
  destruct (Z.eq_dec n 0) as [->|Hne]; [reflexivity|].
  pose proof (Z.log2_spec n ltac:(lia)) as [_ Hup].
  pose proof (Z.log2_nonneg n) as Hlog.
  pose proof (Z.pow_le_mono_l 2 10 (Z.succ (Z.log2 n)) ltac:(lia)). lia.
Qed.

Lemma to_int_of_int z : to_int (of_int z) = Ok z.
Proof.
  unfold of_int. destruct (Z.ltb_spec z 0) as [Hneg|Hpos].
  - set (fuel := Z.to_nat (Z.log2 (- z))).
    destruct (digits_of_head fuel (- z) EmptyString) as (d & s & Hd & Heq).
    destruct (digits_of_value fuel (- z) EmptyString) as (k & Hk & Hval);
      [split; [lia|apply fuel_enough; lia]|].
    rewrite Heq, to_int_minus_digits, <- Heq, Hval by exact Hd.
    cbn [int_digits skip_spaces]. f_equal; lia.
  - set (fuel := Z.to_nat (Z.log2 z)).
    destruct (digits_of_head fuel z EmptyString) as (d & s & Hd & Heq).
    destruct (digits_of_value fuel z EmptyString) as (k & Hk & Hval);
      [split; [lia|apply fuel_enough; lia]|].
    rewrite Heq, to_int_digits, <- Heq, Hval by exact Hd.
    cbn [int_digits skip_spaces]. f_equal; lia.
Qed.

Lemma of_int_ind (P : string -> Prop) :
  P EmptyString ->
  (forall d s, 0 <= d <= 9 -> P s -> P (String (digit_char d) s)) ->
  (forall s, P s -> P (String "-" s)) ->
  forall z, P (of_int z).
Proof.
  intros Hnil Hdigit Hminus z. unfold of_int.
  destruct (z <? 0); [apply Hminus|]; now apply digits_of_ind.
Qed.

Lemma of_int_head z : exists c s, of_int z = String c s /\ isspace c = false.
Proof.
  unfold of_int. destruct (z <? 0); [now eauto|].
  destruct (digits_of_head (Z.to_nat (Z.log2 z)) z EmptyString) as (d & s & Hd & ->).
  exists (digit_char d), s. split; [reflexivity|]. each_digit d; reflexivity.
Qed.

Lemma of_int_no_newline z : remove_char LF (of_int z) = of_int z.
Proof.
  apply of_int_ind; [reflexivity| |].
  - intros d s Hd Hs. transitivity (String (digit_char d) (remove_char LF s));
      [each_digit d; reflexivity|now rewrite Hs].
  - intros s Hs. cbn. now rewrite Hs.
Qed.

Lemma of_int_no_comma z : split "," (of_int z) = [of_int z].
Proof.
  apply of_int_ind; [reflexivity| |].
  - intros d s Hd Hs.
    transitivity (match split "," s with
                  | piece :: pieces => String (digit_char d) piece :: pieces
                  | [] => [String (digit_char d) EmptyString]
                  end); [each_digit d; reflexivity|now rewrite Hs].
  - intros s Hs. cbn. now rewrite Hs.
Qed.

Lemma rstrip_cons_plain c s :
  isspace c = false -> rstrip s = s -> rstrip (String c s) = String c s.
Proof. intros Hc Hs. cbn [rstrip]. rewrite Hs, Hc. now destruct s. Qed.

Lemma of_int_rstrip z : rstrip (of_int z) = of_int z.
Proof.
  apply of_int_ind; [reflexivity| |].
  - intros d s Hd Hs. apply rstrip_cons_plain; [|exact Hs]. each_digit d; reflexivity.
  - intros s Hs. now apply rstrip_cons_plain.
Qed.

(** *** [strip], [replace], [split] and [join] *)

Lemma rstrip_app a b : b <> EmptyString -> rstrip b = b -> rstrip (a ++ b) = a ++ b.
Proof.
  intros Hne Hb. induction a as [|c a IH]; [exact Hb|].
  cbn [append rstrip]. rewrite IH.
  destruct (a ++ b) eqn:Hab; [|reflexivity].
  destruct a; [cbn in Hab; contradiction|discriminate].
Qed.

Lemma rstrip_space a c : isspace c = true -> rstrip (a ++ String c EmptyString) = rstrip a.
Proof.
  intros Hc. induction a as [|x a IH]; cbn [append rstrip].
  - now rewrite Hc.
  - now rewrite IH.
Qed.

Lemma remove_char_app c a b :
  remove_char c (a ++ b) = remove_char c a ++ remove_char c b.
Proof.
  induction a as [|x a IH]; [reflexivity|]. cbn [append remove_char].
  destruct (Ascii.eqb x c); [exact IH|]. cbn [append]. now rewrite IH.
Qed.

Lemma split_nonempty sep s : split sep s <> [].
Proof.
  destruct s as [|c s]; [discriminate|]. cbn [split].
  destruct (Ascii.eqb c sep); [discriminate|]. now destruct (split sep s).
Qed.

Lemma split_app sep a b :
  split sep (a ++ String sep b) = (split sep a ++ split sep b)%list.
Proof.
  induction a as [|c a IH]; cbn [append split].
  - now rewrite Ascii.eqb_refl.
  - destruct (Ascii.eqb c sep); [now rewrite IH|]. rewrite IH.
    pose proof (split_nonempty sep a). now destruct (split sep a).
Qed.

Lemma join_cons sep x y l :
  join sep (x :: y :: l) = x ++ sep ++ join sep (y :: l).
Proof. reflexivity. Qed.

Lemma app_assoc_str (a b c : string) : (a ++ b) ++ c = a ++ (b ++ c).
Proof. induction a as [|x a IH]; [reflexivity|]. cbn [append]. now rewrite IH. Qed.

Lemma app_empty_r (a : string) : a ++ EmptyString = a.
Proof. induction a as [|x a IH]; [reflexivity|]. cbn [append]. now rewrite IH. Qed.

Lemma split_join sep l :
  l <> [] -> split sep (join (String sep EmptyString) l) = concat (map (split sep) l).
Proof.
  intros Hne. induction l as [|x [|y l] IH]; [contradiction| |].
  - cbn [join String.concat map concat]. now rewrite app_nil_r.
  - rewrite join_cons. cbn [append]. rewrite split_app, IH by discriminate.
    reflexivity.
Qed.

Lemma remove_newline_join l :
  Forall (fun s => remove_char LF s = s) l ->
  remove_char LF (join (String "," (String LF EmptyString)) l)
  = join (String "," EmptyString) l.
Proof.
  induction l as [|x [|y l] IH]; intros Hl; [reflexivity| |].
  - now inversion_clear Hl.
  - rewrite !join_cons, !remove_char_app. inversion_clear Hl as [|? ? Hx Hrest].
    now rewrite Hx, IH.
Qed.

Lemma remove_newline_line l :
  Forall (fun s => remove_char LF s = s) l ->
  remove_char LF (join "," l) = join "," l.
Proof.
  induction l as [|x [|y l] IH]; intros Hl; [reflexivity| |].
  - now inversion_clear Hl.
  - rewrite !join_cons, !remove_char_app. inversion_clear Hl as [|? ? Hx Hrest].
    now rewrite Hx, IH.
Qed.

Lemma rstrip_join sep l :
  l <> [] -> Forall (fun s => s <> EmptyString /\ rstrip s = s) l ->
  join sep l <> EmptyString /\ rstrip (join sep l) = join sep l.
Proof.
  intros Hne. induction l as [|x [|y l] IH]; intros Hl; [contradiction| |].
  - now inversion_clear Hl.
  - inversion_clear Hl as [|? ? Hx Hrest].
    destruct (IH ltac:(discriminate) Hrest) as [Hne' Hr]. rewrite join_cons.
    rewrite <- app_assoc_str. split.
    + destruct x; [now destruct Hx|discriminate].
    + now apply rstrip_app.
Qed.

Lemma head_join sep x l c s :
  x = String c s -> exists s', join sep (x :: l) = String c s'.
Proof. intros ->. destruct l; cbn [join String.concat append]; eauto. Qed.

Lemma for_each_to_int l : TiledToBin.for_each to_int (map of_int l) = Ok l.
Proof.
  induction l as [|z l IH]; [reflexivity|].
  cbn [map TiledToBin.for_each]. rewrite to_int_of_int, IH. reflexivity.
Qed.

(** The text of a row. *)
Lemma row_text row :
  row <> [] ->
  let line := join "," (map of_int row) in
  remove_char LF line = line
  /\ split "," line = map of_int row
  /\ (line <> EmptyString /\ rstrip line = line)
  /\ exists c s, line = String c s /\ isspace c = false.
Proof.
  intros Hrow line. split; [|split; [|split]].
  - apply remove_newline_line, Forall_map, Forall_true. intros z. apply of_int_no_newline.
  - unfold line. rewrite split_join by (now destruct row).
    clear. induction row as [|z row IH]; [reflexivity|].
    cbn [map concat]. now rewrite of_int_no_comma, IH.
  - apply rstrip_join; [now destruct row|].
    apply Forall_map, Forall_true. intros z. split; [|apply of_int_rstrip].
    destruct (of_int_head z) as (c & s & -> & _). discriminate.
  - destruct row as [|z row]; [contradiction|]. cbn [map] in line.
    destruct (of_int_head z) as (c & s & Hz & Hc).
    destruct (head_join "," _ (map of_int row) c s Hz) as [s' Hs']. eauto.
Qed.

(** *** Text without a digit *)

Lemma no_digit_app a b : no_digit (a ++ b) = no_digit a && no_digit b.
Proof.
  induction a as [|c a IH]; [reflexivity|]. cbn [append no_digit].
  now destruct (digit_of c).
Qed.

Lemma no_digit_tail c s : no_digit (String c s) = true -> no_digit s = true.
Proof. cbn [no_digit]. now destruct (digit_of c). Qed.

Lemma no_digit_head c s : no_digit (String c s) = true -> digit_of c = None.
Proof. cbn [no_digit]. now destruct (digit_of c). Qed.

Lemma no_digit_lstrip s : no_digit s = true -> no_digit (lstrip s) = true.
Proof.
  induction s as [|c s IH]; [reflexivity|]. intros H. cbn [lstrip].
  destruct (isspace c); [apply IH; exact (no_digit_tail _ _ H)|exact H].
Qed.

Lemma no_digit_rstrip s : no_digit s = true -> no_digit (rstrip s) = true.
Proof.
  induction s as [|c s IH]; [reflexivity|]. intros H. cbn [rstrip].
  pose proof (IH (no_digit_tail _ _ H)) as Hr. pose proof (no_digit_head _ _ H) as Hc.
  destruct (rstrip s) as [|c' r].
  - destruct (isspace c); [reflexivity|]. cbn [no_digit]. now rewrite Hc.
  - cbn [no_digit] in Hr |- *. now rewrite Hc.
Qed.

Lemma no_digit_remove_char x s : no_digit s = true -> no_digit (remove_char x s) = true.
Proof.
  induction s as [|c s IH]; [reflexivity|]. intros H. cbn [remove_char].
  pose proof (IH (no_digit_tail _ _ H)) as Hr. pose proof (no_digit_head _ _ H) as Hc.
  destruct (Ascii.eqb c x); [exact Hr|]. cbn [no_digit]. now rewrite Hc.
Qed.

Lemma no_digit_split sep s :
  no_digit s = true -> exists p ps, split sep s = p :: ps /\ no_digit p = true.
Proof.
  induction s as [|c s IH]; [now eauto|]. intros H. cbn [split].
  destruct (IH (no_digit_tail _ _ H)) as (p & ps & Hs & Hp).
  pose proof (no_digit_head _ _ H) as Hc.
  destruct (Ascii.eqb c sep); [now eauto|]. rewrite Hs.
  exists (String c p), ps. split; [reflexivity|]. cbn [no_digit]. now rewrite Hc.
Qed.

Lemma no_digit_skip_spaces s : no_digit s = true -> no_digit (skip_spaces s) = true.
Proof.
  induction s as [|c s IH]; [reflexivity|]. intros H. cbn [skip_spaces].
  destruct (int_space c); [apply IH; exact (no_digit_tail _ _ H)|exact H].
Qed.

Lemma to_int_no_digit s : no_digit s = true -> to_int s = Raise ValueError.
Proof.
  intros H. apply no_digit_skip_spaces in H. unfold to_int.
  destruct (skip_spaces s) as [|c s1]; [reflexivity|].
  assert (Hfirst : forall t, no_digit t = true ->
            match t with
            | EmptyString => Raise ValueError
            | String c' t' =>
                match digit_of c' with
                | None => Raise ValueError
                | Some _ => Ok 0
                end
            end = @Raise Z ValueError).
  { intros [|c' t'] Ht; [reflexivity|]. now rewrite (no_digit_head _ _ Ht). }
  pose proof (no_digit_tail _ _ H) as Htail. pose proof (no_digit_head _ _ H) as Hc.
  destruct (Ascii.eqb c "-"); [|destruct (Ascii.eqb c "+")].
  - destruct s1 as [|c' t']; [reflexivity|]. now rewrite (no_digit_head _ _ Htail).
  - destruct s1 as [|c' t']; [reflexivity|]. now rewrite (no_digit_head _ _ Htail).
  - now rewrite Hc.
Qed.

Lemma no_digit_join sep l :
  no_digit sep = true -> Forall (fun s => no_digit s = true) l ->
  no_digit (join sep l) = true.
Proof.
  intros Hsep. induction l as [|x [|y l] IH]; intros Hl; [reflexivity| |].
  - now inversion_clear Hl.
  - inversion_clear Hl as [|? ? Hx Hrest]. rewrite join_cons, !no_digit_app.
    now rewrite Hx, Hsep, IH.
Qed.

Lemma parse_gids_no_digit text :
  no_digit text = true -> TiledToBin.parse_gids text = Raise ValueError.
Proof.
  intros H. unfold TiledToBin.parse_gids, strip.
  destruct (no_digit_split "," (remove_char LF (rstrip (lstrip text))))
    as (p & ps & -> & Hp).
  { now apply no_digit_remove_char, no_digit_rstrip, no_digit_lstrip. }
  cbn [TiledToBin.for_each]. now rewrite to_int_no_digit.
Qed.

(** X19. The text the forward converter gives the [data] node of a layer,
    read by the reverse converter: for a level at least one cell wide and
    one cell high the numbers come back as the written rows one after
    another, signs included; for a level of width or height 0 the text holds
    no number and the reverse converter ends in a [ValueError]. The numbers
    are taken below 10^640, where no limit of the interpreter on the digits
    of a number applies. *)
Theorem layer_text_roundtrip (w h : nat) (rows : list (list Z)) :
  length rows = h ->
  Forall (fun row => length row = w) rows ->
  Forall (Forall (fun g => Z.abs g < 10 ^ 640)) rows ->
  TiledToBin.parse_gids (BinToTiled.data_text rows)
  = if ((0 <? w) && (0 <? h))%nat then Ok (BinToTiled.flat_gids rows)
    else Raise ValueError.
Proof.
  intros Hh Hw _. unfold BinToTiled.data_text, BinToTiled.csv_text.
  set (lines := map (fun row => join "," (map of_int row)) rows).
  destruct (Nat.ltb_spec 0 w) as [Hwpos|Hw0]; [destruct (Nat.ltb_spec 0 h) as [Hhpos|Hh0]|];
    cbn [andb].
  - assert (Hrows : Forall (fun row => row <> []) rows).
    { eapply Forall_impl; [exact Hw|]. intros row Hlen ->. cbn in Hlen. lia. }
    assert (Hlines : Forall (fun line =>
               remove_char LF line = line
               /\ (line <> EmptyString /\ rstrip line = line)
               /\ exists c s, line = String c s /\ isspace c = false) lines).
    { unfold lines. apply Forall_map. eapply Forall_impl; [exact Hrows|].
      intros row Hrow. destruct (row_text row Hrow) as (H1 & _ & H3 & H4). auto. }
    assert (Hne : lines <> []).
    { unfold lines. destruct rows; [cbn in Hh; lia|discriminate]. }
    set (body := join (String "," (String LF EmptyString)) lines).
    destruct (rstrip_join (String "," (String LF EmptyString)) lines Hne) as [Hbody Hr].
    { eapply Forall_impl; [exact Hlines|]. intros line (_ & H & _). exact H. }
    fold body in Hbody, Hr.
    assert (Hhead : exists c s, body = String c s /\ isspace c = false).
    { unfold body. destruct lines as [|line lines']; [contradiction|].
      inversion_clear Hlines as [|? ? (_ & _ & c & s & Hline & Hc) _].
      destruct (head_join (String "," (String LF EmptyString)) line lines' c s Hline)
        as [s' Hs']. eauto. }
    unfold TiledToBin.parse_gids, strip.
    change (lstrip (String LF (body ++ String LF EmptyString)))
      with (lstrip (body ++ String LF EmptyString)).
    destruct Hhead as (c & s & Hb & Hc). rewrite Hb at 1.
    cbn [append lstrip]. rewrite Hc.
    change (String c (s ++ String LF EmptyString))
      with (String c s ++ String LF EmptyString).
    rewrite <- Hb, rstrip_space, Hr by reflexivity.
    unfold body. rewrite remove_newline_join
      by (eapply Forall_impl; [exact Hlines|]; intros line (H & _); exact H).
    rewrite split_join by exact Hne.
    replace (concat (map (split ",") lines))
      with (map of_int (BinToTiled.flat_gids rows)).
    + apply for_each_to_int.
    + unfold lines, BinToTiled.flat_gids. clear -Hrows.
      induction Hrows as [|row rows Hrow _ IH]; [reflexivity|].
      cbn [map concat]. rewrite map_app, IH. f_equal.
      destruct (row_text row Hrow) as (_ & H2 & _). now rewrite H2.
  - apply parse_gids_no_digit.
    assert (rows = []) as -> by (destruct rows; [reflexivity|cbn in Hh; lia]).
    reflexivity.
  - destruct (0 <? h)%nat; apply parse_gids_no_digit.
    all: cbn [no_digit digit_of]; change (digit_of LF) with (@None Z); cbn iota;
      rewrite no_digit_app; apply andb_true_intro; split; [|reflexivity];
      apply no_digit_join; [reflexivity|]; unfold lines; apply Forall_map;
      (eapply Forall_impl; [exact Hw|]); intros row Hlen;
      assert (row = []) as -> by (destruct row; [reflexivity|cbn in Hlen; lia]);
      reflexivity.
Qed.

End LayerText.

(** X19, at the rows of a level two cells wide and two high, one GID with
    the flip flag and one below zero; and at a level of width 0. *)
Lemma layer_text_roundtrip_witness :
  TiledToBin.parse_gids (BinToTiled.data_text [[3; 2147483651]; [-1; 0]])
  = Ok [3; 2147483651; -1; 0]
  /\ TiledToBin.parse_gids (BinToTiled.data_text [[]; []]) = Raise ValueError.
Proof.
  split.
  - apply (layer_text_roundtrip 2 2 [[3; 2147483651]; [-1; 0]] eq_refl).
    + repeat constructor.
    + repeat constructor; vm_compute; reflexivity.
  - apply (layer_text_roundtrip 0 2 [[]; []] eq_refl); repeat constructor.
Defined.

(** ** The grid of an atlas, written and read back *)

Section AtlasGrid.
Variable normpath : string -> string.

Lemma get_grid_dim_fallback w :
  0 <= w ->
  (if BinToTiled.get_grid_dim w =? 0
   then (w + TiledToBin.TILE_SIZE - 1) / TiledToBin.TILE_SIZE
   else BinToTiled.get_grid_dim w)
  = BinToTiled.get_grid_dim w.
Proof.
  intros Hw. destruct (Z.eqb_spec (BinToTiled.get_grid_dim w) 0) as [H0|]; [|reflexivity].
  rewrite H0. unfold BinToTiled.get_grid_dim in H0.
  destruct (Z.leb_spec w 0) as [Hle|Hgt].
  - assert (w = 0) as -> by lia. reflexivity.
  - exact H0.
Qed.

(** X20. The tileset the reverse converter reads from the TSX file that
    [create_tsx] wrote for an image of width 0 or more has the columns the
    forward converter counted, also when that count is 0 and [parse_tsx]
    falls back on the width. With them the reverse converter undoes the
    forward numbering [grid_x + grid_y * cols] of a tile whose column is
    inside the atlas; a tile in one of the [cols] columns left of the atlas,
    which the forward converter does not exclude, is read as the tile
    [cols] columns to the right in the row above. *)
Theorem atlas_grid_roundtrip (fs : string -> BinToTiled.image_file)
    (image_ts : BinToTiled.ImageTileset) (g : Z) :
  fs (BinToTiled.rel_path image_ts) <> BinToTiled.NoFile ->
  0 <= BinToTiled.width (BinToTiled.create_tsx fs image_ts) ->
  let t := BinToTiled.create_tsx fs (BinToTiled.set_firstgid g image_ts) in
  let ts := TiledToBin.tileset_info normpath g
              (tsx_written fs (BinToTiled.set_firstgid g image_ts)) in
  TiledToBin.firstgid ts = BinToTiled.firstgid t
  /\ TiledToBin.columns ts = BinToTiled.cols t
  /\ TiledToBin.image_path ts
     = Some (replace_backslash (normpath (BinToTiled.rel_path image_ts)))
  /\ (forall grid_x grid_y,
        0 <= grid_x < BinToTiled.cols t ->
        TiledToBin.img_grid ts (grid_x + grid_y * BinToTiled.cols t)
        = (grid_x, grid_y))
  /\ (forall grid_x grid_y,
        - BinToTiled.cols t <= grid_x < 0 ->
        TiledToBin.img_grid ts (grid_x + grid_y * BinToTiled.cols t)
        = (grid_x + BinToTiled.cols t, grid_y - 1)).
Proof.
  intros Hfile Hwidth t ts.
  assert (Hts : ts = {| TiledToBin.firstgid := g;
                        TiledToBin.image_path :=
                          Some (replace_backslash (normpath (BinToTiled.rel_path image_ts)));
                        TiledToBin.columns := BinToTiled.cols t |}
                /\ BinToTiled.firstgid t = g).
  { unfold ts, t, tsx_written, TiledToBin.tileset_info, TiledToBin.parse_tsx.
    unfold BinToTiled.create_tsx in *.
    cbn [BinToTiled.set_firstgid BinToTiled.rel_path] in *.
    destruct (fs (BinToTiled.rel_path image_ts)) as [| |w h]; [contradiction| |];
      cbn [BinToTiled.rel_path BinToTiled.width BinToTiled.cols BinToTiled.firstgid] in *.
    - rewrite get_grid_dim_fallback by lia. now split.
    - rewrite get_grid_dim_fallback by exact Hwidth. now split. }
  destruct Hts as [Hts Hg]. rewrite Hts. cbn [TiledToBin.firstgid TiledToBin.columns
                                               TiledToBin.image_path].
  split; [now rewrite Hg|]. split; [reflexivity|]. split; [reflexivity|].
  unfold TiledToBin.img_grid. cbn [TiledToBin.columns].
  set (cols := BinToTiled.cols t). split.
  - intros gx gy Hgx. replace (0 <? cols) with true by (symmetry; apply Z.ltb_lt; lia).
    f_equal.
    + rewrite Z.mod_add by lia. apply Z.mod_small. lia.
    + rewrite Z.div_add by lia. rewrite Z.div_small by lia. lia.
  - intros gx gy Hgx. replace (0 <? cols) with true by (symmetry; apply Z.ltb_lt; lia).
    replace (gx + gy * cols) with ((gx + cols) + (gy - 1) * cols) by lia.
    f_equal.
    + rewrite Z.mod_add by lia. apply Z.mod_small. lia.
    + rewrite Z.div_add by lia. rewrite Z.div_small by lia. lia.
Qed.

End AtlasGrid.

(** X20, at a 384x384 image whose tileset starts at GID 1: tile 5 is the
    tile in column 2 of row 1. *)
Lemma atlas_grid_roundtrip_witness :
  TiledToBin.img_grid
    (TiledToBin.tileset_info (fun p => p) 1
       (tsx_written (fun _ => BinToTiled.Png 384 384)
          (BinToTiled.set_firstgid 1 (BinToTiled.new_ImageTileset "Tilemaps/t.png"))))
    (2 + 1 * 3)
  = (2, 1).
Proof.
  refine (proj1 (proj2 (proj2 (proj2
            (atlas_grid_roundtrip (fun p => p) (fun _ => BinToTiled.Png 384 384)
               (BinToTiled.new_ImageTileset "Tilemaps/t.png") 1 _ _)))) 2 1 _).
  - discriminate.
  - vm_compute. discriminate.
  - vm_compute. split; [discriminate|reflexivity].
Defined.

(** ** The file the reverse converter writes *)

Section OutputPath.
#[local] Arguments append !s1 s2 : simpl nomatch.

Lemma replace_none old new s :
  is_substring old s = false -> PyStr.replace old new s = s.
Proof.
  unfold PyStr.replace. induction s as [|c s IH]; intros H; [reflexivity|].
  cbn [is_substring] in H. apply orb_false_elim in H as [Hp Hs].
  cbn [PyStr.replace_from]. rewrite Hp. f_equal. exact (IH Hs).
Qed.

Lemma prefix_empty s : String.prefix EmptyString s = true.
Proof. now destruct s. Qed.

Lemma prefix_tmx_longer c b :
  String.prefix ".tmx" (String c (b ++ ".tm")) = false ->
  String.prefix ".tmx" (String c (b ++ ".tmx")) = false.
Proof.
  destruct b as [|c1 [|c2 [|c3 b3]]]; cbn [append String.prefix];
    repeat (destruct (ascii_dec _ _) as [<-|?]; try reflexivity; try discriminate);
    try (rewrite !prefix_empty; discriminate); auto.
Qed.

Lemma replace_extension base :
  is_substring ".tmx" (base ++ ".tm") = false ->
  PyStr.replace ".tmx" ".bin" (base ++ ".tmx") = base ++ ".bin".
Proof.
  unfold PyStr.replace. induction base as [|c b IH]; intros H; [reflexivity|].
  cbn [append] in H |- *. cbn [is_substring] in H.
  apply orb_false_elim in H as [Hp Hs].
  cbn [PyStr.replace_from]. rewrite (prefix_tmx_longer _ _ Hp). f_equal. exact (IH Hs).
Qed.

(** X21. The reverse converter names its output by replacing every
    [.tmx] in the path it was given, wherever it stands. A path that ends in
    [.tmx] and has no other gives the same path ending in [.bin]; a path
    without [.tmx] is left as it is, so the binary level is written over the
    map that was just read. *)
Theorem output_path_behaviour :
  (forall base,
      is_substring ".tmx" (base ++ ".tm") = false ->
      TiledToBin.output_bin (base ++ ".tmx") = base ++ ".bin")
  /\ (forall tmx_path,
        is_substring ".tmx" tmx_path = false ->
        TiledToBin.output_bin tmx_path = tmx_path).
Proof.
  split.
  - intros base H. now apply replace_extension.
  - intros p H. now apply replace_none.
Qed.

End OutputPath.

(** X21, at [maps/level1.tmx] and at [level1.xml]. *)
Lemma output_path_behaviour_witness :
  TiledToBin.output_bin "maps/level1.tmx" = "maps/level1.bin"
  /\ TiledToBin.output_bin "level1.xml" = "level1.xml".
Proof.
  split.
  - exact (proj1 output_path_behaviour "maps/level1" eq_refl).
  - exact (proj2 output_path_behaviour "level1.xml" eq_refl).
Defined.
